(** * Resource Allocation & Council Escalation Engine

    A shallow embedding of the allocation engine of the Thermal Equity
    Orchestrator: [DemoResourceDistributorAgent]
    (src/c42_resource_integration.tsx) and [ResourceDistributorAgent]
    (src/resource_distributor_agent.tsx).

    Modelling conventions.
    - A JavaScript [number] is an exact rational ([Q]): the formulas of the
      source are evaluated without rounding, and the infinities are outside
      the model.  Comparisons are the boolean tests of the source ([<=] is
      [Qle_bool], [>] is [Qltb] flipped).  Where the source can produce
      [NaN], in the confidence of a proposal, the value is a [Number], a
      rational or [NaN].  What rounding does to the exact identities is
      shown on the source's own binary64 arithmetic in [Binary64].
    - A JavaScript [Map] and a plain object used as a dictionary are
      insertion-ordered association lists: [set] on a present key replaces
      the value in place, on a fresh key it appends; iteration follows the
      list.  (Identifiers are assumed not to be canonical array indices,
      which a plain object would enumerate first, and a row or a cell is
      assumed not to be stored under [__proto__], which a plain object
      would take for its prototype.)  A lookup in a plain
      object also finds the members every object inherits; [cellOrZero],
      the lookup of [calculateConfidence], models that.
    - Objects held in a [Map] are mutated through references in the source;
      here a reference is the key of the entry and a mutation rewrites the
      entry in place.
    - Every handler is an [async] method; it is modelled as run to
      completion: [await] on the messaging transport is a call that appends
      to the log [sent] of the agent state.  [Date.now()] is the argument
      [now] of a handler. *)

From Stdlib Require Import QArith Qminmax Lqa Lia ZArith List String Bool.
From Stdlib Require Import DecimalString.
From Stdlib Require HexadecimalString HexadecimalZ Qround Floats.
From Stdlib Require Import Permutation Sorted.
Import ListNotations.
Open Scope Q_scope.

Set Implicit Arguments.

(** ** JavaScript numbers *)

(** [x < y] as a boolean test. *)
Definition Qltb (x y : Q) : bool := negb (Qle_bool y x).

(** [Math.min(x, y)]. *)
Definition js_min (x y : Q) : Q := if Qle_bool x y then x else y.

(** [Math.max(x, y)]. *)
Definition js_max (x y : Q) : Q := if Qle_bool x y then y else x.

(** Truthiness of a number: every number but zero. *)
Definition truthy (x : Q) : bool := negb (Qeq_bool x 0).

(** [array.reduce((sum, x) => sum + x, 0)]. *)
Definition sumQ (l : list Q) : Q := fold_left Qplus l 0.

(** A number that may be [NaN]. *)
Inductive Number :=
| num (x : Q)
| NaN.

(** [x + y]: [NaN] is absorbing. *)
Definition addNumber (x y : Number) : Number :=
  match x, y with
  | num a, num b => num (a + b)
  | _, _ => NaN
  end.

(** [x / y] for a divisor that is a number other than zero. *)
Definition divNumber (x : Number) (y : Q) : Number :=
  match x with
  | num a => num (a / y)
  | NaN => NaN
  end.

(** [x < y]: every comparison with [NaN] is false. *)
Definition lessThan (x : Number) (y : Q) : bool :=
  match x with
  | num a => Qltb a y
  | NaN => false
  end.

(** ** Insertion-ordered dictionaries *)

Section Dict.
Variable V : Type.

Definition Dict := list (string * V).

Fixpoint get (k : string) (m : Dict) : option V :=
  match m with
  | [] => None
  | (k', v) :: rest => if String.eqb k' k then Some v else get k rest
  end.

Fixpoint set (k : string) (v : V) (m : Dict) : Dict :=
  match m with
  | [] => [(k, v)]
  | (k', v') :: rest =>
      if String.eqb k' k then (k', v) :: rest else (k', v') :: set k v rest
  end.

Definition keys (m : Dict) : list string := map fst m.
Definition values (m : Dict) : list V := map snd m.

(** In-place mutation of the object stored under [k]. *)
Fixpoint modify (k : string) (f : V -> V) (m : Dict) : Dict :=
  match m with
  | [] => []
  | (k', v) :: rest =>
      if String.eqb k' k then (k', f v) :: rest else (k', v) :: modify k f rest
  end.

(** Object spread [{...a, ...b}]. *)
Definition spread (a b : Dict) : Dict :=
  fold_left (fun acc kv => set (fst kv) (snd kv) acc) b a.
End Dict.

Arguments get {V} k m.
Arguments set {V} k v m.
Arguments keys {V} m.
Arguments values {V} m.
Arguments modify {V} k f m.
Arguments spread {V} a b.

(** A donor → cause → amount matrix. *)
Definition Matrix := Dict (Dict Q).

(** ** Data model *)

Record DonorProfile := mkDonor {
  donor_id : string;
  wallet : Q;
  preferences : Dict Q;
  allocationBudget : Q;
  lastActivity : Z;
  trustLevel : Z
}.

Record CauseProfile := mkCause {
  cause_id : string;
  name : string;
  need : Q;
  priority : Q;
  received : Q;
  totalReceived : Q;
  lastUpdate : Z
}.

(** ** Allocation Ledger: the computations shared by both agents *)

(** [donor.preferences[cause.id] || 0]. *)
Definition preferenceWeight (donor : DonorProfile) (cause : CauseProfile) : Q :=
  match get (cause_id cause) (preferences donor) with
  | Some w => if truthy w then w else 0
  | None => 0
  end.

(** [donor.preferences[cause.id] && donor.preferences[cause.id] > 0]. *)
Definition relevant (donor : DonorProfile) (cause : CauseProfile) : bool :=
  match get (cause_id cause) (preferences donor) with
  | Some w => truthy w && Qltb 0 w
  | None => false
  end.

Definition weightedScore (donor : DonorProfile) (cause : CauseProfile) : Q :=
  let preferenceWeight := preferenceWeight donor cause in
  let priorityWeight := priority cause in
  let needWeight := js_min (need cause) (allocationBudget donor) in
  preferenceWeight * priorityWeight * needWeight.

(** The body of [relevantCauses.forEach] in [calculateAllocations]. *)
Definition allocateCause (donor : DonorProfile) (totalWeightedPriority : Q)
    (row : Dict Q) (cause : CauseProfile) : Dict Q :=
  let proportion := weightedScore donor cause / totalWeightedPriority in
  let allocation := allocationBudget donor * proportion in
  let allocation := js_min allocation (need cause - received cause) in
  if Qltb 0 allocation then set (cause_id cause) allocation row else row.

(** The row [allocations[donorId]] once the callback of [donors.forEach]
    has returned, for a donor whose budget is positive. *)
Definition donorAllocations (causes : Dict CauseProfile) (donor : DonorProfile)
    : Dict Q :=
  let relevantCauses := filter (relevant donor) (values causes) in
  if (List.length relevantCauses =? 0)%nat then [] else
  let totalWeightedPriority :=
    fold_left (fun sum cause => sum + weightedScore donor cause) relevantCauses 0 in
  if Qle_bool totalWeightedPriority 0 then [] else
  fold_left (allocateCause donor totalWeightedPriority) relevantCauses [].

Definition calculateAllocations (donors : Dict DonorProfile)
    (causes : Dict CauseProfile) : Matrix :=
  fold_left
    (fun allocations entry =>
       let '(donorId, donor) := entry in
       if Qle_bool (allocationBudget donor) 0 then allocations
       else set donorId (donorAllocations causes donor) allocations)
    donors [].

(** The names of the members every plain object inherits from
    [Object.prototype]: a lookup [o[k]] of one of them in an object that
    has no property [k] of its own yields the inherited member, a function
    (for ["__proto__"] the prototype object), which is truthy. *)
Definition inheritedNames : list string :=
  ["constructor"; "hasOwnProperty"; "isPrototypeOf"; "propertyIsEnumerable";
   "toLocaleString"; "toString"; "valueOf"; "__proto__";
   "__defineGetter__"; "__defineSetter__"; "__lookupGetter__";
   "__lookupSetter__"]%string.

Definition inherited (k : string) : bool :=
  existsb (String.eqb k) inheritedNames.

(** [donorAllocations[cause.id] || 0]: the cell of the row, [0] for a cell
    that is zero or absent, and [None] where the lookup falls through to
    an inherited member, which is not a number. *)
Definition cellOrZero (causeId : string) (donorAllocations : Dict Q) : option Q :=
  match get causeId donorAllocations with
  | Some a => Some (if truthy a then a else 0)
  | None => if inherited causeId then None else Some 0
  end.

(** What the cause would receive under [allocations]: the reducer
    [sum + (donorAllocations[cause.id] || 0)] from [0].  Adding an inherited
    member to the sum concatenates the two into a string, and so does
    every later addition; [None] is such a string. *)
Definition causeReceived (allocations : Matrix) (cause : CauseProfile) : option Q :=
  fold_left
    (fun sum donorAllocations =>
       match sum, cellOrZero (cause_id cause) donorAllocations with
       | Some s, Some a => Some (s + a)
       | _, _ => None
       end)
    (values allocations) (Some 0).

(** The body of [causes.forEach] in [calculateConfidence]; the accumulator
    is the pair of locals [(totalNeed, totalMet)].  [Math.min] of a
    string that is not a numeral is [NaN]. *)
Definition confidenceStep (allocations : Matrix) (acc : Q * Number)
    (cause : CauseProfile) : Q * Number :=
  let '(totalNeed, totalMet) := acc in
  (totalNeed + need cause,
   addNumber totalMet
     match causeReceived allocations cause with
     | Some causeReceived => num (js_min causeReceived (need cause))
     | None => NaN
     end).

Definition calculateConfidence (causes : Dict CauseProfile) (allocations : Matrix)
    : Number :=
  let '(totalNeed, totalMet) :=
    fold_left (confidenceStep allocations) (values causes) (0, num 0) in
  if Qltb 0 totalNeed then divNumber totalMet totalNeed else num 1.

(** ** Council insights and synthesis *)

Record Insight := mkInsight {
  agent : string;
  insight_reasoning : string;
  recommendations : Matrix;
  insight_confidence : Q
}.

(** [insight.recommendations[donorId] && insight.recommendations[donorId][causeId]]
    as the predicate of [filter]: the row must exist and the cell must be
    a truthy number. *)
Definition recommends (donorId causeId : string) (insight : Insight) : bool :=
  match get donorId (recommendations insight) with
  | Some row =>
      match get causeId row with
      | Some r => truthy r
      | None => false
      end
  | None => false
  end.

(** [insight.recommendations[donorId][causeId]] as the function of [map]. *)
Definition recommendation (donorId causeId : string) (insight : Insight) : Q :=
  match get donorId (recommendations insight) with
  | Some row =>
      match get causeId row with
      | Some r => r
      | None => 0
      end
  | None => 0
  end.

(** The value stored in [synthesized[donorId][causeId]]. *)
Definition synthesizeCell (insights : list Insight) (donorId causeId : string)
    (originalAmount : Q) : Q :=
  let recommendations :=
    map (recommendation donorId causeId)
        (filter (recommends donorId causeId) insights) in
  if (0 <? List.length recommendations)%nat then
    let avgRecommendation :=
      sumQ recommendations / inject_Z (Z.of_nat (List.length recommendations)) in
    avgRecommendation * 0.7 + originalAmount * 0.3
  else originalAmount.

(** [proposed[donorId][causeId]] for keys enumerated from [proposed]. *)
Definition cell (m : Matrix) (donorId causeId : string) : Q :=
  match get donorId m with
  | Some row =>
      match get causeId row with
      | Some a => a
      | None => 0
      end
  | None => 0
  end.

Definition rowOf (m : Matrix) (donorId : string) : Dict Q :=
  match get donorId m with
  | Some row => row
  | None => []
  end.

Definition synthesizeCouncilDecision (proposed : Matrix) (insights : list Insight)
    : Matrix :=
  fold_left
    (fun synthesized donorId =>
       set donorId
         (fold_left
            (fun row causeId =>
               let originalAmount := cell proposed donorId causeId in
               set causeId (synthesizeCell insights donorId causeId originalAmount) row)
            (keys (rowOf proposed donorId)) [])
         synthesized)
    (keys proposed) [].

(** [detectMajorReallocation]: some cell above 30% of the whole volume. *)
Definition totalAllocation (allocations : Matrix) : Q :=
  fold_left
    (fun sum donorAllocations =>
       sum + fold_left (fun s amount => s + amount) (values donorAllocations) 0)
    (values allocations) 0.

Definition detectMajorReallocation (allocations : Matrix) : bool :=
  let totalAllocation := totalAllocation allocations in
  existsb
    (fun donorAllocations =>
       existsb (fun amount => Qltb (totalAllocation * 0.3) amount)
               (values donorAllocations))
    (values allocations).

(** ** The balance updates of a commit, shared by both agents *)

(** [donor.wallet -= amount; donor.allocationBudget -= amount]. *)
Definition debit (amount : Q) (donor : DonorProfile) : DonorProfile :=
  mkDonor (donor_id donor) (wallet donor - amount) (preferences donor)
          (allocationBudget donor - amount) (lastActivity donor) (trustLevel donor).

(** [cause.received += amount; cause.totalReceived += amount]. *)
Definition credit (amount : Q) (cause : CauseProfile) : CauseProfile :=
  mkCause (cause_id cause) (name cause) (need cause) (priority cause)
          (received cause + amount) (totalReceived cause + amount) (lastUpdate cause).

(** [cause.received = 0]. *)
Definition resetReceived (cause : CauseProfile) : CauseProfile :=
  mkCause (cause_id cause) (name cause) (need cause) (priority cause)
          0 (totalReceived cause) (lastUpdate cause).

(** The donor map and the cause map. *)
Definition Ledger := (Dict DonorProfile * Dict CauseProfile)%type.

(** The effect of the two nested loops of [executeAllocations] on the
    two maps alone, with the events and notifications left out: one
    iteration of the inner loop, one of the outer loop, and the loops as
    a whole.  Both agents' loops are shown further down to act on the
    maps exactly like this. *)
Definition transferPair (donorId : string) (led : Ledger) (entry : string * Q)
    : Ledger :=
  let '(causeId, amount) := entry in
  match get donorId (fst led), get causeId (snd led) with
  | Some _, Some _ =>
      if Qle_bool amount 0 then led
      else (modify donorId (debit amount) (fst led),
            modify causeId (credit amount) (snd led))
  | _, _ => led
  end.

Definition transferRow (led : Ledger) (entry : string * Dict Q) : Ledger :=
  let '(donorId, donorAllocations) := entry in
  match get donorId (fst led) with
  | None => led
  | Some _ => fold_left (transferPair donorId) donorAllocations led
  end.

Definition transferLedger (allocations : Matrix) (led : Ledger) : Ledger :=
  fold_left transferRow allocations led.

(** [causes.forEach(cause => { cause.received = 0 })]. *)
Definition resetCycle (causes : Dict CauseProfile) : Dict CauseProfile :=
  map (fun kv => (fst kv, resetReceived (snd kv))) causes.

(** [new Set(xs).size]. *)
Definition distinct (xs : list string) : nat :=
  List.length (nodup string_dec xs).

(** ** Incoming messages *)

(** [msg.content] of an [offer_capacity] message; an absent field is [None]. *)
Record CapacityOffer := mkOffer {
  offer_donorId : string;
  offer_wallet : Q;
  offer_allocationPercentage : option Q;
  offer_preferences : option (Dict Q)
}.

(** ** Array and string helpers *)

(** [array.slice(-n)]: the last [n] elements, all of them when there are
    fewer. *)
Definition slice_last (A : Type) (n : nat) (l : list A) : list A :=
  skipn (List.length l - n) l.

(** [s.includes(pattern)]: [pattern] occurs in [s] as a substring. *)
Fixpoint includes (pattern s : string) : bool :=
  prefix pattern s
  || match s with
     | EmptyString => false
     | String _ rest => includes pattern rest
     end.

(** * DemoResourceDistributorAgent (src/c42_resource_integration.tsx) *)

Module Demo.

Record AllocationEvent := mkEvent {
  timestamp : Z;
  donorId : string;
  causeId : string;
  amount : Q;
  confidence : Number;
  reasoning : string;
  councilSynthesized : bool
}.

(** Payloads handed to the messaging transport, one constructor per topic. *)
Inductive Content :=
| capacity_acknowledged (budget : Q) (message : string)
| need_acknowledged (need : Q) (priority : Q) (message : string)
| allocation_executed (causeId causeName : string) (amount remainingWallet : Q)
    (councilReviewed : bool)
| funding_received (donorId : string) (amount totalReceived needRemaining : Q)
| allocation_summary (totalAllocated : Q)
    (allocationCount donorsParticipated causesSupported : nat)
    (councilReviewed : bool) (timestamp : Z)
| resource_context (councilId : string) (proposed : Matrix) (confidence : Number)
    (donors : list DonorProfile) (causes : list CauseProfile) (question : string).

(** Calls made on [this.sdk.agent] and on the timer, in program order. *)
Inductive SdkCall :=
| whisper (to : string) (content : Content)
| broadcast (from : string) (content : Content)
| convene (topic : string)
| setTimeout_triggerSpecialistAgents (allocations : Matrix) (delay : Z).

Record Agent := mkAgent {
  donors : Dict DonorProfile;
  causes : Dict CauseProfile;
  allocationHistory : list AllocationEvent;
  isProcessing : bool;
  councilActive : bool;
  councilInsights : list Insight;
  sent : list SdkCall
}.

Definition id : string := "Distributor-Agent".

(** The state built by the constructor, before any message; the
    registration and the ready notice of [initialize] are not logged. *)
Definition init : Agent := mkAgent [] [] [] false false [] [].

(** Field updates. *)
Definition with_donors (ds : Dict DonorProfile) (st : Agent) : Agent :=
  mkAgent ds (causes st) (allocationHistory st) (isProcessing st)
          (councilActive st) (councilInsights st) (sent st).

Definition with_causes (cs : Dict CauseProfile) (st : Agent) : Agent :=
  mkAgent (donors st) cs (allocationHistory st) (isProcessing st)
          (councilActive st) (councilInsights st) (sent st).

Definition with_history (h : list AllocationEvent) (st : Agent) : Agent :=
  mkAgent (donors st) (causes st) h (isProcessing st)
          (councilActive st) (councilInsights st) (sent st).

Definition with_isProcessing (b : bool) (st : Agent) : Agent :=
  mkAgent (donors st) (causes st) (allocationHistory st) b
          (councilActive st) (councilInsights st) (sent st).

Definition with_council (active : bool) (insights : list Insight) (st : Agent)
    : Agent :=
  mkAgent (donors st) (causes st) (allocationHistory st) (isProcessing st)
          active insights (sent st).

(** [await this.sdk.agent.<call>(...)]. *)
Definition send (c : SdkCall) (st : Agent) : Agent :=
  mkAgent (donors st) (causes st) (allocationHistory st) (isProcessing st)
          (councilActive st) (councilInsights st) (sent st ++ [c]).

(** *** executeAllocations *)

(** The loop state: the agent and the local [executedAllocations]. *)
Definition Loop := (Agent * list AllocationEvent)%type.

(** The two maps the agent owns. *)
Definition ledger (st : Agent) : Ledger := (donors st, causes st).

(** One iteration of the inner [for] of [executeAllocations], for the
    donor entry [donorId] (the reference [donor]) and the entry
    [(causeId, amount)] of its row. *)
Definition executePair (now : Z) (allocations : Matrix) (donorId : string)
    (loop : Loop) (entry : string * Q) : Loop :=
  let '(st, executedAllocations) := loop in
  let '(causeId, amount) := entry in
  match get donorId (donors st), get causeId (causes st) with
  | Some donor0, Some cause0 =>
      if Qle_bool amount 0 then loop else
      let donor := debit amount donor0 in
      let cause := credit amount cause0 in
      let st := with_donors (modify donorId (debit amount) (donors st)) st in
      let st := with_causes (modify causeId (credit amount) (causes st)) st in
      let event :=
        mkEvent now donorId causeId amount
          (calculateConfidence (causes st) allocations)
          (if councilActive st then "Council-synthesized allocation"
           else "Allocated based on preference and priority")
          (councilActive st) in
      let executedAllocations := executedAllocations ++ [event] in
      let st := with_history (allocationHistory st ++ [event]) st in
      let st :=
        send (whisper donorId
                (allocation_executed causeId (name cause) amount (wallet donor)
                   (councilActive st))) st in
      let st :=
        send (whisper causeId
                (funding_received donorId amount (totalReceived cause)
                   (js_max 0 (need cause - received cause)))) st in
      (st, executedAllocations)
  | _, _ => loop
  end.

(** One iteration of the outer [for]. *)
Definition executeRow (now : Z) (allocations : Matrix) (loop : Loop)
    (entry : string * Dict Q) : Loop :=
  let '(donorId, donorAllocations) := entry in
  match get donorId (donors (fst loop)) with
  | None => loop
  | Some _ => fold_left (executePair now allocations donorId) donorAllocations loop
  end.

(** The two nested loops: every transfer of the batch, before the reset. *)
Definition executeTransfers (now : Z) (allocations : Matrix) (st : Agent) : Loop :=
  fold_left (executeRow now allocations) allocations (st, []).

Definition executeAllocations (now : Z) (allocations : Matrix) (st : Agent) : Agent :=
  let '(st, executedAllocations) := executeTransfers now allocations st in
  let st := with_causes (resetCycle (causes st)) st in
  send (broadcast id
          (allocation_summary
             (fold_left (fun sum event => sum + amount event) executedAllocations 0)
             (List.length executedAllocations)
             (distinct (map donorId executedAllocations))
             (distinct (map causeId executedAllocations))
             (councilActive st)
             now)) st.

(** *** Escalation *)

(** [sdk.agent.convene] of the bundled SDK names the session after the clock. *)
Definition councilIdOf (now : Z) : string :=
  "council_" ++ NilZero.string_of_int (Z.to_int now).

Definition conveneCouncil (now : Z) (allocations : Matrix) (confidence : Number)
    (st : Agent) : Agent :=
  let st := with_council true [] st in
  let councilId := councilIdOf now in
  let st := send (convene "resource_allocation_review") st in
  let st :=
    send (broadcast id
            (resource_context councilId allocations confidence
               (values (donors st)) (values (causes st))
               "Should we proceed with these allocations or modify the approach?"))
         st in
  send (setTimeout_triggerSpecialistAgents allocations 1000) st.

Definition evaluateAllocations (now : Z) (st : Agent) : Agent :=
  if isProcessing st
     || (List.length (donors st) =? 0)%nat
     || (List.length (causes st) =? 0)%nat
  then st else
  let st := with_isProcessing true st in
  let allocations := calculateAllocations (donors st) (causes st) in
  let confidence := calculateConfidence (causes st) allocations in
  let st :=
    if lessThan confidence 0.7 || detectMajorReallocation allocations
    then conveneCouncil now allocations confidence st
    else executeAllocations now allocations st in
  with_isProcessing false st.

(** *** Message handlers *)

Definition handleCapacityOffer (now : Z) (msg : CapacityOffer) (st : Agent) : Agent :=
  let donorId := offer_donorId msg in
  let wallet := offer_wallet msg in
  let allocationPercentage :=
    match offer_allocationPercentage msg with Some p => p | None => 0.15 end in
  let preferences :=
    match offer_preferences msg with Some p => p | None => [] end in
  let donor :=
    mkDonor donorId wallet preferences (wallet * allocationPercentage) now 75 in
  let st := with_donors (set donorId donor (donors st)) st in
  let st := evaluateAllocations now st in
  (* [donor] is the object now stored in the map: read it back *)
  let donor := match get donorId (donors st) with Some d => d | None => donor end in
  send (whisper donorId
          (capacity_acknowledged (allocationBudget donor)
             "Capacity registered successfully")) st.

(** [msg.content] of a [register_need] message. *)
Record NeedRegistration := mkNeed {
  reg_causeId : string;
  reg_name : option string;
  reg_need : Q;
  reg_priority : option Q
}.

Definition handleNeedRegistration (now : Z) (msg : NeedRegistration) (st : Agent)
    : Agent :=
  let causeId := reg_causeId msg in
  let need := reg_need msg in
  let priority := match reg_priority msg with Some p => p | None => 0.6 end in
  let name :=
    match reg_name msg with
    | Some n => if String.eqb n "" then causeId else n
    | None => causeId
    end in
  let cause := mkCause causeId name need (js_max 0 (js_min 1 priority)) 0 0 now in
  let st := with_causes (set causeId cause (causes st)) st in
  let st := evaluateAllocations now st in
  send (whisper causeId
          (need_acknowledged need priority "Need registered successfully")) st.

(** [msg.content] of a [preference_update] message. *)
Record PreferenceUpdate := mkPrefs {
  upd_donorId : string;
  upd_preferences : Dict Q
}.

Definition setPreferences (p : Dict Q) (donor : DonorProfile) : DonorProfile :=
  mkDonor (donor_id donor) (wallet donor) p (allocationBudget donor)
          (lastActivity donor) (trustLevel donor).

Definition handlePreferenceUpdate (now : Z) (msg : PreferenceUpdate) (st : Agent)
    : Agent :=
  let donorId := upd_donorId msg in
  match get donorId (donors st) with
  | Some donor =>
      let st :=
        with_donors
          (modify donorId
             (fun donor => setPreferences (spread (preferences donor) (upd_preferences msg)) donor)
             (donors st)) st in
      evaluateAllocations now st
  | None => st
  end.

(** [msg.content] of a [council_insight] message is the [Insight]. *)
Definition handleCouncilInsight (now : Z) (msg : Insight) (st : Agent) : Agent :=
  if negb (councilActive st) then st else
  let st := with_council (councilActive st) (councilInsights st ++ [msg]) st in
  if (3 <=? List.length (councilInsights st))%nat then
    let allocations := calculateAllocations (donors st) (causes st) in
    let synthesized := synthesizeCouncilDecision allocations (councilInsights st) in
    let st := executeAllocations now synthesized st in
    with_council false [] st
  else st.

(** *** The operations of the engine *)

(** What can happen to the agent: the four subscribed messages, an
    evaluation cycle, and the commit of a batch. *)
Inductive Operation :=
| OfferCapacity (msg : CapacityOffer)
| RegisterNeed (msg : NeedRegistration)
| UpdatePreferences (msg : PreferenceUpdate)
| CouncilInsight (msg : Insight)
| Evaluate
| Commit (allocations : Matrix).

Definition run (now : Z) (op : Operation) (st : Agent) : Agent :=
  match op with
  | OfferCapacity msg => handleCapacityOffer now msg st
  | RegisterNeed msg => handleNeedRegistration now msg st
  | UpdatePreferences msg => handlePreferenceUpdate now msg st
  | CouncilInsight msg => handleCouncilInsight now msg st
  | Evaluate => evaluateAllocations now st
  | Commit allocations => executeAllocations now allocations st
  end.

(** The fraction an offer is registered with. *)
Definition offeredFraction (msg : CapacityOffer) : Q :=
  match offer_allocationPercentage msg with Some p => p | None => 0.15 end.

(** *** Dashboard snapshot *)

Record DashboardData := mkDashboard {
  activeDonors : nat;
  activeCauses : nat;
  totalAllocated : Q;
  recentAllocations : list AllocationEvent;
  dashboard_allocationHistory : list AllocationEvent;
  dashboard_donors : list DonorProfile;
  dashboard_causes : list CauseProfile;
  dashboard_councilActive : bool;
  dashboard_councilInsights : list Insight
}.

Definition getDashboardData (st : Agent) : DashboardData :=
  mkDashboard
    (List.length (donors st))
    (List.length (causes st))
    (fold_left (fun sum e => sum + amount e) (allocationHistory st) 0)
    (slice_last 5 (allocationHistory st))
    (allocationHistory st)
    (values (donors st))
    (values (causes st))
    (councilActive st)
    (councilInsights st).

(** *** The built-in specialists *)

Definition generateEthicsInsight (allocations : Matrix) : Insight :=
  mkInsight "Ethics-Agent" "Analyzing allocation fairness and equity impact"
    (fold_left
       (fun recommendations donorId =>
          set donorId
            (fold_left
               (fun row causeId =>
                  let original := cell allocations donorId causeId in
                  let adjustment :=
                    if includes "climate" causeId || includes "education" causeId
                    then 1.1 else 0.95 in
                  set causeId (original * adjustment) row)
               (keys (rowOf allocations donorId)) [])
            recommendations)
       (keys allocations) [])
    0.85.

Definition generateImpactInsight (allocations : Matrix) : Insight :=
  mkInsight "Impact-Agent" "Optimizing for measurable impact per dollar"
    (fold_left
       (fun recommendations donorId =>
          set donorId
            (fold_left
               (fun row causeId =>
                  let original := cell allocations donorId causeId in
                  let multiplier :=
                    if includes "journalism" causeId then 1.15
                    else if includes "education" causeId then 1.05 else 1.0 in
                  set causeId (original * multiplier) row)
               (keys (rowOf allocations donorId)) [])
            recommendations)
       (keys allocations) [])
    0.90.

(** [random n] is what the call number [n] of [Math.random()] returns
    while the insight is generated. *)
Definition generateCommunityInsight (random : nat -> Q) (allocations : Matrix)
    : Insight :=
  mkInsight "Community-Agent"
    "Reflecting community sentiment and engagement levels"
    (fst
       (fold_left
          (fun (acc : Matrix * nat) donorId =>
             let '(row, n) :=
               fold_left
                 (fun (inner : Dict Q * nat) causeId =>
                    let original := cell allocations donorId causeId in
                    let adjustment := 0.98 + random (snd inner) * 0.04 in
                    (set causeId (original * adjustment) (fst inner),
                     S (snd inner)))
                 (keys (rowOf allocations donorId)) ([], snd acc) in
             (set donorId row (fst acc), n))
          (keys allocations) ([], 0%nat)))
    0.80.

(** The three broadcasts [triggerSpecialistAgents] schedules: the delay of
    the timer, the sender and the insight broadcast under the topic
    [council_insight]. *)
Definition triggerSpecialistAgents (random : nat -> Q) (allocations : Matrix)
    : list (Z * string * Insight) :=
  let ethicsInsight := generateEthicsInsight allocations in
  let impactInsight := generateImpactInsight allocations in
  let communityInsight := generateCommunityInsight random allocations in
  [(500%Z, "Ethics-Agent"%string, ethicsInsight);
   (1000%Z, "Impact-Agent"%string, impactInsight);
   (1500%Z, "Community-Agent"%string, communityInsight)].

End Demo.

(** * ResourceDistributorAgent (src/resource_distributor_agent.tsx) *)

(** The part of the class the commit and the capacity offers go through:
    [handleCapacityOffer], [evaluateAllocations], [conveneResourceCouncil]
    and [executeAllocations].  [calculateAllocations] and
    [calculateConfidence] are the shared definitions above, the two
    classes having the same text for them. *)

Module Rda.

Record AllocationEvent := mkEvent {
  timestamp : Z;
  donorId : string;
  causeId : string;
  amount : Q;
  confidence : Number;
  reasoning : string
}.

Inductive Content :=
| capacity_acknowledged (budget : Q) (message : string)
| allocation_executed (causeId causeName : string) (amount remainingWallet : Q)
    (reasoning : string)
| funding_received (donorId : string) (amount totalReceived needRemaining : Q)
| allocation_summary (totalAllocated : Q)
    (allocationCount donorsParticipated causesSupported : nat)
    (averageConfidence : Number) (timestamp : Z)
| resource_context (councilId : string) (allocations : Matrix) (confidence : Number)
    (donors : list DonorProfile) (causes : list CauseProfile) (question : string).

Inductive SdkCall :=
| whisper (to : string) (content : Content)
| broadcast (from : string) (content : Content)
| convene (topic : string).

Record Config := mkConfig {
  maxAllocationPerCycle : Q;
  minTrustLevel : Z;
  councilThreshold : Q;
  auditRetentionDays : Z
}.

Record Agent := mkAgent {
  donors : Dict DonorProfile;
  causes : Dict CauseProfile;
  allocationHistory : list AllocationEvent;
  isProcessing : bool;
  config : Config;
  sent : list SdkCall
}.

Definition id : string := "Distributor-Agent".

Definition init : Agent :=
  mkAgent [] [] [] false (mkConfig 1000 30 0.7 90) [].

Definition with_donors (ds : Dict DonorProfile) (st : Agent) : Agent :=
  mkAgent ds (causes st) (allocationHistory st) (isProcessing st) (config st) (sent st).

Definition with_causes (cs : Dict CauseProfile) (st : Agent) : Agent :=
  mkAgent (donors st) cs (allocationHistory st) (isProcessing st) (config st) (sent st).

Definition with_history (h : list AllocationEvent) (st : Agent) : Agent :=
  mkAgent (donors st) (causes st) h (isProcessing st) (config st) (sent st).

Definition with_isProcessing (b : bool) (st : Agent) : Agent :=
  mkAgent (donors st) (causes st) (allocationHistory st) b (config st) (sent st).

Definition send (c : SdkCall) (st : Agent) : Agent :=
  mkAgent (donors st) (causes st) (allocationHistory st) (isProcessing st)
          (config st) (sent st ++ [c]).

Definition Loop := (Agent * list AllocationEvent)%type.

Definition ledger (st : Agent) : Ledger := (donors st, causes st).

(** The fraction an offer is registered with. *)
Definition offeredFraction (msg : CapacityOffer) : Q :=
  match offer_allocationPercentage msg with Some p => p | None => 0.1 end.

Section WithFormatting.
(** [Number.prototype.toFixed(2)], the formatting of the host. *)
Variable toFixed2 : Q -> string.

(** The template string of [event.reasoning]; the weight reads
    [undefined] when the donor has no preference for the cause.  (For a
    cause named like an inherited member and absent from the preferences
    the source would call [toFixed] on that member and throw; the agent
    commits its own proposals only, whose cells all have a preference of
    the donor's own.) *)
Definition reasoningOf (donor : DonorProfile) (causeId : string)
    (cause : CauseProfile) : string :=
  "Allocated based on preference ("
  ++ match get causeId (preferences donor) with
     | Some w => toFixed2 w
     | None => "undefined"
     end
  ++ ") and priority (" ++ toFixed2 (priority cause) ++ ")".

Definition executePair (now : Z) (allocations : Matrix) (donorId : string)
    (loop : Loop) (entry : string * Q) : Loop :=
  let '(st, executedAllocations) := loop in
  let '(causeId, amount) := entry in
  match get donorId (donors st), get causeId (causes st) with
  | Some donor0, Some cause0 =>
      if Qle_bool amount 0 then loop else
      let donor := debit amount donor0 in
      let cause := credit amount cause0 in
      let st := with_donors (modify donorId (debit amount) (donors st)) st in
      let st := with_causes (modify causeId (credit amount) (causes st)) st in
      let event :=
        mkEvent now donorId causeId amount
          (calculateConfidence (causes st) allocations)
          (reasoningOf donor causeId cause) in
      let executedAllocations := executedAllocations ++ [event] in
      let st := with_history (allocationHistory st ++ [event]) st in
      let st :=
        send (whisper donorId
                (allocation_executed causeId (name cause) amount (wallet donor)
                   (reasoning event))) st in
      let st :=
        send (whisper causeId
                (funding_received donorId amount (totalReceived cause)
                   (js_max 0 (need cause - received cause)))) st in
      (st, executedAllocations)
  | _, _ => loop
  end.

Definition executeRow (now : Z) (allocations : Matrix) (loop : Loop)
    (entry : string * Dict Q) : Loop :=
  let '(donorId, donorAllocations) := entry in
  match get donorId (donors (fst loop)) with
  | None => loop
  | Some _ => fold_left (executePair now allocations donorId) donorAllocations loop
  end.

Definition executeTransfers (now : Z) (allocations : Matrix) (st : Agent) : Loop :=
  fold_left (executeRow now allocations) allocations (st, []).

(** The mean of the events' confidences; for an empty batch it is
    [0 / 0], which is [NaN]. *)
Definition averageConfidence (executedAllocations : list AllocationEvent)
    : Number :=
  match executedAllocations with
  | [] => NaN
  | _ =>
      divNumber
        (fold_left (fun sum e => addNumber sum (confidence e))
           executedAllocations (num 0))
        (inject_Z (Z.of_nat (List.length executedAllocations)))
  end.

Definition executeAllocations (now : Z) (allocations : Matrix) (st : Agent)
    : Agent :=
  let '(st, executedAllocations) := executeTransfers now allocations st in
  let st := with_causes (resetCycle (causes st)) st in
  send (broadcast id
          (allocation_summary
             (fold_left (fun sum event => sum + amount event) executedAllocations 0)
             (List.length executedAllocations)
             (distinct (map donorId executedAllocations))
             (distinct (map causeId executedAllocations))
             (averageConfidence executedAllocations)
             now)) st.

Definition conveneResourceCouncil (now : Z) (allocations : Matrix)
    (confidence : Number) (st : Agent) : Agent :=
  let councilId := ("council_" ++ NilZero.string_of_int (Z.to_int now))%string in
  let st := send (convene "resource_allocation_review") st in
  send (broadcast id
          (resource_context councilId allocations confidence
             (values (donors st)) (values (causes st))
             "Should we proceed with these allocations or modify the approach?"))
       st.

Definition evaluateAllocations (now : Z) (st : Agent) : Agent :=
  if isProcessing st then st else
  let st := with_isProcessing true st in
  let allocations := calculateAllocations (donors st) (causes st) in
  let confidence := calculateConfidence (causes st) allocations in
  let st :=
    if lessThan confidence (councilThreshold (config st))
    then conveneResourceCouncil now allocations confidence st
    else executeAllocations now allocations st in
  with_isProcessing false st.

Definition handleCapacityOffer (now : Z) (msg : CapacityOffer) (st : Agent)
    : Agent :=
  let donorId := offer_donorId msg in
  let wallet := offer_wallet msg in
  let allocationPercentage :=
    match offer_allocationPercentage msg with Some p => p | None => 0.1 end in
  let offered :=
    match offer_preferences msg with Some p => p | None => [] end in
  let donor :=
    match get donorId (donors st) with
    | Some d => d
    | None => mkDonor donorId 0 [] 0 0 50
    end in
  let donor :=
    mkDonor (donor_id donor) wallet (spread (preferences donor) offered)
            (wallet * allocationPercentage) now (trustLevel donor) in
  let st := with_donors (set donorId donor (donors st)) st in
  let st := evaluateAllocations now st in
  let donor := match get donorId (donors st) with Some d => d | None => donor end in
  send (whisper donorId
          (capacity_acknowledged (allocationBudget donor)
             "Your capacity has been registered and will be allocated according to your preferences"))
       st.
End WithFormatting.

(** *** Periodic maintenance *)

(** [cleanupOldData]: events older than the retention period are dropped. *)
Definition cleanupOldData (now : Z) (st : Agent) : Agent :=
  let cutoff :=
    (now - auditRetentionDays (config st) * 24 * 60 * 60 * 1000)%Z in
  with_history
    (filter (fun event => (cutoff <? timestamp event)%Z) (allocationHistory st))
    st.

(** The body of [donors.forEach] in [updateTrustLevels]. *)
Definition updateTrust (now : Z) (donor : DonorProfile) : DonorProfile :=
  let recentActivity := (now - lastActivity donor)%Z in
  let daysSinceActivity := inject_Z recentActivity / inject_Z (24 * 60 * 60 * 1000) in
  if Qltb daysSinceActivity 7 then
    mkDonor (donor_id donor) (wallet donor) (preferences donor)
            (allocationBudget donor) (lastActivity donor)
            (Z.min 100 (trustLevel donor + 1))
  else if Qltb 30 daysSinceActivity then
    mkDonor (donor_id donor) (wallet donor) (preferences donor)
            (allocationBudget donor) (lastActivity donor)
            (Z.max 0 (trustLevel donor - 1))
  else donor.

Definition updateTrustLevels (now : Z) (st : Agent) : Agent :=
  with_donors (map (fun kv => (fst kv, updateTrust now (snd kv))) (donors st)) st.

(** The callback of [setInterval] in [startProcessingLoop]. *)
Definition maintenance (now : Z) (st : Agent) : Agent :=
  updateTrustLevels now (cleanupOldData now st).

(** *** Top causes *)

(** [array.sort(compare)] for a comparator that returns a number: a stable
    sort, written as the insertion of each element, in order, behind the
    elements it does not have to precede. *)
Fixpoint insertBy (A : Type) (compare : A -> A -> Q) (x : A) (l : list A)
    : list A :=
  match l with
  | [] => [x]
  | y :: rest =>
      if Qltb (compare x y) 0 then x :: y :: rest
      else y :: insertBy compare x rest
  end.

Definition sortBy (A : Type) (compare : A -> A -> Q) (l : list A) : list A :=
  fold_left (fun sorted x => insertBy compare x sorted) l [].

Definition getTopCauses (st : Agent) : list CauseProfile :=
  firstn 10
    (sortBy (fun a b => totalReceived b - totalReceived a) (values (causes st))).

(** *** Donor clusters *)

(** [Object.entries(donor.preferences).sort((a, b) => b[1] - a[1])[0]?.[0]]:
    the key of the first entry once the entries are sorted by decreasing
    weight; [None] stands for [undefined]. *)
Definition primaryCause (donor : DonorProfile) : option string :=
  match sortBy (fun a b : string * Q => snd b - snd a) (preferences donor) with
  | [] => None
  | entry :: _ => Some (fst entry)
  end.

(** The body of [donors.forEach] in [getDonorClusters]; an empty key is
    as falsy as [undefined]. *)
Definition addToCluster (clusters : Dict (list DonorProfile))
    (kv : string * DonorProfile) : Dict (list DonorProfile) :=
  match primaryCause (snd kv) with
  | None => clusters
  | Some primary =>
      if String.eqb primary "" then clusters else
      let clusters :=
        match get primary clusters with
        | Some _ => clusters
        | None => set primary [] clusters
        end in
      modify primary (fun members => members ++ [snd kv]) clusters
  end.

Definition getDonorClusters (st : Agent) : Dict (list DonorProfile) :=
  fold_left addToCluster (donors st) [].

(** *** The audit checksum *)

(** [ToInt32]: the value modulo 2^32 in the signed 32-bit range. *)
Definition toInt32 (x : Z) : Z := ((x + 2 ^ 31) mod 2 ^ 32 - 2 ^ 31)%Z.

(** The reducer of [generateHash]:
    [((hash << 5) - hash) + char.charCodeAt(0) | 0]. *)
Definition hashStep (hash charCode : Z) : Z :=
  toInt32 (toInt32 (Z.shiftl (toInt32 hash) 5) - hash + charCode).

(** [number.toString(16)] of an integer. *)
Definition toString16 (z : Z) : string :=
  HexadecimalString.NilZero.string_of_int (Z.to_hex_int z).

(** [generateHash]; the string is given by its UTF-16 code units, which is
    what [split('')] and [charCodeAt(0)] go through. *)
Definition generateHash (data : list Z) : string :=
  toString16 (fold_left hashStep data 0%Z).

(** *** Preference updates *)

(** [msg.content] of a [preference_update] message. *)
Record PreferenceUpdate := mkPrefs {
  upd_donorId : string;
  upd_preferences : Dict Q;
  upd_reason : option string
}.

(** The [preference_change] notice broadcast at the end of the handler. *)
Record PreferenceChange := mkChange {
  change_donorId : string;
  change_newPreferences : Dict Q;
  change_reason : string;
  change_timestamp : Z
}.

(** [donor.preferences = {...}; donor.lastActivity = Date.now()]. *)
Definition touchPreferences (now : Z) (update : Dict Q) (donor : DonorProfile)
    : DonorProfile :=
  mkDonor (donor_id donor) (wallet donor) (spread (preferences donor) update)
          (allocationBudget donor) now (trustLevel donor).

(** *** Need registration *)

(** [msg.content] of a [register_need] message. *)
Record NeedRegistration := mkNeed {
  reg_causeId : string;
  reg_name : option string;
  reg_need : Q;
  reg_priority : option Q;
  reg_description : option string
}.

(** The acknowledgement whispered to the cause at the end of the handler. *)
Record NeedAcknowledged := mkNeedAck {
  ack_to : string;
  ack_need : Q;
  ack_priority : Q;
  ack_message : string
}.

Section WithFormattingMore.
Variable toFixed2 : Q -> string.

(** The agent after the handler and the whisper that ends it; the calls
    made before it, by the evaluation, are in [sent] as usual. *)
Definition handleNeedRegistration (now : Z) (msg : NeedRegistration) (st : Agent)
    : Agent * NeedAcknowledged :=
  let causeId := reg_causeId msg in
  let requested := match reg_priority msg with Some p => p | None => 0.5 end in
  let cause :=
    match get causeId (causes st) with
    | Some c => c
    | None =>
        mkCause causeId
          match reg_name msg with
          | Some n => if String.eqb n "" then causeId else n
          | None => causeId
          end
          0 0.5 0 0 0
    end in
  let cause :=
    mkCause (cause_id cause) (name cause) (reg_need msg)
            (js_max 0 (js_min 1 requested)) (received cause)
            (totalReceived cause) now in
  let st := with_causes (set causeId cause (causes st)) st in
  let st := evaluateAllocations toFixed2 now st in
  let cause := match get causeId (causes st) with Some c => c | None => cause end in
  (st,
   mkNeedAck causeId (need cause) (priority cause)
     "Your funding need has been registered and will be matched with available resources").

(** The agent after the handler and the notice it broadcasts, if any; an
    update for an unknown donor is dropped. *)
Definition handlePreferenceUpdate (now : Z) (msg : PreferenceUpdate) (st : Agent)
    : Agent * option PreferenceChange :=
  let donorId := upd_donorId msg in
  match get donorId (donors st) with
  | None => (st, None)
  | Some _ =>
      let st :=
        with_donors
          (modify donorId (touchPreferences now (upd_preferences msg)) (donors st))
          st in
      let st := evaluateAllocations toFixed2 now st in
      (st,
       Some
         (mkChange donorId (upd_preferences msg)
            match upd_reason msg with
            | Some r => if String.eqb r "" then "Preference update" else r
            | None => "Preference update"
            end
            now))
  end.
End WithFormattingMore.

End Rda.

(** * The bundled messaging bus (createMockSDK) *)

(** A handler is a closure in the source; here it is a value of an
    arbitrary type [H], and emitting an event yields the handlers the bus
    calls, in the order it calls them. *)
Module MockSDK.
Section Bus.
Variable H : Type.

(** What [eventBus.on] stores: a handler itself, or the wrapper
    [subscribe] builds around it, which passes a message on only when its
    topic matches the pattern. *)
Inductive Listener :=
| direct (handler : H)
| matching (pattern : string) (handler : H).

Definition EventBus := Dict (list Listener).

(** [eventBus.on(event, handler)]. *)
Definition on (event : string) (l : Listener) (bus : EventBus) : EventBus :=
  let bus :=
    match get event bus with
    | Some _ => bus
    | None => set event [] bus
    end in
  modify event (fun listeners => listeners ++ [l]) bus.

(** The handlers one listener calls for a message with the given topic. *)
Definition deliver (topic : string) (l : Listener) : list H :=
  match l with
  | direct handler => [handler]
  | matching pattern handler =>
      if String.eqb pattern "*" || includes pattern topic then [handler] else []
  end.

(** [eventBus.emit(event, message)]. *)
Definition emit (event topic : string) (bus : EventBus) : list H :=
  let handlers := match get event bus with Some ls => ls | None => [] end in
  flat_map (deliver topic) handlers.

(** [agent.subscribe(pattern, handler)]. *)
Definition subscribe (pattern : string) (handler : H) (bus : EventBus)
    : EventBus :=
  let bus := on ("message_" ++ pattern) (direct handler) bus in
  on "agent_message" (matching pattern handler) bus.

(** [agent.broadcast(message)]: the handlers called, in order. *)
Definition broadcast (topic : string) (bus : EventBus) : list H :=
  emit "agent_message" topic bus ++ emit ("message_" ++ topic) topic bus.
End Bus.
End MockSDK.

(** * The thermal justice reducer (src/resource_distributor_agent.tsx) *)

Module Thermal.

Inductive Vulnerability := Low | Medium | High | Critical.

Record District := mkDistrict {
  district_id : Z;
  district_name : string;
  income : string;
  vulnerability : Vulnerability;
  temp : Q;
  originalTemp : Q;
  population : Z;
  elderly : Z;
  cooling : Q
}.

Definition initialDistricts : list District :=
  [mkDistrict 1 "Riverside Estates" "High" Low 32 32 2500 15 0;
   mkDistrict 2 "Central Heights" "Medium" Medium 35 35 4200 25 0;
   mkDistrict 3 "Southside Community" "Low" High 38 38 6800 45 0;
   mkDistrict 4 "Industrial Quarter" "Mixed" Critical 41 41 3100 35 0].

(** [action.data] of an [AGENT_COLLABORATION] action; an absent field is
    [None]. *)
Record Enhancement := mkEnhancement {
  coolingBonus : option Q
}.

Record Collaboration := mkCollaboration {
  districtId : Z;
  enhancement : option Enhancement
}.

Inductive Action :=
| APPLY_COOLING (step : Q)
| RESET
| AGENT_COLLABORATION (data : Collaboration).

(** [['Critical', 'High'].includes(d.vulnerability)]. *)
Definition vulnerable (d : District) : bool :=
  match vulnerability d with
  | Critical | High => true
  | _ => false
  end.

(** The [delta] an [APPLY_COOLING] action computes for a district. *)
Definition delta (step : Q) (d : District) : Q :=
  let delta := 0 in
  let delta :=
    if Qle_bool 3 step then
      delta + match vulnerability d with
              | Critical => 8
              | High => 6
              | Medium => 4
              | Low => 2
              end
    else delta in
  if Qle_bool 4 step && vulnerable d then delta + 4 else delta.

Definition applyCooling (step : Q) (d : District) : District :=
  let cooled := js_max 25 (originalTemp d - delta step d) in
  mkDistrict (district_id d) (district_name d) (income d) (vulnerability d)
    cooled (originalTemp d) (population d) (elderly d) (originalTemp d - cooled).

Definition collaborate (data : Collaboration) (d : District) : District :=
  match enhancement data with
  | Some e =>
      if (districtId data =? district_id d)%Z then
        let additionalCooling :=
          match coolingBonus e with
          | Some bonus => if truthy bonus then bonus else 0
          | None => 0
          end in
        let newTemp := js_max 25 (temp d - additionalCooling) in
        mkDistrict (district_id d) (district_name d) (income d) (vulnerability d)
          newTemp (originalTemp d) (population d) (elderly d)
          (cooling d + (temp d - newTemp))
      else d
  | None => d
  end.

Definition reset (d : District) : District :=
  mkDistrict (district_id d) (district_name d) (income d) (vulnerability d)
    (originalTemp d) (originalTemp d) (population d) (elderly d) 0.

Definition districtReducer (state : list District) (action : Action)
    : list District :=
  match action with
  | APPLY_COOLING step => map (applyCooling step) state
  | AGENT_COLLABORATION data => map (collaborate data) state
  | RESET => map reset initialDistricts
  end.

(** [districts.reduce((sum, d) => sum + d.cooling, 0)]. *)
Definition totalCooling (districts : list District) : Q :=
  fold_left (fun sum d => sum + cooling d) districts 0.

(** [Math.round]: the nearest integer, a half going up. *)
Definition round (x : Q) : Z := Qround.Qfloor (x + (1 # 2)).

Definition equityScore (districts : list District) : Z :=
  let totalCooling := totalCooling districts in
  if negb (truthy totalCooling) then 0%Z else
  let vuln :=
    fold_left (fun s d => s + cooling d) (filter vulnerable districts) 0 in
  round (vuln / totalCooling * 100).

End Thermal.

(** * The arithmetic of the ledger in binary64 *)

(** The same formulas as above, evaluated the way the program evaluates
    them: every [number] is an IEEE 754 binary64 value and every
    operation rounds to nearest, ties to even.  Only what the amounts go
    through is repeated here: the proposal ([calculateAllocations]) and
    the balance updates of a commit ([executeAllocations]), with the
    fields of the profiles they read and write. *)

Module Binary64.
Import PrimFloat.
#[local] Set Warnings "-inexact-float".
Local Open Scope float_scope.

(** Truthiness of a number: every number but [0], [-0] and [NaN]. *)
Definition truthy (x : float) : bool := negb (is_zero x || is_nan x).

(** [Math.min(x, y)]: [NaN] if either is; of two zeros the negative one. *)
Definition js_min (x y : float) : float :=
  if is_nan x || is_nan y then nan
  else if x <? y then x
  else if y <? x then y
  else if get_sign x then x else y.

Record DonorProfile := mkDonor {
  donor_id : string;
  wallet : float;
  preferences : Dict float;
  allocationBudget : float
}.

Record CauseProfile := mkCause {
  cause_id : string;
  need : float;
  priority : float;
  received : float;
  totalReceived : float
}.

Definition Matrix := Dict (Dict float).

(** [donor.preferences[cause.id] || 0]. *)
Definition preferenceWeight (donor : DonorProfile) (cause : CauseProfile)
    : float :=
  match get (cause_id cause) (preferences donor) with
  | Some w => if truthy w then w else 0
  | None => 0
  end.

(** [donor.preferences[cause.id] && donor.preferences[cause.id] > 0]. *)
Definition relevant (donor : DonorProfile) (cause : CauseProfile) : bool :=
  match get (cause_id cause) (preferences donor) with
  | Some w => truthy w && (0 <? w)
  | None => false
  end.

Definition weightedScore (donor : DonorProfile) (cause : CauseProfile) : float :=
  let preferenceWeight := preferenceWeight donor cause in
  let priorityWeight := priority cause in
  let needWeight := js_min (need cause) (allocationBudget donor) in
  preferenceWeight * priorityWeight * needWeight.

(** The body of [relevantCauses.forEach] in [calculateAllocations]. *)
Definition allocateCause (donor : DonorProfile) (totalWeightedPriority : float)
    (row : Dict float) (cause : CauseProfile) : Dict float :=
  let proportion := weightedScore donor cause / totalWeightedPriority in
  let allocation := allocationBudget donor * proportion in
  let allocation := js_min allocation (need cause - received cause) in
  if 0 <? allocation then set (cause_id cause) allocation row else row.

Definition donorAllocations (causes : Dict CauseProfile) (donor : DonorProfile)
    : Dict float :=
  let relevantCauses := filter (relevant donor) (values causes) in
  if (List.length relevantCauses =? 0)%nat then [] else
  let totalWeightedPriority :=
    fold_left (fun sum cause => sum + weightedScore donor cause) relevantCauses 0 in
  if totalWeightedPriority <=? 0 then [] else
  fold_left (allocateCause donor totalWeightedPriority) relevantCauses [].

Definition calculateAllocations (donors : Dict DonorProfile)
    (causes : Dict CauseProfile) : Matrix :=
  fold_left
    (fun allocations entry =>
       let '(donorId, donor) := entry in
       if allocationBudget donor <=? 0 then allocations
       else set donorId (donorAllocations causes donor) allocations)
    donors [].

(** [donor.wallet -= amount; donor.allocationBudget -= amount]. *)
Definition debit (amount : float) (donor : DonorProfile) : DonorProfile :=
  mkDonor (donor_id donor) (wallet donor - amount) (preferences donor)
          (allocationBudget donor - amount).

(** [cause.received += amount; cause.totalReceived += amount]. *)
Definition credit (amount : float) (cause : CauseProfile) : CauseProfile :=
  mkCause (cause_id cause) (need cause) (priority cause)
          (received cause + amount) (totalReceived cause + amount).

Definition Ledger := (Dict DonorProfile * Dict CauseProfile)%type.

(** The two nested loops of [executeAllocations] on the two maps. *)
Definition transferPair (donorId : string) (led : Ledger)
    (entry : string * float) : Ledger :=
  let '(causeId, amount) := entry in
  match get donorId (fst led), get causeId (snd led) with
  | Some _, Some _ =>
      if amount <=? 0 then led
      else (modify donorId (debit amount) (fst led),
            modify causeId (credit amount) (snd led))
  | _, _ => led
  end.

Definition transferRow (led : Ledger) (entry : string * Dict float) : Ledger :=
  let '(donorId, donorAllocations) := entry in
  match get donorId (fst led) with
  | None => led
  | Some _ => fold_left (transferPair donorId) donorAllocations led
  end.

Definition transferLedger (allocations : Matrix) (led : Ledger) : Ledger :=
  fold_left transferRow allocations led.

(** The row [allocations[donorId]]; no cells when there is none. *)
Definition rowOf (m : Matrix) (donorId : string) : Dict float :=
  match get donorId m with
  | Some row => row
  | None => []
  end.

(** [Object.values(row).reduce((s, amount) => s + amount, 0)]. *)
Definition rowSum (row : Dict float) : float :=
  fold_left (fun s amount => s + amount) (values row) 0.

(** The rational a finite binary64 value stands for. *)
Definition exact (x : float) : Q :=
  match FloatOps.Prim2SF x with
  | SpecFloat.S754_finite negative m e =>
      ((if negative then - inject_Z (Z.pos m) else inject_Z (Z.pos m))
       * (if (0 <=? e)%Z then inject_Z (2 ^ e) else / inject_Z (2 ^ (- e))))%Q
  | _ => 0%Q
  end.

(** A donor who offers 20% of a wallet of 150, as the first donor of the
    demo does, and weights two causes that need 45 each by 0.5 and 0.9. *)
Definition alice : DonorProfile :=
  mkDonor "alice" 150 [("water"%string, 0.5); ("food"%string, 0.9)] (150 * 0.2).

Definition aliceLedger : Ledger :=
  ([("alice"%string, alice)],
   [("water"%string, mkCause "water" 45 1 0 0);
    ("food"%string, mkCause "food" 45 1 0 0)]).



End Binary64.

(** * Statement-side definitions *)

(** Plain recursive sums, used to state what the loops of the source add up. *)
Fixpoint sumOver (A : Type) (f : A -> Q) (l : list A) : Q :=
  match l with
  | [] => 0
  | x :: rest => f x + sumOver f rest
  end.

(** The amount a matrix proposes for a cell, an absent cell counting for 0. *)
Definition proposedAmount (causeId : string) (row : Dict Q) : Q :=
  match get causeId row with
  | Some a => a
  | None => 0
  end.

(** "Total need across all causes". *)
Definition spec_totalNeed (causes : Dict CauseProfile) : Q :=
  sumOver need (values causes).

(** "Sum over causes of min(sum of proposed allocations, need)". *)
Definition spec_totalMet (causes : Dict CauseProfile) (allocations : Matrix) : Q :=
  sumOver
    (fun cause =>
       Qmin (sumOver (proposedAmount (cause_id cause)) (values allocations))
            (need cause))
    (values causes).

(** "Ratio of total need met to total need; 1.0 when total need is zero". *)
Definition spec_confidence (causes : Dict CauseProfile) (allocations : Matrix) : Q :=
  if Qeq_bool (spec_totalNeed causes) 0 then 1
  else spec_totalMet causes allocations / spec_totalNeed causes.

(** The total a donor's row proposes, over all the causes it lists. *)
Definition rowTotal (row : Dict Q) : Q := sumOver snd row.

(** A row without negative amounts. *)
Definition nonnegRow (row : Dict Q) : Prop :=
  forall kv, In kv row -> 0 <= snd kv.

(** Whether an id is among the keys of a map. *)
Definition has (ids : list string) (k : string) : bool :=
  existsb (String.eqb k) ids.

(** A batch without its stale pairs: the rows of donors that are not in
    the donor map and the cells of causes that are not in the cause map
    are left out; everything else keeps its place. *)
Definition dropStale (donorIds causeIds : list string) (allocations : Matrix)
    : Matrix :=
  map (fun row => (fst row, filter (fun e => has causeIds (fst e)) (snd row)))
      (filter (fun row => has donorIds (fst row)) allocations).

(** What one row credits to the cause [causeId]: every positive amount
    the row lists for it. *)
Definition creditedByRow (causeId : string) (r : Dict Q) : Q :=
  sumOver
    (fun e => if String.eqb (fst e) causeId && Qltb 0 (snd e) then snd e else 0) r.

(** What a batch credits to the cause [causeId]: what the rows of the
    donors that are in the donor map credit to it. *)
Definition creditedTo (donorIds : list string) (causeId : string)
    (allocations : Matrix) : Q :=
  sumOver
    (fun row => if has donorIds (fst row) then creditedByRow causeId (snd row) else 0)
    allocations.

(** Unique ids, each cause stored under its own id: what a [Map] filled
    by the handlers looks like. *)
Definition wellKeyed (led : Ledger) : Prop :=
  NoDup (keys (fst led)) /\
  NoDup (keys (snd led)) /\
  (forall k d, In (k, d) (fst led) -> donor_id d = k) /\
  (forall k c, In (k, c) (snd led) -> cause_id c = k).

(** What a commit leaves alone in a donor: everything but the wallet and
    the budget, and of these two, with exact arithmetic, their difference. *)
Definition donorFrame (d d' : DonorProfile) : Prop :=
  donor_id d' = donor_id d /\
  preferences d' = preferences d /\
  trustLevel d' = trustLevel d /\
  lastActivity d' = lastActivity d /\
  wallet d' - allocationBudget d' == wallet d - allocationBudget d.

(** What a commit leaves alone in a cause. *)
Definition causeFrame (c c' : CauseProfile) : Prop :=
  cause_id c' = cause_id c /\
  name c' = name c /\
  need c' = need c /\
  priority c' = priority c.

(** Two maps with the same keys in the same order whose entries are
    related pairwise under every key. *)
Definition related (V : Type) (R : V -> V -> Prop) (m m' : Dict V) : Prop :=
  keys m' = keys m /\
  forall k v, get k m = Some v -> exists v', get k m' = Some v' /\ R v v'.

(** What a commit leaves alone in the two maps of the ledger. *)
Definition ledgerFrame (led led' : Ledger) : Prop :=
  related donorFrame (fst led) (fst led') /\ related causeFrame (snd led) (snd led').

(** The cap as the testable properties word it: no cause has received
    more than it needs. *)
Definition cappedAtCommit (causes : Dict CauseProfile) : Prop :=
  forall k c, get k causes = Some c -> received c <= need c.

(** "The total proposed allocation volume". *)
Definition spec_totalVolume (allocations : Matrix) : Q :=
  sumOver (fun row => rowTotal (snd row)) allocations.

(** "Any single (donor, cause) proposed amount exceeds 30% of the total
    proposed allocation volume". *)
Definition concentrated (allocations : Matrix) : Prop :=
  exists donorId row causeId a,
    In (donorId, row) allocations /\ In (causeId, a) row
    /\ spec_totalVolume allocations * 0.3 < a.

(** The blend as the council protocol words it.  An insight's
    recommended value for a cell, [None] when its matrix omits the cell. *)
Definition spec_recommended (donorId causeId : string) (insight : Insight)
    : option Q :=
  match get donorId (recommendations insight) with
  | Some row => get causeId row
  | None => None
  end.

(** "Collect every insight's recommended value for that cell (insights
    that omit a cell are treated as abstaining, not as recommending
    zero)". *)
Fixpoint spec_collect (donorId causeId : string) (insights : list Insight)
    : list Q :=
  match insights with
  | [] => []
  | insight :: rest =>
      match spec_recommended donorId causeId insight with
      | Some r => r :: spec_collect donorId causeId rest
      | None => spec_collect donorId causeId rest
      end
  end.

(** "If at least one recommendation exists, final = 0.7 x mean + 0.3 x
    original; if none exist, final = original". *)
Definition spec_synthesizeCell (insights : list Insight)
    (donorId causeId : string) (original : Q) : Q :=
  match spec_collect donorId causeId insights with
  | [] => original
  | recs =>
      0.7 * (sumOver (fun r => r) recs / inject_Z (Z.of_nat (List.length recs)))
      + 0.3 * original
  end.

(** A matrix as a plain object holds it: no key twice, at either level. *)
Definition wellFormedMatrix (m : Matrix) : Prop :=
  NoDup (keys m) /\ forall d row, In (d, row) m -> NoDup (keys row).




(** What the commit loop of the demo agent does to the audit trail
    between two of its states: the maps keep their keys, and some events
    [new] are appended to the local list and to the history alike, each
    with a positive amount and the ids of a donor and a cause the ledger
    holds, and each accompanied by two calls on the transport. *)
Definition DemoAudit (s s' : Demo.Loop) : Prop :=
  keys (Demo.donors (fst s')) = keys (Demo.donors (fst s))
  /\ keys (Demo.causes (fst s')) = keys (Demo.causes (fst s))
  /\ exists new,
      snd s' = snd s ++ new
      /\ Demo.allocationHistory (fst s') = Demo.allocationHistory (fst s) ++ new
      /\ List.length (Demo.sent (fst s'))
         = (List.length (Demo.sent (fst s)) + 2 * List.length new)%nat
      /\ Forall
           (fun e =>
              0 < Demo.amount e
              /\ In (Demo.donorId e) (keys (Demo.donors (fst s)))
              /\ In (Demo.causeId e) (keys (Demo.causes (fst s))))
           new.




(** Every priority lies in [0, 1]. *)
Definition prioritiesClamped (causes : Dict CauseProfile) : Prop :=
  forall k c, get k causes = Some c -> 0 <= priority c /\ priority c <= 1.

(** The amounts of a matrix, row after row. *)
Definition cells (m : Matrix) : list Q :=
  flat_map (fun row => values (snd row)) m.

(** The polynomial a 31-multiplier string hash evaluates, over the
    integers: the code units are the coefficients, the first one of the
    highest degree. *)
Definition polynomialHash (data : list Z) : Z :=
  fold_left (fun hash charCode => 31 * hash + charCode)%Z data 0%Z.




(** A district's books are in order: what it has been cooled by is the
    gap between its original and its present temperature, and it is not
    colder than the floor of 25 degrees. *)
Definition coolingAccounted (d : Thermal.District) : Prop :=
  Thermal.temp d + Thermal.cooling d == Thermal.originalTemp d
  /\ 25 <= Thermal.temp d.

(** The order of the vulnerability classes, as a number. *)
Definition vulnerabilityRank (v : Thermal.Vulnerability) : nat :=
  match v with
  | Thermal.Low => 0
  | Thermal.Medium => 1
  | Thermal.High => 2
  | Thermal.Critical => 3
  end.

(** No cause is named like a member that objects inherit. *)
Definition plainCauses (causes : Dict CauseProfile) : Prop :=
  forall c, In c (values causes) -> inherited (cause_id c) = false.






(** ** The audit trail as a record of the ledger *)

(** What an event records of a transfer: the donor, the cause, the amount. *)
Definition Transfer := (string * string * Q)%type.

Definition demoTransfer (e : Demo.AllocationEvent) : Transfer :=
  (Demo.donorId e, Demo.causeId e, Demo.amount e).

Definition rdaTransfer (e : Rda.AllocationEvent) : Transfer :=
  (Rda.donorId e, Rda.causeId e, Rda.amount e).



(** The cells of a matrix as transfers, row by row, in the order of
    iteration. *)
Definition cellsOf (m : Matrix) : list Transfer :=
  flat_map (fun row => map (fun cell => (fst row, fst cell, snd cell)) (snd row)) m.









(** * Concrete ledgers *)

(** The ledger of scenario A of the design notes: one cause needing 45
    and a matrix proposing 30 for it. *)
Definition scenarioA_causes : Dict CauseProfile :=
  [("climate"%string, mkCause "climate" "Climate" 45 0.9 0 0 0)].

Definition scenarioA_matrix : Matrix :=
  [("alice"%string, [("climate"%string, 30)])].

(** A ledger with two donors and two causes, each donor splitting a
    budget of 20 evenly between the causes, each cause needing 15. *)
Definition evenPreferences : Dict Q := [("water"%string, 1); ("food"%string, 1)].

Definition twoDonors : Dict DonorProfile :=
  [("ann"%string, mkDonor "ann" 100 evenPreferences 20 3 75);
   ("ben"%string, mkDonor "ben" 100 evenPreferences 20 4 75)].

Definition twoCauses : Dict CauseProfile :=
  [("water"%string, mkCause "water" "water" 15 1 0 0 1);
   ("food"%string, mkCause "food" "food" 15 1 0 0 2)].

Definition twoByTwo : Demo.Agent :=
  Demo.mkAgent twoDonors twoCauses [] false false [] [].

(** A batch naming a donor and a cause the ledger does not hold. *)
Definition staleBatch : Matrix :=
  [("ghost"%string, [("water"%string, 5)]);
   ("ann"%string, [("gone"%string, 5); ("food"%string, 5)])].

(** A run of the demo agent: two needs are registered, then ann offers
    capacity (her proposal is concentrated, a council is convened). *)
Definition afterAnn : Demo.Agent :=
  Demo.handleCapacityOffer 3 (mkOffer "ann" 100 (Some 0.2) (Some evenPreferences))
    (Demo.handleNeedRegistration 2 (Demo.mkNeed "food" None 15 (Some 1))
       (Demo.handleNeedRegistration 1 (Demo.mkNeed "water" None 15 (Some 1))
          Demo.init)).

(** The state in which [handleCapacityOffer], handling ben's offer after
    that run, calls [evaluateAllocations]. *)
Definition benOffered : Demo.Agent :=
  Demo.with_donors
    (set "ben" (mkDonor "ben" 100 evenPreferences (100 * 0.2) 4 75)
       (Demo.donors afterAnn))
    afterAnn.

(** A council of three on the proposal "bob gives 10 to education": one
    advisor recommends nothing at all for the cell (the value 0), the two
    others recommend 20. *)
Definition bobProposal : Matrix := [("bob"%string, [("education"%string, 10)])].

Definition adviceOf (who : string) (r : Q) : Insight :=
  mkInsight who "" [("bob"%string, [("education"%string, r)])] 0.85.

Definition bobCouncil : list Insight :=
  [adviceOf "Ethics-Agent" 0; adviceOf "Impact-Agent" 20;
   adviceOf "Community-Agent" 20].


(** A ledger with one donor and one cause. *)
Definition soloDonors : Dict DonorProfile :=
  [("ann"%string, mkDonor "ann" 100 [("food"%string, 1)] 20 3 75)].

Definition soloCauses : Dict CauseProfile :=
  [("food"%string, mkCause "food" "food" 30 1 0 0 2)].

(** An agent of the full engine with one donor last seen at time 0 and two
    events on record, one from time 0 and one from day 100. *)
Definition agedAgent : Rda.Agent :=
  Rda.with_history
    [Rda.mkEvent 0 "ann" "food" 10 (num 1) "first";
     Rda.mkEvent 8640000000 "ann" "food" 20 (num 1) "second"]
    (Rda.with_donors [("ann"%string, mkDonor "ann" 1000 [] 100 0 100)] Rda.init).

(** The two-by-two ledger with a third cause, one that no donor supports
    and that is registered under the id "constructor". *)
Definition shadowedCauses : Dict CauseProfile :=
  twoCauses
  ++ [("constructor"%string, mkCause "constructor" "constructor" 1000 1 0 0 3)].

Definition shadowed : Demo.Agent :=
  Demo.mkAgent twoDonors shadowedCauses [] false false [] [].



(** * Properties *)

(** ** Numbers *)

Lemma Qltb_true (x y : Q) : Qltb x y = true <-> x < y.
Proof.
  unfold Qltb. rewrite negb_true_iff. split; intro H.
  - apply Qnot_le_lt. intro Hle. apply Qle_bool_iff in Hle. congruence.
  - destruct (Qle_bool y x) eqn:E; [|reflexivity].
    apply Qle_bool_iff in E. lra.
Qed.

Lemma Qltb_false (x y : Q) : Qltb x y = false <-> y <= x.
Proof.
  unfold Qltb. rewrite negb_false_iff. apply Qle_bool_iff.
Qed.

Lemma Qle_bool_false (x y : Q) : Qle_bool x y = false <-> y < x.
Proof.
  split; intro H.
  - apply Qnot_le_lt. intro Hle. apply Qle_bool_iff in Hle. congruence.
  - destruct (Qle_bool x y) eqn:E; [|reflexivity].
    apply Qle_bool_iff in E. lra.
Qed.

Lemma js_min_le_l (x y : Q) : js_min x y <= x.
Proof.
  unfold js_min. destruct (Qle_bool x y) eqn:E; [lra|].
  apply Qle_bool_false in E. lra.
Qed.

Lemma js_min_le_r (x y : Q) : js_min x y <= y.
Proof.
  unfold js_min. destruct (Qle_bool x y) eqn:E; [|lra].
  apply Qle_bool_iff in E. lra.
Qed.

Lemma js_min_glb (x y z : Q) : z <= x -> z <= y -> z <= js_min x y.
Proof. unfold js_min. destruct (Qle_bool x y); auto. Qed.

Lemma js_min_Qmin (x y : Q) : js_min x y == Qmin x y.
Proof.
  unfold js_min. destruct (Qle_bool x y) eqn:E.
  - apply Qle_bool_iff in E. symmetry. apply Q.min_l. exact E.
  - apply Qle_bool_false in E. symmetry. apply Q.min_r. lra.
Qed.

Lemma truthy_false (x : Q) : truthy x = false -> x == 0.
Proof.
  unfold truthy. rewrite negb_false_iff. apply Qeq_bool_iff.
Qed.

Lemma truthy_true (x : Q) : truthy x = true <-> ~ x == 0.
Proof.
  unfold truthy. rewrite negb_true_iff. split; intro H.
  - intro E. apply Qeq_bool_iff in E. congruence.
  - destruct (Qeq_bool x 0) eqn:E; [|reflexivity].
    apply Qeq_bool_iff in E. contradiction.
Qed.

(** A loop [sum += f x] adds [sumOver f] to its start value. *)
Lemma fold_sum (A : Type) (f : A -> Q) (l : list A) (a : Q) :
  fold_left (fun sum x => sum + f x) l a == a + sumOver f l.
Proof.
  revert a. induction l as [|x l IH]; intro a; simpl.
  - lra.
  - rewrite IH. lra.
Qed.

Lemma sumQ_sumOver (l : list Q) : sumQ l == sumOver (fun x => x) l.
Proof. unfold sumQ. rewrite (fold_sum (fun x => x) l 0). lra. Qed.

Lemma sumOver_nonneg (A : Type) (f : A -> Q) (l : list A) :
  (forall x, In x l -> 0 <= f x) -> 0 <= sumOver f l.
Proof.
  induction l as [|x l IH]; intro H; simpl; [lra|].
  assert (0 <= f x) by (apply H; left; reflexivity).
  assert (0 <= sumOver f l) by (apply IH; intros; apply H; right; assumption).
  lra.
Qed.

Lemma sumOver_le (A : Type) (f g : A -> Q) (l : list A) :
  (forall x, In x l -> f x <= g x) -> sumOver f l <= sumOver g l.
Proof.
  induction l as [|x l IH]; intro H; simpl; [lra|].
  assert (f x <= g x) by (apply H; left; reflexivity).
  assert (sumOver f l <= sumOver g l) by (apply IH; intros; apply H; right; assumption).
  lra.
Qed.

Lemma sumOver_ext (A : Type) (f g : A -> Q) (l : list A) :
  (forall x, In x l -> f x == g x) -> sumOver f l == sumOver g l.
Proof.
  induction l as [|x l IH]; intro H; simpl; [lra|].
  rewrite (H x) by (left; reflexivity).
  rewrite IH by (intros; apply H; right; assumption). lra.
Qed.

(** ** Dictionaries *)

Section DictFacts.
Variable V : Type.
Implicit Types (m : Dict V) (k : string) (v : V).

Lemma get_In k m v : get k m = Some v -> In (k, v) m.
Proof.
  induction m as [|[k' v'] m IH]; simpl; [discriminate|].
  destruct (String.eqb k' k) eqn:E.
  - apply String.eqb_eq in E. intro H. inversion H. subst. left. reflexivity.
  - intro H. right. apply IH. exact H.
Qed.

Lemma get_In_values k m v : get k m = Some v -> In v (values m).
Proof.
  intro H. apply get_In in H. unfold values.
  change v with (snd (k, v)). apply in_map. exact H.
Qed.

Lemma get_None_keys k m : get k m = None <-> ~ In k (keys m).
Proof.
  induction m as [|[k' v'] m IH]; simpl.
  - split; auto.
  - destruct (String.eqb k' k) eqn:E.
    + apply String.eqb_eq in E. split; [discriminate|]. intro H. exfalso. auto.
    + apply String.eqb_neq in E. rewrite IH. split.
      * intros H [H1|H1]; auto.
      * intros H H1. apply H. right. exact H1.
Qed.

Lemma get_Some_keys k m : (exists v, get k m = Some v) <-> In k (keys m).
Proof.
  split.
  - intros [v H]. destruct (in_dec string_dec k (keys m)) as [Hin|Hout]; [exact Hin|].
    apply get_None_keys in Hout. congruence.
  - intro H. destruct (get k m) as [v|] eqn:E; [exists v; reflexivity|].
    apply get_None_keys in E. contradiction.
Qed.

(** With unique keys every listed entry is the one [get] finds. *)
Lemma In_get k m v : NoDup (keys m) -> In (k, v) m -> get k m = Some v.
Proof.
  induction m as [|[k' v'] m IH]; simpl; [contradiction|].
  intros Hnd [H|H].
  - inversion H. subst. rewrite String.eqb_refl. reflexivity.
  - inversion Hnd as [|? ? Hout Hnd']. subst.
    destruct (String.eqb k' k) eqn:E.
    + apply String.eqb_eq in E. subst. exfalso. apply Hout.
      change k with (fst (k, v)). apply in_map. exact H.
    + apply IH; assumption.
Qed.

Lemma get_set_eq k v m : get k (set k v m) = Some v.
Proof.
  induction m as [|[k' v'] m IH]; simpl.
  - rewrite String.eqb_refl. reflexivity.
  - destruct (String.eqb k' k) eqn:E; simpl; rewrite E; [reflexivity|exact IH].
Qed.

Lemma get_set_neq k k' v m : k' <> k -> get k (set k' v m) = get k m.
Proof.
  intro Hne. induction m as [|[k0 v0] m IH]; simpl.
  - apply String.eqb_neq in Hne. rewrite Hne. reflexivity.
  - destruct (String.eqb k0 k') eqn:E; simpl.
    + apply String.eqb_eq in E. subst.
      apply String.eqb_neq in Hne. rewrite Hne. reflexivity.
    + destruct (String.eqb k0 k); [reflexivity|exact IH].
Qed.

Lemma In_set k v k' v' m :
  In (k, v) (set k' v' m) -> (k = k' /\ v = v') \/ In (k, v) m.
Proof.
  induction m as [|[k0 v0] m IH]; simpl.
  - intros [H|[]]. inversion H. left. split; reflexivity.
  - destruct (String.eqb k0 k') eqn:E; simpl.
    + apply String.eqb_eq in E. subst. intros [H|H].
      * inversion H. left. split; reflexivity.
      * right. right. exact H.
    + intros [H|H].
      * right. left. exact H.
      * destruct (IH H) as [H1|H1]; [left; exact H1|right; right; exact H1].
Qed.

Lemma keys_set_In k v m : In k (keys m) -> keys (set k v m) = keys m.
Proof.
  induction m as [|[k0 v0] m IH]; simpl; [contradiction|].
  intro H. destruct (String.eqb k0 k) eqn:E; simpl; [reflexivity|].
  apply String.eqb_neq in E. f_equal. apply IH.
  destruct H as [H|H]; [contradiction|exact H].
Qed.

Lemma keys_set_fresh k v m : ~ In k (keys m) -> keys (set k v m) = keys m ++ [k].
Proof.
  induction m as [|[k0 v0] m IH]; simpl; [reflexivity|].
  intro H. destruct (String.eqb k0 k) eqn:E; simpl.
  - apply String.eqb_eq in E. exfalso. apply H. left. exact E.
  - f_equal. apply IH. intro H1. apply H. right. exact H1.
Qed.

Lemma NoDup_keys_set k v m : NoDup (keys m) -> NoDup (keys (set k v m)).
Proof.
  intro Hnd. destruct (in_dec string_dec k (keys m)) as [Hin|Hout].
  - rewrite keys_set_In; assumption.
  - rewrite keys_set_fresh by assumption.
    apply NoDup_app; [exact Hnd | repeat constructor; intros [] | ].
    intros x Hx [Hk|[]]. subst. contradiction.
Qed.

Lemma keys_modify k (f : V -> V) m : keys (modify k f m) = keys m.
Proof.
  induction m as [|[k0 v0] m IH]; simpl; [reflexivity|].
  destruct (String.eqb k0 k); simpl; [reflexivity|]. f_equal. exact IH.
Qed.

Lemma get_modify_eq k (f : V -> V) m :
  get k (modify k f m) = option_map f (get k m).
Proof.
  induction m as [|[k0 v0] m IH]; simpl; [reflexivity|].
  destruct (String.eqb k0 k) eqn:E; simpl; rewrite E; [reflexivity|exact IH].
Qed.

Lemma get_modify_neq k k' (f : V -> V) m :
  k' <> k -> get k (modify k' f m) = get k m.
Proof.
  intro Hne. induction m as [|[k0 v0] m IH]; simpl; [reflexivity|].
  destruct (String.eqb k0 k') eqn:E; simpl.
  - apply String.eqb_eq in E. subst.
    apply String.eqb_neq in Hne. rewrite Hne. reflexivity.
  - destruct (String.eqb k0 k); [reflexivity|exact IH].
Qed.

Lemma get_modify k k' (f : V -> V) m :
  get k (modify k' f m) =
  if String.eqb k' k then option_map f (get k m) else get k m.
Proof.
  destruct (String.eqb k' k) eqn:E.
  - apply String.eqb_eq in E. subst. apply get_modify_eq.
  - apply String.eqb_neq in E. apply get_modify_neq. exact E.
Qed.

Lemma get_map_values k (f : V -> V) m :
  get k (map (fun kv => (fst kv, f (snd kv))) m) = option_map f (get k m).
Proof.
  induction m as [|[k0 v0] m IH]; simpl; [reflexivity|].
  destruct (String.eqb k0 k); [reflexivity|exact IH].
Qed.
End DictFacts.

(** ** calculateConfidence *)

Lemma cellOrZero_plain (k : string) (row : Dict Q) :
  inherited k = false ->
  exists a, cellOrZero k row = Some a /\ a == proposedAmount k row.
Proof.
  intro Hk. unfold cellOrZero, proposedAmount. rewrite Hk.
  destruct (get k row) as [a|]; [|exists 0; split; reflexivity].
  exists (if truthy a then a else 0). split; [reflexivity|].
  destruct (truthy a) eqn:E; [reflexivity|].
  apply truthy_false in E. symmetry. exact E.
Qed.

Lemma causeReceived_plain (allocations : Matrix) (cause : CauseProfile) :
  inherited (cause_id cause) = false ->
  exists r,
    causeReceived allocations cause = Some r
    /\ r == sumOver (proposedAmount (cause_id cause)) (values allocations).
Proof.
  intro Hk. unfold causeReceived.
  assert (Hgen : forall l s,
             exists r,
               fold_left
                 (fun sum donorAllocations =>
                    match sum, cellOrZero (cause_id cause) donorAllocations with
                    | Some s, Some a => Some (s + a)
                    | _, _ => None
                    end) l (Some s) = Some r
               /\ r == s + sumOver (proposedAmount (cause_id cause)) l).
  { induction l as [|row l IH]; intro s; cbn [fold_left sumOver].
    - exists s. split; [reflexivity|lra].
    - destruct (@cellOrZero_plain (cause_id cause) row Hk) as [a [Ea Ha]]. rewrite Ea.
      destruct (IH (s + a)) as [r [Er Hr]]. exists r. split; [exact Er|].
      rewrite Hr, Ha. lra. }
  destruct (Hgen (values allocations) 0) as [r [Er Hr]].
  exists r. split; [exact Er|]. rewrite Hr. lra.
Qed.

(** The total need is a number whatever the matrix holds. *)
Lemma confidence_loop_need (allocations : Matrix) (l : list CauseProfile)
    (a : Q) (b : Number) :
  fst (fold_left (confidenceStep allocations) l (a, b)) == a + sumOver need l.
Proof.
  revert a b. induction l as [|c l IH]; intros a b; cbn [fold_left sumOver].
  - simpl. lra.
  - unfold confidenceStep at 2. rewrite IH. lra.
Qed.

Lemma confidence_loop_plain (allocations : Matrix) (l : list CauseProfile)
    (a b : Q) :
  (forall c, In c l -> inherited (cause_id c) = false) ->
  exists tn tm,
    fold_left (confidenceStep allocations) l (a, num b) = (tn, num tm)
    /\ tn == a + sumOver need l
    /\ tm == b + sumOver
                  (fun cause =>
                     Qmin (sumOver (proposedAmount (cause_id cause))
                             (values allocations))
                          (need cause)) l.
Proof.
  revert a b. induction l as [|c l IH]; intros a b Hplain;
    cbn [fold_left sumOver].
  - exists a, b. split; [reflexivity|]. split; lra.
  - destruct (@causeReceived_plain allocations c) as [r [Er Hr]];
      [apply Hplain; left; reflexivity|].
    unfold confidenceStep at 2. rewrite Er. cbn [addNumber].
    destruct (IH (a + need c) (b + js_min r (need c))) as [tn [tm [E [Hn Hm]]]];
      [intros c' Hc'; apply Hplain; right; exact Hc'|].
    exists tn, tm. split; [exact E|]. split; [lra|].
    rewrite Hm, js_min_Qmin, Hr. lra.
Qed.

Lemma proposedAmount_nonneg (k : string) (row : Dict Q) :
  (forall a, In a (values row) -> 0 <= a) -> 0 <= proposedAmount k row.
Proof.
  intro H. unfold proposedAmount. destruct (get k row) as [a|] eqn:E; [|lra].
  apply H. apply get_In_values with (k := k). exact E.
Qed.

(** Where no cause is named like an inherited member, the confidence is
    the number the design notes describe: over non-negative needs and
    non-negative matrix entries it lies in [[0, 1]], is the ratio of the
    need met to the total need, and is exactly 1 when the total need is
    zero. *)
Lemma calculateConfidence_plain_unit_interval
    (causes : Dict CauseProfile) (allocations : Matrix) :
  plainCauses causes ->
  (forall c, In c (values causes) -> 0 <= need c) ->
  (forall row a, In row (values allocations) -> In a (values row) -> 0 <= a) ->
  exists c,
    calculateConfidence causes allocations = num c
    /\ (0 <= c /\ c <= 1)
    /\ c == spec_confidence causes allocations
    /\ (spec_totalNeed causes == 0 -> calculateConfidence causes allocations = num 1).
Proof.
  intros Hplain Hneed Hcells.
  unfold calculateConfidence, spec_confidence.
  destruct (@confidence_loop_plain allocations (values causes) 0 0 Hplain)
    as [tn [tm [E [Hn Hm]]]].
  rewrite E. fold (spec_totalMet causes allocations) in Hm.
  fold (spec_totalNeed causes) in Hn.
  assert (Hn' : tn == spec_totalNeed causes) by lra.
  assert (Hm' : tm == spec_totalMet causes allocations) by lra.
  assert (Hmet0 : 0 <= spec_totalMet causes allocations).
  { apply sumOver_nonneg. intros c Hc. apply Q.min_glb.
    - apply sumOver_nonneg. intros row Hrow. apply proposedAmount_nonneg.
      intros a Ha. apply (Hcells row a Hrow Ha).
    - apply Hneed. exact Hc. }
  assert (Hmet1 : spec_totalMet causes allocations <= spec_totalNeed causes).
  { apply sumOver_le. intros c _. apply Q.le_min_r. }
  destruct (Qltb 0 tn) eqn:E0.
  - apply Qltb_true in E0.
    assert (Hz : Qeq_bool (spec_totalNeed causes) 0 = false).
    { destruct (Qeq_bool (spec_totalNeed causes) 0) eqn:Ez; [|reflexivity].
      apply Qeq_bool_iff in Ez. lra. }
    rewrite Hz. exists (tm / tn). cbn [divNumber].
    split; [reflexivity|]. split; [split|split].
    + apply Qle_shift_div_l; lra.
    + apply Qle_shift_div_r; lra.
    + rewrite Hn', Hm'. reflexivity.
    + intro H0. lra.
  - apply Qltb_false in E0.
    assert (H0 : 0 <= spec_totalNeed causes).
    { apply sumOver_nonneg. exact Hneed. }
    assert (Hz : Qeq_bool (spec_totalNeed causes) 0 = true).
    { apply Qeq_bool_iff. lra. }
    rewrite Hz. exists 1. split; [reflexivity|]. split; [lra|].
    split; [reflexivity|]. intros _. reflexivity.
Qed.

Lemma causeReceived_inherited (allocations : Matrix) (cause : CauseProfile)
    (row : Dict Q) :
  inherited (cause_id cause) = true ->
  In row (values allocations) ->
  get (cause_id cause) row = None ->
  causeReceived allocations cause = None.
Proof.
  intros Hk Hrow Hget. unfold causeReceived.
  assert (Hnone : forall l,
             fold_left
               (fun sum donorAllocations =>
                  match sum, cellOrZero (cause_id cause) donorAllocations with
                  | Some s, Some a => Some (s + a)
                  | _, _ => None
                  end) l None = None).
  { induction l as [|r l IH]; [reflexivity|]. exact IH. }
  assert (Hcell : cellOrZero (cause_id cause) row = None).
  { unfold cellOrZero. rewrite Hget, Hk. reflexivity. }
  generalize (Some 0).
  induction (values allocations) as [|r l IH]; intro s; [destruct Hrow|].
  cbn [fold_left]. destruct Hrow as [Hr|Hr].
  - subst r. rewrite Hcell. destruct s; apply Hnone.
  - destruct s as [s|]; [|apply Hnone].
    destruct (cellOrZero (cause_id cause) r); [apply IH; exact Hr|apply Hnone].
Qed.

Lemma confidence_loop_NaN (allocations : Matrix) (l : list CauseProfile) (a : Q) :
  snd (fold_left (confidenceStep allocations) l (a, NaN)) = NaN.
Proof.
  revert a. induction l as [|c l IH]; intro a; [reflexivity|].
  cbn [fold_left]. unfold confidenceStep at 2. cbn [addNumber]. apply IH.
Qed.

Lemma confidence_loop_poisoned (allocations : Matrix) (l : list CauseProfile)
    (cause : CauseProfile) (a : Q) (b : Number) :
  In cause l ->
  causeReceived allocations cause = None ->
  snd (fold_left (confidenceStep allocations) l (a, b)) = NaN.
Proof.
  intros Hin Hnone. revert a b.
  induction l as [|c l IH]; intros a b; [destruct Hin|].
  cbn [fold_left]. destruct Hin as [Hc|Hc].
  - subst c. unfold confidenceStep at 2. rewrite Hnone.
    replace (addNumber b NaN) with NaN by (destruct b; reflexivity).
    apply confidence_loop_NaN.
  - unfold confidenceStep at 2. apply IH. exact Hc.
Qed.

(** C5. A cause whose id names a member every object inherits turns the
    confidence into [NaN]: when the total need is positive and some row of
    the matrix has no cell of its own for such a cause, the lookup
    [donorAllocations[cause.id] || 0] yields the inherited member and
    [calculateConfidence] returns [NaN], which is not in [[0, 1]]. *)
Theorem calculateConfidence_NaN_on_inherited_name
    (causes : Dict CauseProfile) (allocations : Matrix)
    (cause : CauseProfile) (row : Dict Q) :
  In cause (values causes) ->
  inherited (cause_id cause) = true ->
  In row (values allocations) ->
  get (cause_id cause) row = None ->
  0 < spec_totalNeed causes ->
  calculateConfidence causes allocations = NaN.
Proof.
  intros Hcause Hk Hrow Hget Hneed.
  pose proof (@causeReceived_inherited allocations cause row Hk Hrow Hget)
    as Hnone.
  pose proof (@confidence_loop_poisoned allocations (values causes) cause 0
                (num 0) Hcause Hnone) as Hmet.
  pose proof (confidence_loop_need allocations (values causes) 0 (num 0)) as Hn.
  unfold calculateConfidence.
  destruct (fold_left (confidenceStep allocations) (values causes) (0, num 0))
    as [tn tm].
  cbn [fst snd] in Hmet, Hn. subst tm.
  fold (spec_totalNeed causes) in Hn.
  assert (E : Qltb 0 tn = true) by (apply Qltb_true; lra).
  rewrite E. reflexivity.
Qed.

Lemma calculateConfidence_NaN_on_inherited_name_witness :
  calculateConfidence shadowedCauses
    (calculateAllocations twoDonors shadowedCauses) = NaN.
Proof.
  apply (@calculateConfidence_NaN_on_inherited_name shadowedCauses
           (calculateAllocations twoDonors shadowedCauses)
           (mkCause "constructor" "constructor" 1000 1 0 0 3)
           (rowOf (calculateAllocations twoDonors shadowedCauses) "ann")).
  - right. right. left. reflexivity.
  - reflexivity.
  - vm_compute. left. reflexivity.
  - vm_compute. reflexivity.
  - vm_compute. reflexivity.
Defined.

(** ** calculateAllocations *)

Lemma rowTotal_set (k : string) (v : Q) (row : Dict Q) :
  nonnegRow row -> 0 <= v ->
  nonnegRow (set k v row) /\ rowTotal (set k v row) <= rowTotal row + v.
Proof.
  unfold nonnegRow, rowTotal. intros Hrow Hv.
  induction row as [|[k0 v0] row IH]; simpl.
  - split; [|lra]. intros kv [H|[]]. subst. exact Hv.
  - assert (H0 : 0 <= v0) by (apply (Hrow (k0, v0)); left; reflexivity).
    assert (Hrest : forall kv, In kv row -> 0 <= snd kv)
      by (intros; apply Hrow; right; assumption).
    destruct (String.eqb k0 k); simpl.
    + split; [|lra]. intros kv [H|H]; [subst; exact Hv|apply Hrest; exact H].
    + destruct (IH Hrest) as [IH1 IH2]. split; [|lra].
      intros kv [H|H]; [subst; exact H0|apply IH1; exact H].
Qed.

Lemma relevant_weight (donor : DonorProfile) (cause : CauseProfile) :
  relevant donor cause = true -> 0 < preferenceWeight donor cause.
Proof.
  unfold relevant, preferenceWeight.
  destruct (get (cause_id cause) (preferences donor)) as [w|]; [|discriminate].
  intro H. apply andb_true_iff in H. destruct H as [Ht Hp].
  rewrite Ht. apply Qltb_true. exact Hp.
Qed.

Lemma weightedScore_nonneg (donor : DonorProfile) (cause : CauseProfile) :
  relevant donor cause = true -> 0 <= priority cause -> 0 <= need cause ->
  0 <= allocationBudget donor -> 0 <= weightedScore donor cause.
Proof.
  intros Hrel Hp Hn Hb. unfold weightedScore.
  apply relevant_weight in Hrel.
  apply Qmult_le_0_compat.
  - apply Qmult_le_0_compat; lra.
  - apply js_min_glb; assumption.
Qed.

Lemma allocate_loop (donor : DonorProfile) (T : Q) (l : list CauseProfile)
    (row : Dict Q) :
  0 < T -> 0 <= allocationBudget donor ->
  (forall c, In c l -> 0 <= weightedScore donor c) ->
  nonnegRow row ->
  nonnegRow (fold_left (allocateCause donor T) l row) /\
  rowTotal (fold_left (allocateCause donor T) l row)
    <= rowTotal row + allocationBudget donor * (sumOver (weightedScore donor) l / T).
Proof.
  intros HT HB. revert row. induction l as [|c l IH]; intros row Hs Hrow; simpl.
  - split; [exact Hrow|]. unfold Qdiv. ring_simplify. lra.
  - assert (Hc : 0 <= weightedScore donor c) by (apply Hs; left; reflexivity).
    assert (Hshare : 0 <= allocationBudget donor * (weightedScore donor c / T)).
    { apply Qmult_le_0_compat; [exact HB|].
      apply Qle_shift_div_l; [exact HT|lra]. }
    assert (Hsplit :
      allocationBudget donor * ((weightedScore donor c + sumOver (weightedScore donor) l) / T)
      == allocationBudget donor * (weightedScore donor c / T)
         + allocationBudget donor * (sumOver (weightedScore donor) l / T)).
    { unfold Qdiv. ring. }
    assert (Hstep :
      nonnegRow (allocateCause donor T row c) /\
      rowTotal (allocateCause donor T row c)
        <= rowTotal row + allocationBudget donor * (weightedScore donor c / T)).
    { unfold allocateCause.
      set (a := js_min (allocationBudget donor * (weightedScore donor c / T))
                       (need c - received c)).
      assert (Ha : a <= allocationBudget donor * (weightedScore donor c / T))
        by apply js_min_le_l.
      destruct (Qltb 0 a) eqn:E.
      - apply Qltb_true in E.
        destruct (rowTotal_set (cause_id c) (v := a) Hrow) as [H1 H2]; [lra|].
        split; [exact H1|lra].
      - split; [exact Hrow|lra]. }
    destruct Hstep as [Hrow1 Hsum1].
    destruct (IH (allocateCause donor T row c)) as [IH1 IH2].
    + intros c' Hc'. apply Hs. right. exact Hc'.
    + exact Hrow1.
    + split; [exact IH1|]. rewrite Hsplit. lra.
Qed.

(** A donor's row never proposes more than the donor's budget. *)
Lemma donorAllocations_within_budget
    (causes : Dict CauseProfile) (donor : DonorProfile) :
  (forall c, In c (values causes) -> 0 <= need c /\ 0 <= priority c) ->
  0 <= allocationBudget donor ->
  rowTotal (donorAllocations causes donor) <= allocationBudget donor.
Proof.
  intros Hc HB. unfold donorAllocations.
  set (rel := filter (relevant donor) (values causes)).
  destruct (List.length rel =? 0)%nat; [exact HB|].
  set (T := fold_left (fun sum cause => sum + weightedScore donor cause) rel 0).
  assert (HTsum : T == sumOver (weightedScore donor) rel).
  { unfold T. rewrite (fold_sum (weightedScore donor) rel 0). lra. }
  destruct (Qle_bool T 0) eqn:E; [exact HB|].
  apply Qle_bool_false in E.
  destruct (@allocate_loop donor T rel []) as [_ H]; try assumption.
  - intros c Hin. unfold rel in Hin. apply filter_In in Hin.
    destruct Hin as [Hin Hrel]. destruct (Hc c Hin) as [Hn Hp].
    apply weightedScore_nonneg; assumption.
  - intros kv [].
  - unfold rowTotal at 2 in H. simpl in H.
    assert (Hone : allocationBudget donor * (sumOver (weightedScore donor) rel / T)
                   == allocationBudget donor).
    { rewrite <- HTsum. field. lra. }
    lra.
Qed.

(** The row stored for a donor id, when the ids of the donor map are unique. *)
Lemma calculateAllocations_loop (causes : Dict CauseProfile)
    (l : Dict DonorProfile) (acc : Matrix) (k : string) :
  NoDup (keys l) ->
  get k (fold_left
           (fun allocations entry =>
              let '(donorId, donor) := entry in
              if Qle_bool (allocationBudget donor) 0 then allocations
              else set donorId (donorAllocations causes donor) allocations)
           l acc)
  = match get k l with
    | Some donor =>
        if Qle_bool (allocationBudget donor) 0 then get k acc
        else Some (donorAllocations causes donor)
    | None => get k acc
    end.
Proof.
  revert acc. induction l as [|[k0 d0] l IH]; intros acc Hnd; simpl; [reflexivity|].
  inversion Hnd as [|? ? Hout Hnd']. subst.
  rewrite IH by exact Hnd'.
  destruct (String.eqb k0 k) eqn:E.
  - apply String.eqb_eq in E. subst.
    apply get_None_keys in Hout. rewrite Hout.
    destruct (Qle_bool (allocationBudget d0) 0); [reflexivity|].
    apply get_set_eq.
  - apply String.eqb_neq in E.
    assert (Hacc : get k (if Qle_bool (allocationBudget d0) 0 then acc
                          else set k0 (donorAllocations causes d0) acc) = get k acc).
    { destruct (Qle_bool (allocationBudget d0) 0); [reflexivity|].
      apply get_set_neq. exact E. }
    rewrite Hacc. reflexivity.
Qed.

Lemma calculateAllocations_row (donors : Dict DonorProfile)
    (causes : Dict CauseProfile) (donorId : string) (donor : DonorProfile) :
  NoDup (keys donors) -> get donorId donors = Some donor ->
  rowOf (calculateAllocations donors causes) donorId
  = if Qle_bool (allocationBudget donor) 0 then []
    else donorAllocations causes donor.
Proof.
  intros Hnd Hget. unfold rowOf, calculateAllocations.
  rewrite calculateAllocations_loop by exact Hnd. rewrite Hget. simpl.
  destruct (Qle_bool (allocationBudget donor) 0); reflexivity.
Qed.

(** With exact arithmetic the shares of a donor add up to at most its
    budget: in a ledger whose needs, priorities and budgets are
    non-negative, the amounts [calculateAllocations] proposes for one
    donor, summed over all causes, stay within that donor's
    [allocationBudget].  (The non-negativity of the preference weights is
    not needed: only causes with a positive weight take part.) *)
Lemma calculateAllocations_within_budget
    (donors : Dict DonorProfile) (causes : Dict CauseProfile)
    (donorId : string) (donor : DonorProfile) :
  NoDup (keys donors) ->
  (forall c, In c (values causes) -> 0 <= need c /\ 0 <= priority c) ->
  (forall d, In d (values donors) -> 0 <= allocationBudget d) ->
  get donorId donors = Some donor ->
  rowTotal (rowOf (calculateAllocations donors causes) donorId)
    <= allocationBudget donor.
Proof.
  intros Hnd Hc Hd Hget.
  assert (HB : 0 <= allocationBudget donor).
  { apply Hd. apply get_In_values with (k := donorId). exact Hget. }
  rewrite (@calculateAllocations_row donors causes donorId donor Hnd Hget).
  destruct (Qle_bool (allocationBudget donor) 0).
  - exact HB.
  - apply donorAllocations_within_budget; assumption.
Qed.

(** ** The commit loop on the ledger *)

Lemma has_get (V : Type) (m : Dict V) (k : string) :
  has (keys m) k = false <-> get k m = None.
Proof.
  rewrite get_None_keys. unfold has. split.
  - intros H Hin. assert (E : existsb (String.eqb k) (keys m) = true).
    { apply existsb_exists. exists k. split; [exact Hin|apply String.eqb_refl]. }
    congruence.
  - intro H. destruct (existsb (String.eqb k) (keys m)) eqn:E; [|reflexivity].
    apply existsb_exists in E. destruct E as [x [Hin Hx]].
    apply String.eqb_eq in Hx. subst. contradiction.
Qed.

Lemma has_get_Some (V : Type) (m : Dict V) (k : string) :
  has (keys m) k = true <-> exists v, get k m = Some v.
Proof.
  split.
  - intro H. destruct (get k m) as [v|] eqn:E; [exists v; reflexivity|].
    apply has_get in E. congruence.
  - intros [v Hv]. destruct (has (keys m) k) eqn:E; [reflexivity|].
    apply has_get in E. congruence.
Qed.

Lemma related_refl (V : Type) (R : V -> V -> Prop) (m : Dict V) :
  (forall v, R v v) -> related R m m.
Proof.
  intro HR. split; [reflexivity|]. intros k v H. exists v. split; [exact H|apply HR].
Qed.

Lemma related_trans (V : Type) (R : V -> V -> Prop) (m1 m2 m3 : Dict V) :
  (forall a b c, R a b -> R b c -> R a c) ->
  related R m1 m2 -> related R m2 m3 -> related R m1 m3.
Proof.
  intros HR [K12 H12] [K23 H23]. split; [congruence|].
  intros k v H. destruct (H12 k v H) as [v2 [G2 R2]].
  destruct (H23 k v2 G2) as [v3 [G3 R3]].
  exists v3. split; [exact G3|]. apply (HR v v2 v3); assumption.
Qed.

Lemma related_modify (V : Type) (R : V -> V -> Prop) (f : V -> V)
    (k : string) (m : Dict V) :
  (forall v, R v v) -> (forall v, R v (f v)) -> related R m (modify k f m).
Proof.
  intros Hrefl Hf. split; [apply keys_modify|].
  intros k0 v H. rewrite get_modify. destruct (String.eqb k k0) eqn:E.
  - rewrite H. simpl. exists (f v). split; [reflexivity|apply Hf].
  - exists v. split; [exact H|apply Hrefl].
Qed.

Lemma donorFrame_refl (d : DonorProfile) : donorFrame d d.
Proof. unfold donorFrame. repeat split; reflexivity. Qed.

Lemma donorFrame_trans (a b c : DonorProfile) :
  donorFrame a b -> donorFrame b c -> donorFrame a c.
Proof.
  unfold donorFrame. intros [A1 [A2 [A3 [A4 A5]]]] [B1 [B2 [B3 [B4 B5]]]].
  repeat split; try congruence. lra.
Qed.

Lemma donorFrame_debit (amount : Q) (d : DonorProfile) :
  donorFrame d (debit amount d).
Proof. unfold donorFrame, debit. simpl. repeat split; try reflexivity. lra. Qed.

Lemma causeFrame_refl (c : CauseProfile) : causeFrame c c.
Proof. unfold causeFrame. repeat split; reflexivity. Qed.

Lemma causeFrame_trans (a b c : CauseProfile) :
  causeFrame a b -> causeFrame b c -> causeFrame a c.
Proof.
  unfold causeFrame. intros [A1 [A2 [A3 A4]]] [B1 [B2 [B3 B4]]].
  repeat split; congruence.
Qed.

Lemma causeFrame_credit (amount : Q) (c : CauseProfile) :
  causeFrame c (credit amount c).
Proof. unfold causeFrame, credit. simpl. repeat split; reflexivity. Qed.

Lemma causeFrame_reset (c : CauseProfile) : causeFrame c (resetReceived c).
Proof. unfold causeFrame, resetReceived. simpl. repeat split; reflexivity. Qed.

Lemma ledgerFrame_refl (led : Ledger) : ledgerFrame led led.
Proof.
  split; apply related_refl; [apply donorFrame_refl|apply causeFrame_refl].
Qed.

Lemma ledgerFrame_trans (a b c : Ledger) :
  ledgerFrame a b -> ledgerFrame b c -> ledgerFrame a c.
Proof.
  intros [A1 A2] [B1 B2]. split.
  - apply (related_trans donorFrame_trans A1 B1).
  - apply (related_trans causeFrame_trans A2 B2).
Qed.

Lemma transferPair_frame (donorId : string) (led : Ledger) (e : string * Q) :
  ledgerFrame led (transferPair donorId led e).
Proof.
  destruct e as [causeId amount]. unfold transferPair.
  destruct (get donorId (fst led)); [|apply ledgerFrame_refl].
  destruct (get causeId (snd led)); [|apply ledgerFrame_refl].
  destruct (Qle_bool amount 0); [apply ledgerFrame_refl|].
  split; simpl.
  - apply related_modify; [apply donorFrame_refl|apply donorFrame_debit].
  - apply related_modify; [apply causeFrame_refl|apply causeFrame_credit].
Qed.

Lemma fold_frame (A : Type) (f : Ledger -> A -> Ledger) (l : list A) (led : Ledger) :
  (forall led e, ledgerFrame led (f led e)) -> ledgerFrame led (fold_left f l led).
Proof.
  intro Hf. revert led. induction l as [|e l IH]; intro led; simpl.
  - apply ledgerFrame_refl.
  - apply (ledgerFrame_trans (Hf led e) (IH (f led e))).
Qed.

Lemma transferRow_frame (led : Ledger) (row : string * Dict Q) :
  ledgerFrame led (transferRow led row).
Proof.
  destruct row as [donorId r]. unfold transferRow.
  destruct (get donorId (fst led)); [|apply ledgerFrame_refl].
  apply fold_frame. intros. apply transferPair_frame.
Qed.

Lemma transferLedger_frame (allocations : Matrix) (led : Ledger) :
  ledgerFrame led (transferLedger allocations led).
Proof. unfold transferLedger. apply fold_frame. apply transferRow_frame. Qed.

Lemma resetCycle_frame (causes : Dict CauseProfile) :
  related causeFrame causes (resetCycle causes).
Proof.
  unfold resetCycle. split.
  - unfold keys. rewrite map_map. simpl. reflexivity.
  - intros k v H. rewrite get_map_values. rewrite H. simpl.
    exists (resetReceived v). split; [reflexivity|apply causeFrame_reset].
Qed.

Lemma transferPair_keys (donorId : string) (led : Ledger) (e : string * Q) :
  keys (fst (transferPair donorId led e)) = keys (fst led) /\
  keys (snd (transferPair donorId led e)) = keys (snd led).
Proof.
  destruct (transferPair_frame donorId led e) as [[H1 _] [H2 _]]. split; assumption.
Qed.

Lemma transferRow_keys (led : Ledger) (row : string * Dict Q) :
  keys (fst (transferRow led row)) = keys (fst led) /\
  keys (snd (transferRow led row)) = keys (snd led).
Proof.
  destruct (transferRow_frame led row) as [[H1 _] [H2 _]]. split; assumption.
Qed.

(** Both agents run the same two nested loops over their own state.  The
    facts below hold for any loop whose iterations act on the ledger like
    [transferPair] and do nothing at all on a stale pair. *)
Section CommitLoop.
Variable S : Type.
Variable led : S -> Ledger.
Variable pair : string -> S -> string * Q -> S.
Variable row : S -> string * Dict Q -> S.

Hypothesis pair_ledger :
  forall d s e, led (pair d s e) = transferPair d (led s) e.
Hypothesis pair_stale :
  forall d s c a,
    get d (fst (led s)) = None \/ get c (snd (led s)) = None ->
    pair d s (c, a) = s.
Hypothesis row_unfold :
  forall s d r,
    row s (d, r) =
    match get d (fst (led s)) with
    | None => s
    | Some _ => fold_left (pair d) r s
    end.

Lemma loop_pairs_ledger d r s :
  led (fold_left (pair d) r s) = fold_left (transferPair d) r (led s).
Proof.
  revert s. induction r as [|e r IH]; intro s; simpl; [reflexivity|].
  rewrite IH, pair_ledger. reflexivity.
Qed.

Lemma loop_row_ledger s e : led (row s e) = transferRow (led s) e.
Proof.
  destruct e as [d r]. rewrite row_unfold. unfold transferRow.
  destruct (get d (fst (led s))); [|reflexivity]. apply loop_pairs_ledger.
Qed.

Lemma loop_ledger m s : led (fold_left row m s) = transferLedger m (led s).
Proof.
  unfold transferLedger.
  revert s. induction m as [|e m IH]; intro s; simpl; [reflexivity|].
  rewrite IH, loop_row_ledger. reflexivity.
Qed.

Lemma loop_pairs_dropStale d r s cs :
  cs = keys (snd (led s)) ->
  fold_left (pair d) r s
  = fold_left (pair d) (filter (fun e => has cs (fst e)) r) s.
Proof.
  revert s. induction r as [|[c a] r IH]; intros s Hcs; simpl; [reflexivity|].
  destruct (has cs c) eqn:E; simpl.
  - apply IH. rewrite pair_ledger.
    destruct (transferPair_keys d (led s) (c, a)) as [_ H]. congruence.
  - subst cs. apply has_get in E.
    rewrite (pair_stale d s c a) by (right; exact E). apply IH. reflexivity.
Qed.

Lemma loop_dropStale m s ds cs :
  ds = keys (fst (led s)) -> cs = keys (snd (led s)) ->
  fold_left row m s = fold_left row (dropStale ds cs m) s.
Proof.
  unfold dropStale.
  revert s. induction m as [|[d r] m IH]; intros s Hds Hcs; simpl; [reflexivity|].
  assert (Hkeys : ds = keys (fst (led (row s (d, r))))
                  /\ cs = keys (snd (led (row s (d, r))))).
  { rewrite loop_row_ledger.
    destruct (transferRow_keys (led s) (d, r)) as [H1 H2]. split; congruence. }
  destruct Hkeys as [Hds' Hcs'].
  destruct (has ds d) eqn:E; simpl.
  - rewrite (IH _ Hds' Hcs'). f_equal.
    rewrite !row_unfold. destruct (get d (fst (led s))); [|reflexivity].
    apply loop_pairs_dropStale. exact Hcs.
  - rewrite (IH _ Hds' Hcs'). f_equal.
    rewrite row_unfold. subst ds. apply has_get in E. rewrite E. reflexivity.
Qed.
End CommitLoop.

(** ** executeAllocations of both agents *)

Lemma Demo_pair_ledger now m d (loop : Demo.Loop) e :
  Demo.ledger (fst (Demo.executePair now m d loop e))
  = transferPair d (Demo.ledger (fst loop)) e.
Proof.
  destruct loop as [st ex]. destruct e as [c a].
  unfold Demo.executePair, transferPair, Demo.ledger. simpl.
  destruct (get d (Demo.donors st)); [|reflexivity].
  destruct (get c (Demo.causes st)); [|reflexivity].
  destruct (Qle_bool a 0); reflexivity.
Qed.

Lemma Demo_pair_stale now m d (loop : Demo.Loop) c a :
  get d (fst (Demo.ledger (fst loop))) = None
  \/ get c (snd (Demo.ledger (fst loop))) = None ->
  Demo.executePair now m d loop (c, a) = loop.
Proof.
  destruct loop as [st ex]. unfold Demo.executePair, Demo.ledger. simpl.
  intros [H|H]; rewrite H; [reflexivity|].
  destruct (get d (Demo.donors st)); reflexivity.
Qed.

Lemma Demo_row_unfold now m (loop : Demo.Loop) d r :
  Demo.executeRow now m loop (d, r) =
  match get d (fst (Demo.ledger (fst loop))) with
  | None => loop
  | Some _ => fold_left (Demo.executePair now m d) r loop
  end.
Proof. reflexivity. Qed.

Lemma Demo_transfers_ledger now batch m (loop : Demo.Loop) :
  Demo.ledger (fst (fold_left (Demo.executeRow now batch) m loop))
  = transferLedger m (Demo.ledger (fst loop)).
Proof.
  apply (loop_ledger (fun l : Demo.Loop => Demo.ledger (fst l))
           (Demo.executePair now batch) (Demo.executeRow now batch)).
  - intros. apply Demo_pair_ledger.
  - intros. apply Demo_row_unfold.
Qed.

Lemma Demo_transfers_dropStale now batch m (st : Demo.Agent) :
  fold_left (Demo.executeRow now batch) m (st, [])
  = fold_left (Demo.executeRow now batch)
      (dropStale (keys (Demo.donors st)) (keys (Demo.causes st)) m) (st, []).
Proof.
  apply (loop_dropStale (fun l : Demo.Loop => Demo.ledger (fst l))
           (Demo.executePair now batch) (Demo.executeRow now batch)).
  - intros. apply Demo_pair_ledger.
  - intros. apply Demo_pair_stale. assumption.
  - intros. apply Demo_row_unfold.
  - reflexivity.
  - reflexivity.
Qed.

Section RdaLoop.
Variable toFixed2 : Q -> string.

Lemma Rda_pair_ledger now m d (loop : Rda.Loop) e :
  Rda.ledger (fst (Rda.executePair toFixed2 now m d loop e))
  = transferPair d (Rda.ledger (fst loop)) e.
Proof.
  destruct loop as [st ex]. destruct e as [c a].
  unfold Rda.executePair, transferPair, Rda.ledger. simpl.
  destruct (get d (Rda.donors st)); [|reflexivity].
  destruct (get c (Rda.causes st)); [|reflexivity].
  destruct (Qle_bool a 0); reflexivity.
Qed.

Lemma Rda_pair_stale now m d (loop : Rda.Loop) c a :
  get d (fst (Rda.ledger (fst loop))) = None
  \/ get c (snd (Rda.ledger (fst loop))) = None ->
  Rda.executePair toFixed2 now m d loop (c, a) = loop.
Proof.
  destruct loop as [st ex]. unfold Rda.executePair, Rda.ledger. simpl.
  intros [H|H]; rewrite H; [reflexivity|].
  destruct (get d (Rda.donors st)); reflexivity.
Qed.

Lemma Rda_row_unfold now m (loop : Rda.Loop) d r :
  Rda.executeRow toFixed2 now m loop (d, r) =
  match get d (fst (Rda.ledger (fst loop))) with
  | None => loop
  | Some _ => fold_left (Rda.executePair toFixed2 now m d) r loop
  end.
Proof. reflexivity. Qed.

Lemma Rda_transfers_ledger now batch m (loop : Rda.Loop) :
  Rda.ledger (fst (fold_left (Rda.executeRow toFixed2 now batch) m loop))
  = transferLedger m (Rda.ledger (fst loop)).
Proof.
  apply (loop_ledger (fun l : Rda.Loop => Rda.ledger (fst l))
           (Rda.executePair toFixed2 now batch)
           (Rda.executeRow toFixed2 now batch)).
  - intros. apply Rda_pair_ledger.
  - intros. apply Rda_row_unfold.
Qed.

Lemma Rda_transfers_dropStale now batch m (st : Rda.Agent) :
  fold_left (Rda.executeRow toFixed2 now batch) m (st, [])
  = fold_left (Rda.executeRow toFixed2 now batch)
      (dropStale (keys (Rda.donors st)) (keys (Rda.causes st)) m) (st, []).
Proof.
  apply (loop_dropStale (fun l : Rda.Loop => Rda.ledger (fst l))
           (Rda.executePair toFixed2 now batch)
           (Rda.executeRow toFixed2 now batch)).
  - intros. apply Rda_pair_ledger.
  - intros. apply Rda_pair_stale. assumption.
  - intros. apply Rda_row_unfold.
  - reflexivity.
  - reflexivity.
Qed.
End RdaLoop.

(** C8. A pair of the batch whose donor or cause is not in the ledger is
    skipped by [executeAllocations] of either agent: the iteration returns
    the loop state as it was (no balance, no event, no notification), and
    the loops as a whole end in the state they reach on the batch without
    its stale pairs; the function is total, so nothing is raised. *)
Theorem stale_pairs_skipped (toFixed2 : Q -> string) (now : Z) (batch : Matrix) :
  (forall (loop : Demo.Loop) donorId causeId amount,
      get donorId (Demo.donors (fst loop)) = None
      \/ get causeId (Demo.causes (fst loop)) = None ->
      Demo.executePair now batch donorId loop (causeId, amount) = loop)
  /\ (forall st : Demo.Agent,
      Demo.executeTransfers now batch st
      = fold_left (Demo.executeRow now batch)
          (dropStale (keys (Demo.donors st)) (keys (Demo.causes st)) batch)
          (st, []))
  /\ (forall (loop : Rda.Loop) donorId causeId amount,
      get donorId (Rda.donors (fst loop)) = None
      \/ get causeId (Rda.causes (fst loop)) = None ->
      Rda.executePair toFixed2 now batch donorId loop (causeId, amount) = loop)
  /\ (forall st : Rda.Agent,
      Rda.executeTransfers toFixed2 now batch st
      = fold_left (Rda.executeRow toFixed2 now batch)
          (dropStale (keys (Rda.donors st)) (keys (Rda.causes st)) batch)
          (st, [])).
Proof.
  repeat split.
  - intros. apply Demo_pair_stale. assumption.
  - intro st. apply Demo_transfers_dropStale.
  - intros. apply Rda_pair_stale. assumption.
  - intro st. apply Rda_transfers_dropStale.
Qed.

Lemma stale_pairs_skipped_witness :
  Demo.executePair 5 staleBatch "ghost" (twoByTwo, []) ("water"%string, 5)
  = (twoByTwo, [])
  /\ Demo.executePair 5 staleBatch "ann" (twoByTwo, []) ("gone"%string, 5)
     = (twoByTwo, []).
Proof.
  split.
  - apply (proj1 (stale_pairs_skipped (fun _ => EmptyString) 5 staleBatch)).
    left. reflexivity.
  - apply (proj1 (stale_pairs_skipped (fun _ => EmptyString) 5 staleBatch)).
    right. reflexivity.
Defined.

Lemma Demo_executeAllocations_ledger now m (st : Demo.Agent) :
  Demo.ledger (Demo.executeAllocations now m st)
  = (fst (transferLedger m (Demo.ledger st)),
     resetCycle (snd (transferLedger m (Demo.ledger st)))).
Proof.
  unfold Demo.executeAllocations, Demo.executeTransfers.
  pose proof (Demo_transfers_ledger now m m (st, [])) as H. simpl in H.
  rewrite <- H. clear H.
  destruct (fold_left (Demo.executeRow now m) m (st, [])) as [st' ex].
  reflexivity.
Qed.

Lemma Rda_executeAllocations_ledger toFixed2 now m (st : Rda.Agent) :
  Rda.ledger (Rda.executeAllocations toFixed2 now m st)
  = (fst (transferLedger m (Rda.ledger st)),
     resetCycle (snd (transferLedger m (Rda.ledger st)))).
Proof.
  unfold Rda.executeAllocations, Rda.executeTransfers.
  pose proof (Rda_transfers_ledger toFixed2 now m m (st, [])) as H. simpl in H.
  rewrite <- H. clear H.
  destruct (fold_left (Rda.executeRow toFixed2 now m) m (st, [])) as [st' ex].
  reflexivity.
Qed.

Lemma commit_frame (m : Matrix) (led : Ledger) :
  ledgerFrame led
    (fst (transferLedger m led), resetCycle (snd (transferLedger m led))).
Proof.
  destruct (transferLedger_frame m led) as [Hd Hc]. split; simpl.
  - exact Hd.
  - apply (related_trans causeFrame_trans Hc). apply resetCycle_frame.
Qed.




(** ** What a commit credits *)

Lemma transferPairs_received (k : string) (d : string) (r : Dict Q)
    (led : Ledger) (c0 : CauseProfile) :
  has (keys (fst led)) d = true ->
  get k (snd led) = Some c0 ->
  exists c',
    get k (snd (fold_left (transferPair d) r led)) = Some c'
    /\ received c' == received c0 + creditedByRow k r.
Proof.
  unfold creditedByRow.
  revert led c0. induction r as [|[c a] r IH]; intros led c0 Hd Hk; simpl.
  - exists c0. split; [exact Hk|lra].
  - assert (Hd' : has (keys (fst (transferPair d led (c, a)))) d = true).
    { destruct (transferPair_keys d led (c, a)) as [H _]. rewrite H. exact Hd. }
    assert (Hstep : exists c1,
      get k (snd (transferPair d led (c, a))) = Some c1
      /\ received c1 == received c0
                        + (if String.eqb c k && Qltb 0 a then a else 0)).
    { unfold transferPair.
      apply has_get_Some in Hd. destruct Hd as [dv Hdv]. rewrite Hdv.
      destruct (get c (snd led)) as [cv|] eqn:Ec.
      - destruct (Qle_bool a 0) eqn:Ea.
        + exists c0. split; [exact Hk|].
          apply Qle_bool_iff in Ea. apply Qltb_false in Ea. rewrite Ea.
          rewrite andb_false_r. lra.
        + apply Qle_bool_false in Ea. apply Qltb_true in Ea. rewrite Ea.
          rewrite andb_true_r. simpl. rewrite get_modify.
          destruct (String.eqb c k) eqn:E.
          * rewrite Hk. simpl. exists (credit a c0). split; [reflexivity|].
            simpl. lra.
          * exists c0. split; [exact Hk|lra].
      - assert (E : String.eqb c k = false).
        { apply String.eqb_neq. intro. subst. congruence. }
        rewrite E. simpl. exists c0. split; [exact Hk|lra]. }
    destruct Hstep as [c1 [Hk1 Hr1]].
    destruct (IH _ c1 Hd' Hk1) as [c' [Hk' Hr']].
    exists c'. split; [exact Hk'|]. rewrite Hr', Hr1. lra.
Qed.

Lemma transferLedger_received (k : string) (m : Matrix) (led : Ledger)
    (c0 : CauseProfile) :
  get k (snd led) = Some c0 ->
  exists c',
    get k (snd (transferLedger m led)) = Some c'
    /\ received c' == received c0 + creditedTo (keys (fst led)) k m.
Proof.
  unfold transferLedger, creditedTo.
  revert led c0. induction m as [|[d r] m IH]; intros led c0 Hk; simpl.
  - exists c0. split; [exact Hk|lra].
  - destruct (transferRow_keys led (d, r)) as [Hkeys _].
    assert (Hstep : exists c1,
      get k (snd (transferRow led (d, r))) = Some c1
      /\ received c1 == received c0
           + (if has (keys (fst led)) d then creditedByRow k r else 0)).
    { unfold transferRow. destruct (has (keys (fst led)) d) eqn:Ed.
      - destruct (proj1 (has_get_Some _ _) Ed) as [dv Hdv]. rewrite Hdv.
        apply transferPairs_received; assumption.
      - apply has_get in Ed. rewrite Ed. exists c0. split; [exact Hk|lra]. }
    destruct Hstep as [c1 [Hk1 Hr1]].
    destruct (IH _ c1 Hk1) as [c' [Hk' Hr']].
    exists c'. split; [exact Hk'|]. rewrite Hr', Hr1, Hkeys.
    unfold creditedByRow. lra.
Qed.

(** ** The cap of calculateAllocations *)

Lemma allocateCause_entries (donor : DonorProfile) (T : Q) (l : list CauseProfile)
    (row : Dict Q) (k : string) (a : Q) :
  In (k, a) (fold_left (allocateCause donor T) l row) ->
  In (k, a) row
  \/ exists cause, In cause l /\ cause_id cause = k
                   /\ 0 < a /\ a <= need cause - received cause.
Proof.
  revert row. induction l as [|c l IH]; intros row H; simpl in H; [left; exact H|].
  destruct (IH _ H) as [H1|[cause [Hin Hrest]]].
  - unfold allocateCause in H1.
    set (x := js_min (allocationBudget donor * (weightedScore donor c / T))
                     (need c - received c)) in H1.
    destruct (Qltb 0 x) eqn:E; [|left; exact H1].
    apply In_set in H1. destruct H1 as [[Hk Ha]|H1]; [|left; exact H1].
    right. exists c. subst. repeat split.
    + left. reflexivity.
    + apply Qltb_true. exact E.
    + apply js_min_le_r.
  - right. exists cause. split; [right; exact Hin|exact Hrest].
Qed.

Lemma donorAllocations_entries (causes : Dict CauseProfile) (donor : DonorProfile)
    (k : string) (a : Q) :
  In (k, a) (donorAllocations causes donor) ->
  exists cause, In cause (values causes) /\ cause_id cause = k
                /\ 0 < a /\ a <= need cause - received cause.
Proof.
  unfold donorAllocations.
  set (rel := filter (relevant donor) (values causes)).
  destruct (List.length rel =? 0)%nat; [intros []|].
  destruct (Qle_bool _ 0); [intros []|].
  intro H. apply allocateCause_entries in H.
  destruct H as [[]|[cause [Hin Hrest]]].
  exists cause. split; [|exact Hrest].
  unfold rel in Hin. apply filter_In in Hin. apply Hin.
Qed.

Lemma calculateAllocations_entries (causes : Dict CauseProfile)
    (l : Dict DonorProfile) (acc : Matrix) (k : string) (row : Dict Q) :
  In (k, row)
     (fold_left
        (fun allocations entry =>
           let '(donorId, donor) := entry in
           if Qle_bool (allocationBudget donor) 0 then allocations
           else set donorId (donorAllocations causes donor) allocations)
        l acc) ->
  In (k, row) acc
  \/ exists donor, In (k, donor) l /\ row = donorAllocations causes donor.
Proof.
  revert acc. induction l as [|[k0 d0] l IH]; intros acc H; simpl in H;
    [left; exact H|].
  destruct (IH _ H) as [H1|[donor [Hin Hrow]]].
  - destruct (Qle_bool (allocationBudget d0) 0); [left; exact H1|].
    apply In_set in H1. destruct H1 as [[Hk Hr]|H1]; [|left; exact H1].
    right. exists d0. subst. split; [left; reflexivity|reflexivity].
  - right. exists donor. split; [right; exact Hin|exact Hrow].
Qed.

(** Every cell of a proposal is positive and at most what its cause still
    lacks when the proposal is computed. *)
Lemma calculateAllocations_cell_cap (led : Ledger) (donorId causeId : string)
    (row : Dict Q) (a : Q) :
  wellKeyed led ->
  In (donorId, row) (calculateAllocations (fst led) (snd led)) ->
  In (causeId, a) row ->
  exists cause, get causeId (snd led) = Some cause
                /\ 0 < a /\ a <= need cause - received cause.
Proof.
  intros [_ [Hnd [_ Hid]]] Hrow Hcell.
  apply calculateAllocations_entries in Hrow.
  destruct Hrow as [[]|[donor [_ Hr]]]. subst row.
  apply donorAllocations_entries in Hcell.
  destruct Hcell as [cause [Hin [Hk Hcap]]].
  exists cause. split; [|exact Hcap].
  unfold values in Hin. apply in_map_iff in Hin.
  destruct Hin as [[k c] [Hsnd Hin]]. simpl in Hsnd. subst c.
  assert (cause_id cause = k) by (apply Hid; exact Hin).
  apply In_get; [exact Hnd|]. congruence.
Qed.

(** C1, as stated, fails.  When ben's offer is handled after ann's, the
    evaluation commits the fresh proposal directly, and once the four
    amounts are credited the cause "water" has received 20 against a need
    of 15. *)
Lemma commit_exceeds_need :
  let batch := calculateAllocations (Demo.donors benOffered) (Demo.causes benOffered) in
  (exists budget,
      Demo.handleCapacityOffer 4
        (mkOffer "ben" 100 (Some 0.2) (Some evenPreferences)) afterAnn
      = Demo.send
          (Demo.whisper "ben"
             (Demo.capacity_acknowledged budget "Capacity registered successfully"))
          (Demo.evaluateAllocations 4 benOffered))
  /\ Demo.evaluateAllocations 4 benOffered
     = Demo.with_isProcessing false
         (Demo.executeAllocations 4 batch (Demo.with_isProcessing true benOffered))
  /\ ~ cappedAtCommit
        (Demo.causes
           (fst (Demo.executeTransfers 4 batch
                   (Demo.with_isProcessing true benOffered)))).
Proof.
  split; [|split].
  - eexists. unfold Demo.handleCapacityOffer, benOffered. reflexivity.
  - vm_compute. reflexivity.
  - intro H.
    specialize (H "water"%string
                  (mkCause "water" "water" 15 1 (1800000 # 90000) (1800000 # 90000) 1)).
    assert (Hget : get "water"
              (Demo.causes
                 (fst (Demo.executeTransfers 4
                         (calculateAllocations (Demo.donors benOffered)
                            (Demo.causes benOffered))
                         (Demo.with_isProcessing true benOffered))))
            = Some (mkCause "water" "water" 15 1 (1800000 # 90000) (1800000 # 90000) 1))
      by (vm_compute; reflexivity).
    specialize (H Hget). vm_compute in H. apply H. reflexivity.
Qed.

(** C1, amended.  The cap is applied per cell when the proposal is
    computed: every amount [calculateAllocations] proposes is positive and
    at most [need - received] of its cause.  At commit nothing is capped:
    after the transfers of any batch a cause has received what it had plus
    every positive amount the batch lists for it under a known donor. *)
Theorem cap_per_cell_credit_in_full (toFixed2 : Q -> string) (now : Z) :
  (forall (led : Ledger) donorId causeId row a,
      wellKeyed led ->
      In (donorId, row) (calculateAllocations (fst led) (snd led)) ->
      In (causeId, a) row ->
      exists cause, get causeId (snd led) = Some cause
                    /\ 0 < a /\ a <= need cause - received cause)
  /\ (forall (st : Demo.Agent) batch causeId cause,
      get causeId (Demo.causes st) = Some cause ->
      exists cause',
        get causeId (Demo.causes (fst (Demo.executeTransfers now batch st)))
          = Some cause'
        /\ need cause' = need cause
        /\ received cause'
           == received cause + creditedTo (keys (Demo.donors st)) causeId batch)
  /\ (forall (st : Rda.Agent) batch causeId cause,
      get causeId (Rda.causes st) = Some cause ->
      exists cause',
        get causeId (Rda.causes (fst (Rda.executeTransfers toFixed2 now batch st)))
          = Some cause'
        /\ need cause' = need cause
        /\ received cause'
           == received cause + creditedTo (keys (Rda.donors st)) causeId batch).
Proof.
  split; [|split].
  - intros led donorId causeId row a Hwf Hrow Hcell.
    apply calculateAllocations_cell_cap with (donorId := donorId) (row := row);
      assumption.
  - intros st batch causeId cause Hget.
    pose proof (Demo_transfers_ledger now batch batch (st, [])) as Hl.
    simpl in Hl. fold (Demo.executeTransfers now batch st) in Hl.
    destruct (@transferLedger_received causeId batch (Demo.ledger st) cause Hget)
      as [c' [Hc' Hr]].
    destruct (transferLedger_frame batch (Demo.ledger st)) as [_ [_ Hf]].
    destruct (Hf causeId cause Hget) as [c2 [Hc2 [_ [_ [Hneed _]]]]].
    rewrite <- Hl in Hc', Hc2. simpl in Hc', Hc2.
    exists c'. split; [exact Hc'|]. split; [congruence|exact Hr].
  - intros st batch causeId cause Hget.
    pose proof (Rda_transfers_ledger toFixed2 now batch batch (st, [])) as Hl.
    simpl in Hl. fold (Rda.executeTransfers toFixed2 now batch st) in Hl.
    destruct (@transferLedger_received causeId batch (Rda.ledger st) cause Hget)
      as [c' [Hc' Hr]].
    destruct (transferLedger_frame batch (Rda.ledger st)) as [_ [_ Hf]].
    destruct (Hf causeId cause Hget) as [c2 [Hc2 [_ [_ [Hneed _]]]]].
    rewrite <- Hl in Hc', Hc2. simpl in Hc', Hc2.
    exists c'. split; [exact Hc'|]. split; [congruence|exact Hr].
Qed.

Lemma cap_per_cell_credit_in_full_witness :
  (exists cause, get "water" twoCauses = Some cause
                 /\ 0 < 300 # 30 /\ 300 # 30 <= need cause - received cause)
  /\ (exists cause',
        get "water"
          (Demo.causes
             (fst (Demo.executeTransfers 4
                     (calculateAllocations twoDonors twoCauses) twoByTwo)))
        = Some cause'
        /\ need cause' = 15
        /\ received cause'
           == 0 + creditedTo ["ann"; "ben"]%string "water"
                    (calculateAllocations twoDonors twoCauses)).
Proof.
  split.
  - apply (proj1 (cap_per_cell_credit_in_full (fun _ => EmptyString) 4)
             (twoDonors, twoCauses) "ann"%string "water"%string
             [("water"%string, 300 # 30); ("food"%string, 300 # 30)] (300 # 30)).
    + unfold wellKeyed. simpl. repeat split.
      * repeat constructor; simpl; intuition discriminate.
      * repeat constructor; simpl; intuition discriminate.
      * intros k d [H|[H|[]]]; inversion H; reflexivity.
      * intros k c [H|[H|[]]]; inversion H; reflexivity.
    + vm_compute. left. reflexivity.
    + left. reflexivity.
  - apply (proj1 (proj2 (cap_per_cell_credit_in_full (fun _ => EmptyString) 4))
             twoByTwo (calculateAllocations twoDonors twoCauses) "water"%string
             (mkCause "water" "water" 15 1 0 0 1)).
    reflexivity.
Defined.

(** ** The escalation gate *)

Lemma sumOver_map (A B : Type) (f : B -> Q) (g : A -> B) (l : list A) :
  sumOver f (map g l) == sumOver (fun x => f (g x)) l.
Proof.
  induction l as [|x l IH]; simpl; [reflexivity|]. rewrite IH. reflexivity.
Qed.

Lemma totalAllocation_volume (allocations : Matrix) :
  totalAllocation allocations == spec_totalVolume allocations.
Proof.
  unfold totalAllocation, spec_totalVolume, values.
  rewrite (fold_sum
             (fun donorAllocations : Dict Q =>
                fold_left (fun s amount => s + amount) (map snd donorAllocations) 0)
             (map snd allocations) 0).
  rewrite sumOver_map. rewrite Qplus_0_l.
  apply sumOver_ext. intros row _. simpl.
  rewrite (fold_sum (fun x => x) (map snd (snd row)) 0).
  rewrite sumOver_map. unfold rowTotal. rewrite Qplus_0_l.
  apply sumOver_ext. intros; reflexivity.
Qed.

Lemma detectMajorReallocation_concentrated (allocations : Matrix) :
  detectMajorReallocation allocations = true <-> concentrated allocations.
Proof.
  unfold detectMajorReallocation, concentrated.
  pose proof (totalAllocation_volume allocations) as HT.
  rewrite existsb_exists. split.
  - intros [row [Hrow Hex]]. apply existsb_exists in Hex.
    destruct Hex as [a [Ha Hlt]]. apply Qltb_true in Hlt.
    unfold values in Hrow, Ha.
    apply in_map_iff in Hrow. destruct Hrow as [[d r] [Er Hin]].
    apply in_map_iff in Ha. destruct Ha as [[c a'] [Ea Hin']].
    simpl in Er, Ea. subst row. subst a.
    exists d, r, c, a'. repeat split; try assumption. lra.
  - intros [d [r [c [a [Hin [Hin' Hlt]]]]]].
    exists r. split.
    + unfold values. change r with (snd (d, r)). apply in_map. exact Hin.
    + apply existsb_exists. exists a. split.
      * unfold values. change a with (snd (c, a)). apply in_map. exact Hin'.
      * apply Qltb_true. lra.
Qed.

Lemma Demo_sent_executeAllocations now m (st : Demo.Agent) :
  exists summary,
    Demo.sent (Demo.executeAllocations now m st)
    = Demo.sent (fst (Demo.executeTransfers now m st))
      ++ [Demo.broadcast Demo.id summary].
Proof.
  unfold Demo.executeAllocations.
  destruct (Demo.executeTransfers now m st) as [st' ex]. simpl.
  eexists. reflexivity.
Qed.

(** The gate on a confidence that is a number: an evaluation cycle that
    runs (no evaluation in flight, at least one donor and one cause)
    executes the fresh proposal at once exactly when its confidence is at
    least 0.7 and no cell exceeds 30% of the proposed volume; otherwise it
    convenes a council (session opened, context broadcast, specialists
    scheduled) and leaves the ledger and the history as they were. *)
Lemma evaluateAllocations_gate (now : Z) (st : Demo.Agent) (conf : Q) :
  Demo.isProcessing st = false ->
  Demo.donors st <> [] ->
  Demo.causes st <> [] ->
  let batch := calculateAllocations (Demo.donors st) (Demo.causes st) in
  let running := Demo.with_isProcessing true st in
  let executed :=
    Demo.with_isProcessing false (Demo.executeAllocations now batch running) in
  calculateConfidence (Demo.causes st) batch = num conf ->
  (Demo.evaluateAllocations now st = executed
   <-> 0.7 <= conf /\ ~ concentrated batch)
  /\ (~ (0.7 <= conf /\ ~ concentrated batch) ->
      Demo.evaluateAllocations now st
      = Demo.with_isProcessing false
          (Demo.conveneCouncil now batch (num conf) running)
      /\ Demo.ledger (Demo.evaluateAllocations now st) = Demo.ledger st
      /\ Demo.allocationHistory (Demo.evaluateAllocations now st)
         = Demo.allocationHistory st
      /\ Demo.councilActive (Demo.evaluateAllocations now st) = true
      /\ Demo.councilInsights (Demo.evaluateAllocations now st) = []
      /\ Demo.sent (Demo.evaluateAllocations now st)
         = Demo.sent st
           ++ [Demo.convene "resource_allocation_review";
               Demo.broadcast Demo.id
                 (Demo.resource_context (Demo.councilIdOf now) batch (num conf)
                    (values (Demo.donors st)) (values (Demo.causes st))
                    "Should we proceed with these allocations or modify the approach?");
               Demo.setTimeout_triggerSpecialistAgents batch 1000]).
Proof.
  intros Hidle Hd Hc batch running executed Hconf.
  assert (Hguard : Demo.isProcessing st
                   || (List.length (Demo.donors st) =? 0)%nat
                   || (List.length (Demo.causes st) =? 0)%nat = false).
  { rewrite Hidle. destruct (Demo.donors st); [congruence|].
    destruct (Demo.causes st); [congruence|]. reflexivity. }
  assert (Heval : Demo.evaluateAllocations now st
                  = Demo.with_isProcessing false
                      (if Qltb conf 0.7 || detectMajorReallocation batch
                       then Demo.conveneCouncil now batch (num conf) running
                       else Demo.executeAllocations now batch running)).
  { unfold Demo.evaluateAllocations. rewrite Hguard.
    change (calculateConfidence (Demo.causes (Demo.with_isProcessing true st))
              (calculateAllocations (Demo.donors (Demo.with_isProcessing true st))
                 (Demo.causes (Demo.with_isProcessing true st))))
      with (calculateConfidence (Demo.causes st) batch).
    rewrite Hconf. reflexivity. }
  assert (Hgate : Qltb conf 0.7 || detectMajorReallocation batch = false
                  <-> 0.7 <= conf /\ ~ concentrated batch).
  { rewrite orb_false_iff, Qltb_false.
    rewrite <- detectMajorReallocation_concentrated.
    rewrite not_true_iff_false. reflexivity. }
  assert (Hconvene : ~ (0.7 <= conf /\ ~ concentrated batch) ->
                     Demo.evaluateAllocations now st
                     = Demo.with_isProcessing false
                         (Demo.conveneCouncil now batch (num conf) running)).
  { intro Hn. rewrite Heval.
    destruct (Qltb conf 0.7 || detectMajorReallocation batch) eqn:E;
      [reflexivity|]. exfalso. apply Hn. apply Hgate. reflexivity. }
  split; [split|].
  - intro Hex.
    destruct (Qltb conf 0.7 || detectMajorReallocation batch) eqn:E.
    + exfalso.
      assert (Hsent : Demo.sent (Demo.evaluateAllocations now st)
                      = Demo.sent executed) by (rewrite Hex; reflexivity).
      rewrite Heval in Hsent. unfold executed in Hsent. simpl in Hsent.
      destruct (Demo_sent_executeAllocations now batch running) as [summary Hs].
      rewrite Hs in Hsent.
      unfold Demo.conveneCouncil, Demo.send in Hsent. simpl in Hsent.
      apply app_inj_tail in Hsent. destruct Hsent as [_ Hlast]. discriminate.
    + apply Hgate. reflexivity.
  - intro Hok. apply Hgate in Hok. rewrite Heval, Hok. reflexivity.
  - intro Hn. pose proof (Hconvene Hn) as Hev. rewrite Hev.
    split; [reflexivity|].
    unfold Demo.conveneCouncil, Demo.send, Demo.ledger. simpl.
    rewrite <- !app_assoc. simpl. repeat split; reflexivity.
Qed.

(** C2. The gate lets a confidence that is [NaN] pass.  An evaluation
    cycle that runs and whose proposal is not concentrated executes the
    proposal at once when [calculateConfidence] returns [NaN], since
    [confidence < 0.7] is then false: nothing is escalated although the
    confidence is not at least 0.7. *)
Theorem evaluateAllocations_executes_on_NaN (now : Z) (st : Demo.Agent) :
  Demo.isProcessing st = false ->
  Demo.donors st <> [] ->
  Demo.causes st <> [] ->
  calculateConfidence (Demo.causes st)
    (calculateAllocations (Demo.donors st) (Demo.causes st)) = NaN ->
  detectMajorReallocation
    (calculateAllocations (Demo.donors st) (Demo.causes st)) = false ->
  Demo.evaluateAllocations now st
  = Demo.with_isProcessing false
      (Demo.executeAllocations now
         (calculateAllocations (Demo.donors st) (Demo.causes st))
         (Demo.with_isProcessing true st)).
Proof.
  intros Hidle Hd Hc Hconf Hmajor.
  assert (Hguard : Demo.isProcessing st
                   || (List.length (Demo.donors st) =? 0)%nat
                   || (List.length (Demo.causes st) =? 0)%nat = false).
  { rewrite Hidle. destruct (Demo.donors st); [congruence|].
    destruct (Demo.causes st); [congruence|]. reflexivity. }
  unfold Demo.evaluateAllocations. rewrite Hguard.
  change (Demo.donors (Demo.with_isProcessing true st)) with (Demo.donors st).
  change (Demo.causes (Demo.with_isProcessing true st)) with (Demo.causes st).
  rewrite Hconf, Hmajor. reflexivity.
Qed.

Lemma evaluateAllocations_executes_on_NaN_witness :
  Demo.evaluateAllocations 4 shadowed
  = Demo.with_isProcessing false
      (Demo.executeAllocations 4
         (calculateAllocations (Demo.donors shadowed) (Demo.causes shadowed))
         (Demo.with_isProcessing true shadowed))
  /\ spec_confidence (Demo.causes shadowed)
       (calculateAllocations (Demo.donors shadowed) (Demo.causes shadowed)) < 0.7
  /\ List.length (Demo.allocationHistory (Demo.evaluateAllocations 4 shadowed))
     = 4%nat.
Proof.
  assert (Hd : Demo.donors shadowed <> []) by discriminate.
  assert (Hc : Demo.causes shadowed <> []) by discriminate.
  assert (Hconf : calculateConfidence (Demo.causes shadowed)
                    (calculateAllocations (Demo.donors shadowed)
                       (Demo.causes shadowed)) = NaN)
    by (vm_compute; reflexivity).
  assert (Hmajor : detectMajorReallocation
                     (calculateAllocations (Demo.donors shadowed)
                        (Demo.causes shadowed)) = false)
    by (vm_compute; reflexivity).
  split; [|split].
  - exact (evaluateAllocations_executes_on_NaN 4 shadowed eq_refl Hd Hc Hconf
             Hmajor).
  - vm_compute. reflexivity.
  - vm_compute. reflexivity.
Defined.

(** ** Council synthesis *)

Lemma set_fresh (V : Type) (k : string) (v : V) (m : Dict V) :
  ~ In k (keys m) -> set k v m = m ++ [(k, v)].
Proof.
  induction m as [|[k0 v0] m IH]; simpl; [reflexivity|].
  intro H. destruct (String.eqb k0 k) eqn:E.
  - apply String.eqb_eq in E. exfalso. apply H. left. exact E.
  - f_equal. apply IH. intro Hin. apply H. right. exact Hin.
Qed.

(** Filling an object key by key, with keys that are new and distinct,
    lists the keys in the order they were written. *)
Lemma fold_set_fresh (V : Type) (g : string -> V) (ks : list string)
    (acc : Dict V) :
  NoDup ks -> (forall k, In k ks -> ~ In k (keys acc)) ->
  fold_left (fun acc k => set k (g k) acc) ks acc
  = acc ++ map (fun k => (k, g k)) ks.
Proof.
  revert acc. induction ks as [|k ks IH]; intros acc Hnd Hfresh; simpl.
  - symmetry. apply app_nil_r.
  - inversion Hnd as [|? ? Hout Hnd']. subst.
    rewrite set_fresh by (apply Hfresh; left; reflexivity).
    rewrite IH.
    + rewrite <- app_assoc. reflexivity.
    + exact Hnd'.
    + intros k' Hk' Hin. unfold keys in Hin. rewrite map_app in Hin.
      apply in_app_or in Hin. destruct Hin as [Hin|[Hin|[]]].
      * apply (Hfresh k'); [right; exact Hk'|exact Hin].
      * simpl in Hin. subst. contradiction.
Qed.

Lemma map_keys (V W : Type) (f : string -> W) (m : Dict V) :
  map f (keys m) = map (fun e => f (fst e)) m.
Proof. unfold keys. apply map_map. Qed.

Lemma rowOf_In (m : Matrix) (d : string) (row : Dict Q) :
  NoDup (keys m) -> In (d, row) m -> rowOf m d = row.
Proof. intros Hnd Hin. unfold rowOf. rewrite (@In_get _ d m row Hnd Hin). reflexivity. Qed.

Lemma cell_In (m : Matrix) (d c : string) (row : Dict Q) (a : Q) :
  wellFormedMatrix m -> In (d, row) m -> In (c, a) row -> cell m d c = a.
Proof.
  intros [Hnd Hrows] Hin Hcell. unfold cell.
  rewrite (@In_get _ d m row Hnd Hin).
  rewrite (@In_get _ c row a (Hrows d row Hin) Hcell). reflexivity.
Qed.

(** What [synthesizeCouncilDecision] returns: the proposal with every
    cell replaced by its blend, rows and cells in their places. *)
Lemma synthesizeCouncilDecision_cells (proposed : Matrix) (insights : list Insight) :
  wellFormedMatrix proposed ->
  synthesizeCouncilDecision proposed insights
  = map (fun e =>
           (fst e,
            map (fun ce => (fst ce, synthesizeCell insights (fst e) (fst ce) (snd ce)))
                (snd e)))
        proposed.
Proof.
  intros Hwf. pose proof Hwf as [Hnd Hrows]. unfold synthesizeCouncilDecision.
  rewrite (@fold_set_fresh _
             (fun donorId =>
                fold_left
                  (fun row causeId =>
                     set causeId
                       (synthesizeCell insights donorId causeId
                          (cell proposed donorId causeId)) row)
                  (keys (rowOf proposed donorId)) [])
             (keys proposed) []).
  - rewrite app_nil_l, map_keys.
    apply map_ext_in. intros [d row] Hin. simpl. f_equal.
    rewrite (@rowOf_In proposed d row Hnd Hin).
    rewrite (@fold_set_fresh _
               (fun causeId =>
                  synthesizeCell insights d causeId (cell proposed d causeId))
               (keys row) []).
    + rewrite app_nil_l, map_keys.
      apply map_ext_in. intros [c a] Hcell. simpl.
      rewrite (@cell_In proposed d c row a Hwf Hin Hcell). reflexivity.
    + apply (Hrows d row Hin).
    + intros k _ [].
  - exact Hnd.
  - intros k _ [].
Qed.

Lemma recommends_recommended (d c : string) (i : Insight) :
  recommends d c i
  = match spec_recommended d c i with Some r => truthy r | None => false end.
Proof.
  unfold recommends, spec_recommended.
  destruct (get d (recommendations i)); reflexivity.
Qed.

Lemma recommendation_recommended (d c : string) (i : Insight) :
  recommendation d c i
  = match spec_recommended d c i with Some r => r | None => 0 end.
Proof.
  unfold recommendation, spec_recommended.
  destruct (get d (recommendations i)); reflexivity.
Qed.

Lemma collected_recommendations (insights : list Insight) (d c : string) :
  (forall i r, In i insights -> spec_recommended d c i = Some r -> ~ r == 0) ->
  map (recommendation d c) (filter (recommends d c) insights)
  = spec_collect d c insights.
Proof.
  induction insights as [|i insights IH]; intro Hnz; simpl; [reflexivity|].
  assert (IH' : map (recommendation d c) (filter (recommends d c) insights)
                = spec_collect d c insights).
  { apply IH. intros i' r Hin. apply Hnz. right. exact Hin. }
  rewrite recommends_recommended.
  destruct (spec_recommended d c i) as [r|] eqn:E; [|exact IH'].
  assert (Ht : truthy r = true).
  { apply truthy_true. apply (Hnz i r); [left; reflexivity|exact E]. }
  rewrite Ht. simpl. rewrite recommendation_recommended, E, IH'. reflexivity.
Qed.

(** Where no advisor recommends exactly zero for a cell, the cell is
    blended as the protocol words it. *)
Lemma synthesizeCell_blend (insights : list Insight) (d c : string) (o : Q) :
  (forall i r, In i insights -> spec_recommended d c i = Some r -> ~ r == 0) ->
  synthesizeCell insights d c o == spec_synthesizeCell insights d c o.
Proof.
  intro Hnz. unfold synthesizeCell, spec_synthesizeCell.
  rewrite (collected_recommendations insights d c Hnz).
  destruct (spec_collect d c insights) as [|r recs]; [reflexivity|].
  change (0 <? List.length (r :: recs))%nat with true. cbv iota.
  rewrite sumQ_sumOver. unfold Qdiv. ring.
Qed.

(** C3 fails on the code.  An advisor whose matrix holds the cell with
    the value 0 is filtered out like one that omits the cell: for the
    council [bobCouncil] the code blends the mean of the two remaining
    recommendations (17), where the protocol asks for the mean of all
    three (37/3). *)
Theorem synthesis_drops_zero_recommendation :
  spec_collect "bob" "education" bobCouncil = [0; 20; 20]
  /\ cell (synthesizeCouncilDecision bobProposal bobCouncil) "bob" "education" == 17
  /\ spec_synthesizeCell bobCouncil "bob" "education" 10 == 37 # 3
  /\ ~ cell (synthesizeCouncilDecision bobProposal bobCouncil) "bob" "education"
       == spec_synthesizeCell bobCouncil "bob" "education" 10.
Proof.
  split; [reflexivity|]. split; [vm_compute; reflexivity|].
  split; [vm_compute; reflexivity|].
  intro H. vm_compute in H. discriminate.
Qed.

(** ** Capacity offers and the budget *)

Lemma Demo_evaluate_frame now (st : Demo.Agent) :
  ledgerFrame (Demo.ledger st) (Demo.ledger (Demo.evaluateAllocations now st)).
Proof.
  unfold Demo.evaluateAllocations.
  destruct (Demo.isProcessing st || (List.length (Demo.donors st) =? 0)%nat
            || (List.length (Demo.causes st) =? 0)%nat);
    [apply ledgerFrame_refl|].
  match goal with
  | |- context [if ?b then _ else _] => destruct b
  end.
  - apply ledgerFrame_refl.
  - change (ledgerFrame (Demo.ledger (Demo.with_isProcessing true st))
              (Demo.ledger
                 (Demo.executeAllocations now
                    (calculateAllocations
                       (Demo.donors (Demo.with_isProcessing true st))
                       (Demo.causes (Demo.with_isProcessing true st)))
                    (Demo.with_isProcessing true st)))).
    rewrite Demo_executeAllocations_ledger. apply commit_frame.
Qed.

Lemma Rda_evaluate_frame toFixed2 now (st : Rda.Agent) :
  ledgerFrame (Rda.ledger st) (Rda.ledger (Rda.evaluateAllocations toFixed2 now st)).
Proof.
  unfold Rda.evaluateAllocations.
  destruct (Rda.isProcessing st); [apply ledgerFrame_refl|].
  match goal with
  | |- context [if ?b then _ else _] => destruct b
  end.
  - apply ledgerFrame_refl.
  - change (ledgerFrame (Rda.ledger (Rda.with_isProcessing true st))
              (Rda.ledger
                 (Rda.executeAllocations toFixed2 now
                    (calculateAllocations
                       (Rda.donors (Rda.with_isProcessing true st))
                       (Rda.causes (Rda.with_isProcessing true st)))
                    (Rda.with_isProcessing true st)))).
    rewrite Rda_executeAllocations_ledger. apply commit_frame.
Qed.



(** ** Budget and wallet *)


Lemma related_back (V : Type) (R : V -> V -> Prop) (m m' : Dict V)
    (k : string) (v' : V) :
  related R m m' -> get k m' = Some v' ->
  exists v, get k m = Some v /\ R v v'.
Proof.
  intros [Hkeys Hrel] Hget.
  assert (Hin : In k (keys m)).
  { rewrite <- Hkeys. apply get_Some_keys. exists v'. exact Hget. }
  apply get_Some_keys in Hin. destruct Hin as [v Hv].
  destruct (Hrel k v Hv) as [v2 [Hv2 HR]].
  exists v. split; [exact Hv|]. congruence.
Qed.








(** ** The council session *)







(** ** Well-keyed ledgers *)

Lemma related_weaken (V : Type) (R R' : V -> V -> Prop) (m m' : Dict V) :
  (forall a b, R a b -> R' a b) -> related R m m' -> related R' m m'.
Proof.
  intros HR [Hk H]. split; [exact Hk|].
  intros k v Hv. destruct (H k v Hv) as [v' [Hv' Hr]].
  exists v'. split; [exact Hv'|apply HR; exact Hr].
Qed.

Lemma wellKeyed_related (led led' : Ledger) :
  related (fun d d' => donor_id d' = donor_id d) (fst led) (fst led') ->
  related (fun c c' => cause_id c' = cause_id c) (snd led) (snd led') ->
  wellKeyed led -> wellKeyed led'.
Proof.
  intros Hd Hc [Hn1 [Hn2 [Hid1 Hid2]]].
  assert (Hn1' : NoDup (keys (fst led'))) by (destruct Hd as [E _]; rewrite E; exact Hn1).
  assert (Hn2' : NoDup (keys (snd led'))) by (destruct Hc as [E _]; rewrite E; exact Hn2).
  repeat split; try assumption.
  - intros k d' Hin.
    pose proof (@In_get _ k (fst led') d' Hn1' Hin) as Hget.
    destruct (@related_back _ _ (fst led) (fst led') k d' Hd Hget) as [d [Hg Hr]].
    rewrite Hr. apply Hid1. apply get_In. exact Hg.
  - intros k c' Hin.
    pose proof (@In_get _ k (snd led') c' Hn2' Hin) as Hget.
    destruct (@related_back _ _ (snd led) (snd led') k c' Hc Hget) as [c [Hg Hr]].
    rewrite Hr. apply Hid2. apply get_In. exact Hg.
Qed.

Lemma wellKeyed_frame (led led' : Ledger) :
  ledgerFrame led led' -> wellKeyed led -> wellKeyed led'.
Proof.
  intros [Hd Hc]. apply wellKeyed_related.
  - apply (related_weaken (R := donorFrame)); [|exact Hd].
    intros a b H. apply H.
  - apply (related_weaken (R := causeFrame)); [|exact Hc].
    intros a b H. apply H.
Qed.

Lemma wellKeyed_set_donor (k : string) (d : DonorProfile) (led : Ledger) :
  donor_id d = k -> wellKeyed led -> wellKeyed (set k d (fst led), snd led).
Proof.
  intros Hk [Hn1 [Hn2 [Hid1 Hid2]]]. repeat split; simpl; try assumption.
  - apply NoDup_keys_set. exact Hn1.
  - intros k' d' Hin. apply In_set in Hin.
    destruct Hin as [[E1 E2]|Hin]; [subst; reflexivity|apply Hid1; exact Hin].
Qed.

Lemma wellKeyed_set_cause (k : string) (c : CauseProfile) (led : Ledger) :
  cause_id c = k -> wellKeyed led -> wellKeyed (fst led, set k c (snd led)).
Proof.
  intros Hk [Hn1 [Hn2 [Hid1 Hid2]]]. repeat split; simpl; try assumption.
  - apply NoDup_keys_set. exact Hn2.
  - intros k' c' Hin. apply In_set in Hin.
    destruct Hin as [[E1 E2]|Hin]; [subst; reflexivity|apply Hid2; exact Hin].
Qed.

(** The hypotheses on the maps used above hold in every state the demo
    agent can reach: the fresh agent is well keyed and every operation
    keeps it so. *)
Lemma wellKeyed_preserved (now : Z) (op : Demo.Operation) (st : Demo.Agent) :
  wellKeyed (Demo.ledger Demo.init)
  /\ (wellKeyed (Demo.ledger st) -> wellKeyed (Demo.ledger (Demo.run now op st))).
Proof.
  split.
  { unfold wellKeyed. simpl. repeat split; try constructor; intros ? ? []. }
  assert (Hev : forall t st0, wellKeyed (Demo.ledger st0) ->
                              wellKeyed (Demo.ledger (Demo.evaluateAllocations t st0))).
  { intros t st0. apply wellKeyed_frame. apply Demo_evaluate_frame. }
  assert (Hex : forall t m st0, wellKeyed (Demo.ledger st0) ->
                                wellKeyed (Demo.ledger (Demo.executeAllocations t m st0))).
  { intros t m st0. apply wellKeyed_frame.
    rewrite Demo_executeAllocations_ledger. apply commit_frame. }
  intro Hwf. destruct op as [msg|msg|msg|msg| |m]; simpl.
  - unfold Demo.handleCapacityOffer.
    match goal with
    | |- context [Demo.evaluateAllocations ?t ?s] =>
        change (wellKeyed (Demo.ledger (Demo.evaluateAllocations t s)))
    end.
    apply Hev. apply (@wellKeyed_set_donor _ _ (Demo.ledger st)); [reflexivity|exact Hwf].
  - unfold Demo.handleNeedRegistration.
    match goal with
    | |- context [Demo.evaluateAllocations ?t ?s] =>
        change (wellKeyed (Demo.ledger (Demo.evaluateAllocations t s)))
    end.
    apply Hev. apply (@wellKeyed_set_cause _ _ (Demo.ledger st)); [reflexivity|exact Hwf].
  - unfold Demo.handlePreferenceUpdate.
    destruct (get (Demo.upd_donorId msg) (Demo.donors st)); [|exact Hwf].
    apply Hev. revert Hwf. apply wellKeyed_related; simpl.
    + apply related_modify; intros; reflexivity.
    + apply related_refl. intros; reflexivity.
  - unfold Demo.handleCouncilInsight.
    destruct (negb (Demo.councilActive st)); [exact Hwf|].
    match goal with
    | |- context [if ?b then _ else _] => destruct b
    end; [|exact Hwf].
    match goal with
    | |- context [Demo.executeAllocations ?t ?m ?s] =>
        change (wellKeyed (Demo.ledger (Demo.executeAllocations t m s)))
    end.
    apply Hex. exact Hwf.
  - apply Hev. exact Hwf.
  - apply Hex. exact Hwf.
Qed.

(** * Further properties of the engine *)

(** ** Loops that keep a relation *)

(** A relation between loop states that holds across one iteration of the
    inner loop holds across the two nested loops. *)
Section LoopRelation.
Variable S : Type.
Variable led : S -> Ledger.
Variable pair : string -> S -> string * Q -> S.
Variable row : S -> string * Dict Q -> S.
Variable P : S -> S -> Prop.

Hypothesis P_refl : forall s, P s s.
Hypothesis P_trans : forall a b c, P a b -> P b c -> P a c.
Hypothesis pair_step : forall d s e, P s (pair d s e).
Hypothesis row_unfold :
  forall s d r,
    row s (d, r) =
    match get d (fst (led s)) with
    | None => s
    | Some _ => fold_left (pair d) r s
    end.

Lemma pairs_relation d r s : P s (fold_left (pair d) r s).
Proof.
  revert s. induction r as [|e r IH]; intro s; cbn [fold_left]; [apply P_refl|].
  apply (P_trans (pair_step d s e) (IH (pair d s e))).
Qed.

Lemma rows_relation m s : P s (fold_left row m s).
Proof.
  revert s. induction m as [|[d r] m IH]; intro s; cbn [fold_left]; [apply P_refl|].
  apply P_trans with (b := row s (d, r)); [|apply IH].
  rewrite row_unfold. destruct (get d (fst (led s))); [|apply P_refl].
  apply pairs_relation.
Qed.
End LoopRelation.

(** ** Sums over lists *)

Lemma sumOver_app (A : Type) (f : A -> Q) (l1 l2 : list A) :
  sumOver f (l1 ++ l2) == sumOver f l1 + sumOver f l2.
Proof.
  induction l1 as [|x l1 IH]; simpl; [lra|]. rewrite IH. lra.
Qed.

(** ** The audit trail of a commit *)

Lemma DemoAudit_refl (s : Demo.Loop) : DemoAudit s s.
Proof.
  unfold DemoAudit. repeat split. exists []. rewrite !app_nil_r. simpl.
  repeat split; [lia|constructor].
Qed.

Lemma DemoAudit_trans (a b c : Demo.Loop) :
  DemoAudit a b -> DemoAudit b c -> DemoAudit a c.
Proof.
  intros [A1 [A2 [n1 [A3 [A4 [A5 A6]]]]]] [B1 [B2 [n2 [B3 [B4 [B5 B6]]]]]].
  unfold DemoAudit. split; [congruence|]. split; [congruence|].
  exists (n1 ++ n2). rewrite B3, B4, A3, A4, B5, A5, !app_assoc, length_app.
  repeat split; [lia|]. apply Forall_app. split; [exact A6|].
  rewrite A1, A2 in B6. exact B6.
Qed.

Lemma Demo_pair_audit now m d (loop : Demo.Loop) e :
  DemoAudit loop (Demo.executePair now m d loop e).
Proof.
  destruct loop as [st ex]. destruct e as [c a].
  unfold Demo.executePair.
  destruct (get d (Demo.donors st)) as [dv|] eqn:Ed; [|apply DemoAudit_refl].
  destruct (get c (Demo.causes st)) as [cv|] eqn:Ec; [|apply DemoAudit_refl].
  destruct (Qle_bool a 0) eqn:Ea; [apply DemoAudit_refl|].
  apply Qle_bool_false in Ea.
  unfold DemoAudit.
  cbn [fst snd Demo.send Demo.with_history Demo.with_causes Demo.with_donors
       Demo.donors Demo.causes Demo.allocationHistory Demo.sent].
  split; [apply keys_modify|]. split; [apply keys_modify|].
  eexists. split; [reflexivity|]. split; [reflexivity|].
  split; [rewrite !length_app; simpl; lia|].
  constructor; [|constructor]. simpl. repeat split.
  - exact Ea.
  - apply get_Some_keys. exists dv. exact Ed.
  - apply get_Some_keys. exists cv. exact Ec.
Qed.

Lemma Demo_transfers_audit now m (st : Demo.Agent) :
  DemoAudit (st, []) (Demo.executeTransfers now m st).
Proof.
  unfold Demo.executeTransfers.
  apply (@rows_relation Demo.Loop (fun l => Demo.ledger (fst l))
           (Demo.executePair now m) (Demo.executeRow now m) DemoAudit).
  - apply DemoAudit_refl.
  - apply DemoAudit_trans.
  - intros. apply Demo_pair_audit.
  - intros. apply Demo_row_unfold.
Qed.





(** ** The history across the operations of the demo agent *)


Lemma Demo_execute_trail now m (st : Demo.Agent) :
  keys (Demo.donors (Demo.executeAllocations now m st)) = keys (Demo.donors st)
  /\ keys (Demo.causes (Demo.executeAllocations now m st)) = keys (Demo.causes st)
  /\ exists new,
      Demo.allocationHistory (Demo.executeAllocations now m st)
      = Demo.allocationHistory st ++ new
      /\ Forall
           (fun e =>
              0 < Demo.amount e
              /\ In (Demo.donorId e) (keys (Demo.donors st))
              /\ In (Demo.causeId e) (keys (Demo.causes st)))
           new.
Proof.
  destruct (Demo_transfers_audit now m st) as [K1 [K2 [new [E1 [E2 [E3 E4]]]]]].
  unfold Demo.executeAllocations.
  destruct (Demo.executeTransfers now m st) as [st' ex].
  cbn [fst snd Demo.send Demo.with_causes Demo.donors Demo.causes
       Demo.allocationHistory] in *.
  split; [exact K1|]. split.
  - rewrite <- K2. unfold resetCycle, keys. rewrite map_map. reflexivity.
  - exists new. split; [exact E2|exact E4].
Qed.

Lemma Demo_evaluate_trail now (st : Demo.Agent) :
  keys (Demo.donors (Demo.evaluateAllocations now st)) = keys (Demo.donors st)
  /\ keys (Demo.causes (Demo.evaluateAllocations now st)) = keys (Demo.causes st)
  /\ exists new,
      Demo.allocationHistory (Demo.evaluateAllocations now st)
      = Demo.allocationHistory st ++ new
      /\ Forall
           (fun e =>
              0 < Demo.amount e
              /\ In (Demo.donorId e) (keys (Demo.donors st))
              /\ In (Demo.causeId e) (keys (Demo.causes st)))
           new.
Proof.
  assert (Hsame : keys (Demo.donors st) = keys (Demo.donors st)
                  /\ keys (Demo.causes st) = keys (Demo.causes st)
                  /\ exists new,
                      Demo.allocationHistory st = Demo.allocationHistory st ++ new
                      /\ Forall
                           (fun e =>
                              0 < Demo.amount e
                              /\ In (Demo.donorId e) (keys (Demo.donors st))
                              /\ In (Demo.causeId e) (keys (Demo.causes st)))
                           new).
  { repeat split. exists []. rewrite app_nil_r. split; [reflexivity|constructor]. }
  unfold Demo.evaluateAllocations.
  destruct (Demo.isProcessing st || (List.length (Demo.donors st) =? 0)%nat
            || (List.length (Demo.causes st) =? 0)%nat); [exact Hsame|].
  match goal with
  | |- context [if ?b then _ else _] => destruct b
  end; [exact Hsame|].
  match goal with
  | |- context [Demo.executeAllocations ?t ?b ?s] =>
      pose proof (Demo_execute_trail t b s) as H
  end.
  exact H.
Qed.






(** X4. The history of the demo agent is append-only: whatever the
    operation, the history afterwards is the history before followed by
    the events the operation executed. *)
Theorem history_append_only (now : Z) (op : Demo.Operation) (st : Demo.Agent) :
  exists new,
    Demo.allocationHistory (Demo.run now op st) = Demo.allocationHistory st ++ new.
Proof.
  assert (Hev : forall t s, exists new,
             Demo.allocationHistory (Demo.evaluateAllocations t s)
             = Demo.allocationHistory s ++ new).
  { intros t s. destruct (Demo_evaluate_trail t s) as [_ [_ [new [E _]]]].
    exists new. exact E. }
  assert (Hex : forall t b s, exists new,
             Demo.allocationHistory (Demo.executeAllocations t b s)
             = Demo.allocationHistory s ++ new).
  { intros t b s. destruct (Demo_execute_trail t b s) as [_ [_ [new [E _]]]].
    exists new. exact E. }
  assert (Hnone : exists new : list Demo.AllocationEvent,
             Demo.allocationHistory st = Demo.allocationHistory st ++ new).
  { exists []. symmetry. apply app_nil_r. }
  destruct op as [msg|msg|msg|msg| |m]; simpl.
  - unfold Demo.handleCapacityOffer.
    match goal with
    | |- context [Demo.evaluateAllocations ?t ?s] =>
        destruct (Hev t s) as [new E]
    end.
    exists new. exact E.
  - unfold Demo.handleNeedRegistration.
    match goal with
    | |- context [Demo.evaluateAllocations ?t ?s] =>
        destruct (Hev t s) as [new E]
    end.
    exists new. exact E.
  - unfold Demo.handlePreferenceUpdate.
    destruct (get (Demo.upd_donorId msg) (Demo.donors st)); [|exact Hnone].
    match goal with
    | |- context [Demo.evaluateAllocations ?t ?s] =>
        destruct (Hev t s) as [new E]
    end.
    exists new. exact E.
  - unfold Demo.handleCouncilInsight.
    destruct (negb (Demo.councilActive st)); [exact Hnone|].
    match goal with
    | |- context [if ?b then _ else _] => destruct b
    end; [|exact Hnone].
    match goal with
    | |- context [Demo.executeAllocations ?t ?b ?s] =>
        destruct (Hex t b s) as [new E]
    end.
    exists new. exact E.
  - apply Hev.
  - apply Hex.
Qed.

(** ** Received-this-cycle and priorities between operations *)








Lemma clamp_unit (p : Q) : 0 <= js_max 0 (js_min 1 p) /\ js_max 0 (js_min 1 p) <= 1.
Proof.
  unfold js_max, js_min.
  destruct (Qle_bool 1 p) eqn:E1.
  - destruct (Qle_bool 0 1) eqn:E2; split; try lra.
  - apply Qle_bool_false in E1.
    destruct (Qle_bool 0 p) eqn:E2.
    + apply Qle_bool_iff in E2. split; lra.
    + split; lra.
Qed.

Lemma prioritiesClamped_frame (cs cs' : Dict CauseProfile) :
  related causeFrame cs cs' -> prioritiesClamped cs -> prioritiesClamped cs'.
Proof.
  intros Hrel H k c' Hget.
  destruct (@related_back _ causeFrame cs cs' k c' Hrel Hget)
    as [c [Hc [_ [_ [_ Hp]]]]].
  rewrite Hp. apply (H k c Hc).
Qed.

Lemma prioritiesClamped_set (k : string) (c : CauseProfile)
    (causes : Dict CauseProfile) :
  0 <= priority c /\ priority c <= 1 ->
  prioritiesClamped causes -> prioritiesClamped (set k c causes).
Proof.
  intros Hc H k' c' Hget. destruct (string_dec k k') as [E|E].
  - subst. rewrite get_set_eq in Hget. inversion Hget. subst. exact Hc.
  - rewrite get_set_neq in Hget by exact E. apply (H k' c' Hget).
Qed.

Lemma Demo_evaluate_priorities now (st : Demo.Agent) :
  prioritiesClamped (Demo.causes st) ->
  prioritiesClamped (Demo.causes (Demo.evaluateAllocations now st)).
Proof.
  destruct (Demo_evaluate_frame now st) as [_ Hc].
  apply (prioritiesClamped_frame Hc).
Qed.

Lemma Demo_execute_priorities now m (st : Demo.Agent) :
  prioritiesClamped (Demo.causes st) ->
  prioritiesClamped (Demo.causes (Demo.executeAllocations now m st)).
Proof.
  pose proof (commit_frame m (Demo.ledger st)) as Hf.
  rewrite <- (Demo_executeAllocations_ledger now m st) in Hf.
  destruct Hf as [_ Hc]. apply (prioritiesClamped_frame Hc).
Qed.

(** X6. Whatever priority a need is registered with, the ledger only
    ever holds priorities in [0, 1]: every operation of the demo agent
    keeps all priorities in that interval, and so does the registration
    handler of [ResourceDistributorAgent]. *)
Theorem priorities_stay_clamped
    (toFixed2 : Q -> string) (now : Z) (op : Demo.Operation) (st : Demo.Agent)
    (msg : Rda.NeedRegistration) (rst : Rda.Agent) :
  (prioritiesClamped (Demo.causes st) ->
   prioritiesClamped (Demo.causes (Demo.run now op st)))
  /\ (prioritiesClamped (Rda.causes rst) ->
      prioritiesClamped
        (Rda.causes (fst (Rda.handleNeedRegistration toFixed2 now msg rst)))).
Proof.
  split; intro H.
  - destruct op as [m|m|m|m| |m]; simpl.
    + unfold Demo.handleCapacityOffer.
      match goal with
      | |- context [Demo.evaluateAllocations ?t ?s] =>
          change (prioritiesClamped (Demo.causes (Demo.evaluateAllocations t s)))
      end.
      apply Demo_evaluate_priorities. exact H.
    + unfold Demo.handleNeedRegistration.
      match goal with
      | |- context [Demo.evaluateAllocations ?t ?s] =>
          change (prioritiesClamped (Demo.causes (Demo.evaluateAllocations t s)))
      end.
      apply Demo_evaluate_priorities. simpl.
      apply prioritiesClamped_set; [apply clamp_unit|exact H].
    + unfold Demo.handlePreferenceUpdate.
      destruct (get (Demo.upd_donorId m) (Demo.donors st)); [|exact H].
      apply Demo_evaluate_priorities. exact H.
    + unfold Demo.handleCouncilInsight.
      destruct (negb (Demo.councilActive st)); [exact H|].
      match goal with
      | |- context [if ?b then _ else _] => destruct b
      end; [|exact H].
      match goal with
      | |- context [Demo.executeAllocations ?t ?b ?s] =>
          apply (@Demo_execute_priorities t b s)
      end.
      exact H.
    + apply Demo_evaluate_priorities. exact H.
    + apply Demo_execute_priorities. exact H.
  - unfold Rda.handleNeedRegistration. cbn [fst].
    match goal with
    | |- context [Rda.evaluateAllocations ?f ?t ?s] =>
        destruct (Rda_evaluate_frame f t s) as [_ Hc]
    end.
    apply (prioritiesClamped_frame Hc). simpl.
    apply prioritiesClamped_set; [apply clamp_unit|exact H].
Qed.

Lemma priorities_stay_clamped_witness :
  prioritiesClamped
    (Demo.causes
       (Demo.run 2 (Demo.RegisterNeed (Demo.mkNeed "food" None 15 (Some 7)))
          Demo.init))
  /\ prioritiesClamped
       (Rda.causes
          (fst (Rda.handleNeedRegistration (fun _ => EmptyString) 2
                  (Rda.mkNeed "food" None 15 (Some (-3)) None) Rda.init))).
Proof.
  split.
  - apply (proj1 (priorities_stay_clamped (fun _ => EmptyString) 2
                    (Demo.RegisterNeed (Demo.mkNeed "food" None 15 (Some 7)))
                    Demo.init (Rda.mkNeed "food" None 15 (Some (-3)) None) Rda.init)).
    intros k c H. discriminate.
  - apply (proj2 (priorities_stay_clamped (fun _ => EmptyString) 2
                    (Demo.RegisterNeed (Demo.mkNeed "food" None 15 (Some 7)))
                    Demo.init (Rda.mkNeed "food" None 15 (Some (-3)) None) Rda.init)).
    intros k c H. discriminate.
Defined.

(** ** Small proposals always go to the council *)

Lemma sumOver_flat_map (A B : Type) (f : B -> Q) (g : A -> list B) (l : list A) :
  sumOver f (flat_map g l) == sumOver (fun x => sumOver f (g x)) l.
Proof.
  induction l as [|x l IH]; simpl; [reflexivity|].
  rewrite sumOver_app, IH. reflexivity.
Qed.

Lemma volume_cells (m : Matrix) :
  spec_totalVolume m == sumOver (fun a => a) (cells m).
Proof.
  unfold spec_totalVolume, cells. rewrite sumOver_flat_map.
  apply sumOver_ext. intros row _. unfold rowTotal, values.
  rewrite sumOver_map. reflexivity.
Qed.

Lemma sumOver_bounded (l : list Q) (b : Q) :
  (forall a, In a l -> a <= b) ->
  sumOver (fun a => a) l <= inject_Z (Z.of_nat (List.length l)) * b.
Proof.
  induction l as [|x l IH]; intro H.
  - change (0 <= 0 * b). lra.
  - assert (Hx : x <= b) by (apply H; left; reflexivity).
    assert (Hl : sumOver (fun a => a) l <= inject_Z (Z.of_nat (List.length l)) * b).
    { apply IH. intros a Ha. apply H. right. exact Ha. }
    cbn [sumOver List.length]. rewrite Nat2Z.inj_succ. unfold Z.succ.
    rewrite inject_Z_plus. change (inject_Z 1) with 1. lra.
Qed.

Lemma existsb_false (A : Type) (f : A -> bool) (l : list A) :
  existsb f l = false -> forall x, In x l -> f x = false.
Proof.
  intros H x Hin. destruct (f x) eqn:E; [|reflexivity].
  assert (existsb f l = true) by (apply existsb_exists; exists x; split; assumption).
  congruence.
Qed.

Lemma few_positive_cells_concentrated (m : Matrix) :
  (forall a, In a (cells m) -> 0 < a) ->
  cells m <> [] ->
  (List.length (cells m) <= 3)%nat ->
  detectMajorReallocation m = true.
Proof.
  intros Hpos Hne Hfew.
  destruct (detectMajorReallocation m) eqn:E; [reflexivity|exfalso].
  unfold detectMajorReallocation in E.
  pose proof (totalAllocation_volume m) as HT.
  pose proof (volume_cells m) as HV.
  assert (Hsmall : forall a, In a (cells m) -> a <= totalAllocation m * 0.3).
  { intros a Ha. unfold cells in Ha. apply in_flat_map in Ha.
    destruct Ha as [row [Hrow Ha]].
    pose proof (existsb_false _ _ E (snd row)) as H1.
    assert (Hin : In (snd row) (values m)) by (unfold values; apply in_map; exact Hrow).
    specialize (H1 Hin).
    pose proof (existsb_false _ _ H1 a Ha) as H2. cbv beta in H2.
    apply Qltb_false in H2. exact H2. }
  pose proof (sumOver_bounded (cells m) Hsmall) as Hsum.
  assert (Htotal : 0 < sumOver (fun a => a) (cells m)).
  { destruct (cells m) as [|x l] eqn:Ec; [congruence|].
    assert (0 < x) by (apply Hpos; left; reflexivity).
    assert (0 <= sumOver (fun a => a) l).
    { apply sumOver_nonneg. intros a Ha.
      apply Qlt_le_weak. apply Hpos. right. exact Ha. }
    simpl. lra. }
  assert (Hn : inject_Z (Z.of_nat (List.length (cells m))) <= 3).
  { change 3 with (inject_Z 3). rewrite <- Zle_Qle. lia. }
  assert (Hprod : inject_Z (Z.of_nat (List.length (cells m))) * (totalAllocation m * 0.3)
                  <= 3 * (totalAllocation m * 0.3)).
  { apply Qmult_le_compat_r; [exact Hn|]. lra. }
  lra.
Qed.

Lemma calculateAllocations_cells_positive (donors : Dict DonorProfile)
    (causes : Dict CauseProfile) (a : Q) :
  In a (cells (calculateAllocations donors causes)) -> 0 < a.
Proof.
  intro H. unfold cells in H. apply in_flat_map in H.
  destruct H as [[d row] [Hrow Ha]]. simpl in Ha.
  unfold values in Ha. apply in_map_iff in Ha.
  destruct Ha as [[c a'] [Ea Hcell]]. simpl in Ea. subst a'.
  apply calculateAllocations_entries in Hrow.
  destruct Hrow as [[]|[donor [_ Hr]]]. subst row.
  apply donorAllocations_entries in Hcell.
  destruct Hcell as [cause [_ [_ [Hpos _]]]]. exact Hpos.
Qed.

(** X7. A proposal of one, two or three cells always counts as
    concentrated, whatever its amounts: one of the cells is at least a
    third of the volume, which is above the 30% mark.  So an evaluation
    cycle of the demo agent whose proposal has fewer than four cells
    never executes it directly; it convenes the council, even at
    confidence 1. *)
Theorem small_proposals_go_to_council (now : Z) (st : Demo.Agent) :
  Demo.isProcessing st = false ->
  Demo.donors st <> [] ->
  Demo.causes st <> [] ->
  let batch := calculateAllocations (Demo.donors st) (Demo.causes st) in
  let conf := calculateConfidence (Demo.causes st) batch in
  cells batch <> [] ->
  (List.length (cells batch) <= 3)%nat ->
  detectMajorReallocation batch = true
  /\ Demo.evaluateAllocations now st
     = Demo.with_isProcessing false
         (Demo.conveneCouncil now batch conf (Demo.with_isProcessing true st)).
Proof.
  intros Hidle Hd Hc batch conf Hne Hfew.
  assert (Hmajor : detectMajorReallocation batch = true).
  { apply few_positive_cells_concentrated; try assumption.
    intros a Ha. apply (calculateAllocations_cells_positive _ _ _ Ha). }
  split; [exact Hmajor|].
  assert (Hguard : Demo.isProcessing st
                   || (List.length (Demo.donors st) =? 0)%nat
                   || (List.length (Demo.causes st) =? 0)%nat = false).
  { rewrite Hidle. destruct (Demo.donors st); [congruence|].
    destruct (Demo.causes st); [congruence|]. reflexivity. }
  unfold Demo.evaluateAllocations. rewrite Hguard.
  change (calculateAllocations
            (Demo.donors (Demo.with_isProcessing true st))
            (Demo.causes (Demo.with_isProcessing true st))) with batch.
  rewrite Hmajor, orb_true_r. reflexivity.
Qed.

Lemma small_proposals_go_to_council_witness :
  detectMajorReallocation
    (calculateAllocations (Demo.donors afterAnn) (Demo.causes afterAnn)) = true
  /\ Demo.evaluateAllocations 9 afterAnn
     = Demo.with_isProcessing false
         (Demo.conveneCouncil 9
            (calculateAllocations (Demo.donors afterAnn) (Demo.causes afterAnn))
            (calculateConfidence (Demo.causes afterAnn)
               (calculateAllocations (Demo.donors afterAnn) (Demo.causes afterAnn)))
            (Demo.with_isProcessing true afterAnn)).
Proof.
  destruct (small_proposals_go_to_council 9 afterAnn) as [H1 H2].
  - vm_compute. reflexivity.
  - vm_compute. discriminate.
  - vm_compute. discriminate.
  - vm_compute. discriminate.
  - vm_compute. lia.
  - split; [exact H1|exact H2].
Defined.

(** ** What a commit takes from a donor *)

Lemma calculateAllocations_keys_NoDup (donors : Dict DonorProfile)
    (causes : Dict CauseProfile) :
  NoDup (keys (calculateAllocations donors causes)).
Proof.
  unfold calculateAllocations.
  assert (H : forall (l : Dict DonorProfile) (acc : Matrix),
             NoDup (keys acc) ->
             NoDup (keys (fold_left
                            (fun allocations entry =>
                               let '(donorId, donor) := entry in
                               if Qle_bool (allocationBudget donor) 0 then allocations
                               else set donorId (donorAllocations causes donor)
                                      allocations)
                            l acc))).
  { induction l as [|[k d] l IH]; intros acc Hacc; cbn [fold_left]; [exact Hacc|].
    apply IH. destruct (Qle_bool (allocationBudget d) 0); [exact Hacc|].
    apply NoDup_keys_set. exact Hacc. }
  apply H. constructor.
Qed.

(** ** Synthesis on the ledger's own proposal *)

Lemma get_map_keyed (V W : Type) (g : string -> V -> W) (k : string) (m : Dict V) :
  get k (map (fun e => (fst e, g (fst e) (snd e))) m) = option_map (g k) (get k m).
Proof.
  induction m as [|[k0 v0] m IH]; simpl; [reflexivity|].
  destruct (String.eqb k0 k) eqn:E; [|exact IH].
  apply String.eqb_eq in E. subst. reflexivity.
Qed.


Lemma allocateCause_keys_NoDup (donor : DonorProfile) (T : Q)
    (l : list CauseProfile) (row : Dict Q) :
  NoDup (keys row) -> NoDup (keys (fold_left (allocateCause donor T) l row)).
Proof.
  revert row. induction l as [|c l IH]; intros row H; cbn [fold_left]; [exact H|].
  apply IH. unfold allocateCause.
  match goal with
  | |- context [if ?b then _ else _] => destruct b
  end; [apply NoDup_keys_set; exact H|exact H].
Qed.

Lemma donorAllocations_keys_NoDup (causes : Dict CauseProfile) (donor : DonorProfile) :
  NoDup (keys (donorAllocations causes donor)).
Proof.
  unfold donorAllocations.
  destruct (List.length (filter (relevant donor) (values causes)) =? 0)%nat;
    [constructor|].
  match goal with
  | |- context [if ?b then _ else _] => destruct b
  end; [constructor|].
  apply allocateCause_keys_NoDup. constructor.
Qed.

Lemma calculateAllocations_wellFormed (donors : Dict DonorProfile)
    (causes : Dict CauseProfile) :
  wellFormedMatrix (calculateAllocations donors causes).
Proof.
  split; [apply calculateAllocations_keys_NoDup|].
  intros d row Hin. apply calculateAllocations_entries in Hin.
  destruct Hin as [[]|[donor [_ Hr]]]. subst row.
  apply donorAllocations_keys_NoDup.
Qed.


(** ** Preference updates *)

Lemma get_spread (V : Type) (a b : Dict V) (k : string) :
  NoDup (keys b) ->
  get k (spread a b)
  = match get k b with
    | Some v => Some v
    | None => get k a
    end.
Proof.
  unfold spread. revert a. induction b as [|[k0 v0] b IH]; intros a Hnd;
    cbn [fold_left]; [reflexivity|].
  inversion Hnd as [|? ? Hout Hnd']. subst.
  rewrite (IH _ Hnd'). cbn [fst snd get].
  destruct (String.eqb k0 k) eqn:E.
  - apply String.eqb_eq in E. subst.
    apply get_None_keys in Hout. rewrite Hout. apply get_set_eq.
  - apply String.eqb_neq in E.
    rewrite (get_set_neq v0 a E). reflexivity.
Qed.

(** X10. A preference update merges into the donor's preferences and
    survives the evaluation it triggers: for a known donor, afterwards
    each cause named in the update has the weight of the update and every
    other cause the weight it had; for an unknown donor the whole state
    is left as it was. *)
Theorem preference_update_merges
    (now : Z) (msg : Demo.PreferenceUpdate) (st : Demo.Agent) :
  NoDup (keys (Demo.upd_preferences msg)) ->
  match get (Demo.upd_donorId msg) (Demo.donors st) with
  | Some donor =>
      exists donor',
        get (Demo.upd_donorId msg)
          (Demo.donors (Demo.handlePreferenceUpdate now msg st)) = Some donor'
        /\ forall causeId,
            get causeId (preferences donor')
            = match get causeId (Demo.upd_preferences msg) with
              | Some w => Some w
              | None => get causeId (preferences donor)
              end
  | None => Demo.handlePreferenceUpdate now msg st = st
  end.
Proof.
  intro Hnd. unfold Demo.handlePreferenceUpdate.
  destruct (get (Demo.upd_donorId msg) (Demo.donors st)) as [donor|] eqn:E;
    [|reflexivity].
  match goal with
  | |- context [Demo.evaluateAllocations ?t ?s] =>
      destruct (Demo_evaluate_frame t s) as [[_ Hd] _];
      destruct (Hd (Demo.upd_donorId msg)
                  (Demo.setPreferences
                     (spread (preferences donor) (Demo.upd_preferences msg)) donor))
        as [donor' [Hget [_ [Hp _]]]]
  end.
  { simpl. rewrite get_modify_eq, E. reflexivity. }
  exists donor'. split; [exact Hget|].
  intro causeId. rewrite Hp. simpl. apply get_spread. exact Hnd.
Qed.

Lemma preference_update_merges_witness :
  exists donor',
    get "ann"
      (Demo.donors
         (Demo.handlePreferenceUpdate 9
            (Demo.mkPrefs "ann" [("food"%string, 0.25); ("arts"%string, 0.5)])
            twoByTwo))
    = Some donor'
    /\ forall causeId,
        get causeId (preferences donor')
        = match get causeId [("food"%string, 0.25); ("arts"%string, 0.5)] with
          | Some w => Some w
          | None => get causeId evenPreferences
          end.
Proof.
  apply (@preference_update_merges 9
           (Demo.mkPrefs "ann" [("food"%string, 0.25); ("arts"%string, 0.5)])
           twoByTwo).
  simpl. repeat constructor; simpl; intuition discriminate.
Defined.

(** ** The built-in specialists *)

(** An object filled key by key, for distinct keys, while a state is
    threaded through: every key ends up with the value computed for it at
    some state, and the other keys keep what they had. *)
Lemma fold_set_threaded (V St : Type) (h : St -> string -> V * St)
    (ks : list string) :
  NoDup ks ->
  forall (acc : Dict V) (s0 : St),
    (forall k, In k ks ->
       exists s,
         get k (fst (fold_left
                       (fun (a : Dict V * St) k0 =>
                          (set k0 (fst (h (snd a) k0)) (fst a), snd (h (snd a) k0)))
                       ks (acc, s0)))
         = Some (fst (h s k)))
    /\ (forall k, ~ In k ks ->
          get k (fst (fold_left
                        (fun (a : Dict V * St) k0 =>
                           (set k0 (fst (h (snd a) k0)) (fst a), snd (h (snd a) k0)))
                        ks (acc, s0)))
          = get k acc).
Proof.
  induction ks as [|k0 ks IH]; intros Hnd acc s0.
  - split; [intros k []|]. intros k _. reflexivity.
  - inversion Hnd as [|? ? Hout Hnd']. subst. cbn [fold_left fst snd].
    destruct (IH Hnd' (set k0 (fst (h s0 k0)) acc) (snd (h s0 k0))) as [IH1 IH2].
    split.
    + intros k [E|Hin].
      * subst. exists s0. rewrite (IH2 k Hout). apply get_set_eq.
      * apply IH1. exact Hin.
    + intros k Hk. rewrite IH2 by (intro; apply Hk; right; assumption).
      apply get_set_neq. intro E. apply Hk. left. exact E.
Qed.

Lemma In_keys (V : Type) (k : string) (v : V) (m : Dict V) :
  In (k, v) m -> In k (keys m).
Proof. intro H. unfold keys. change k with (fst (k, v)). apply in_map. exact H. Qed.

(** The recommendation an insight built cell by cell holds for a cell of
    the proposal: the proposed amount times the adjustment drawn for it. *)
Lemma advised_cell (St : Type) (adjust : St -> string -> Q * St) (s0 : St)
    (m : Matrix) (d c : string) (row : Dict Q) (a : Q) :
  wellFormedMatrix m -> In (d, row) m -> In (c, a) row ->
  exists s,
    match
      get d
        (fst (fold_left
                (fun (acc : Matrix * St) donorId =>
                   (set donorId
                      (fst (fold_left
                              (fun (inner : Dict Q * St) causeId =>
                                 (set causeId
                                    (cell m donorId causeId
                                     * fst (adjust (snd inner) causeId))
                                    (fst inner),
                                  snd (adjust (snd inner) causeId)))
                              (keys (rowOf m donorId)) ([], snd acc)))
                      (fst acc),
                    snd (fold_left
                           (fun (inner : Dict Q * St) causeId =>
                              (set causeId
                                 (cell m donorId causeId
                                  * fst (adjust (snd inner) causeId))
                                 (fst inner),
                               snd (adjust (snd inner) causeId)))
                           (keys (rowOf m donorId)) ([], snd acc))))
                (keys m) ([], s0)))
    with
    | Some r => get c r
    | None => None
    end = Some (a * fst (adjust s c)).
Proof.
  intros Hwf Hrow Hcell. pose proof Hwf as [Hnd Hrows].
  pose (rowFold := fun (s : St) (donorId : string) =>
          fold_left
            (fun (inner : Dict Q * St) causeId =>
               (set causeId
                  (cell m donorId causeId * fst (adjust (snd inner) causeId))
                  (fst inner),
                snd (adjust (snd inner) causeId)))
            (keys (rowOf m donorId)) ([], s)).
  destruct (@fold_set_threaded (Dict Q) St
              (fun s donorId => (fst (rowFold s donorId), snd (rowFold s donorId)))
              (keys m) Hnd [] s0) as [Houter _].
  destruct (Houter d (@In_keys _ d row m Hrow)) as [s1 Hd].
  destruct (@fold_set_threaded Q St
              (fun s causeId =>
                 (cell m d causeId * fst (adjust s causeId), snd (adjust s causeId)))
              (keys row) (Hrows d row Hrow) [] s1) as [Hinner _].
  destruct (Hinner c (@In_keys _ c a row Hcell)) as [s2 Hc].
  exists s2.
  match goal with
  | |- match ?G with _ => _ end = _ =>
      assert (E : G = Some (fst (rowFold s1 d))) by exact Hd; rewrite E
  end.
  unfold rowFold. rewrite (@rowOf_In m d row Hnd Hrow).
  match goal with
  | |- ?G = _ =>
      assert (E2 : G = Some (cell m d c * fst (adjust s2 c))) by exact Hc;
      rewrite E2
  end.
  rewrite (@cell_In m d c row a Hwf Hrow Hcell). reflexivity.
Qed.

Lemma synthesized_cell (proposed : Matrix) (insights : list Insight)
    (d c : string) (row : Dict Q) (a : Q) :
  wellFormedMatrix proposed -> In (d, row) proposed -> In (c, a) row ->
  cell (synthesizeCouncilDecision proposed insights) d c
  = synthesizeCell insights d c a.
Proof.
  intros Hwf Hin Hcell. pose proof Hwf as [Hnd Hrows].
  rewrite (synthesizeCouncilDecision_cells insights Hwf).
  unfold cell.
  match goal with
  | |- match ?G with _ => _ end = _ =>
      assert (E1 : G = option_map
                         (fun r =>
                            map (fun ce =>
                                   (fst ce,
                                    synthesizeCell insights d (fst ce) (snd ce))) r)
                         (get d proposed))
        by exact (@get_map_keyed (Dict Q) (Dict Q)
                    (fun k r =>
                       map (fun ce =>
                              (fst ce, synthesizeCell insights k (fst ce) (snd ce))) r)
                    d proposed);
      rewrite E1
  end.
  rewrite (@In_get _ d proposed row Hnd Hin). cbn [option_map].
  match goal with
  | |- match ?G with _ => _ end = _ =>
      assert (E2 : G = option_map (synthesizeCell insights d c) (get c row))
        by exact (@get_map_keyed Q Q (fun k v => synthesizeCell insights d k v) c row);
      rewrite E2
  end.
  rewrite (@In_get _ c row a (Hrows d row Hin) Hcell). reflexivity.
Qed.

(** The same for an insight whose adjustment depends on the cause alone. *)
Lemma advised_cell_plain (adjust : string -> Q) (m : Matrix) (d c : string)
    (row : Dict Q) (a : Q) :
  wellFormedMatrix m -> In (d, row) m -> In (c, a) row ->
  match
    get d
      (fold_left
         (fun recommendations donorId =>
            set donorId
              (fold_left
                 (fun r causeId => set causeId (cell m donorId causeId * adjust causeId) r)
                 (keys (rowOf m donorId)) [])
              recommendations)
         (keys m) [])
  with
  | Some r => get c r
  | None => None
  end = Some (a * adjust c).
Proof.
  intros Hwf Hrow Hcell.
  destruct (@advised_cell unit (fun _ causeId => (adjust causeId, tt)) tt
              m d c row a Hwf Hrow Hcell) as [s H].
  cbn [fst snd] in H. rewrite <- H. clear H.
  assert (Hinner : forall donorId (u : unit),
             fold_left
               (fun (inner : Dict Q * unit) causeId =>
                  (set causeId (cell m donorId causeId * adjust causeId) (fst inner), tt))
               (keys (rowOf m donorId)) ([], u)
             = (fold_left
                  (fun r causeId =>
                     set causeId (cell m donorId causeId * adjust causeId) r)
                  (keys (rowOf m donorId)) [], u)).
  { intros donorId u. generalize (@nil (string * Q)).
    induction (keys (rowOf m donorId)) as [|k ks IH]; intro acc; cbn [fold_left];
      [reflexivity|].
    cbn [fst]. destruct u. apply IH. }
  assert (Houter : forall (ks : list string) (acc : Matrix) (u : unit),
             fst (fold_left
                    (fun (a0 : Matrix * unit) donorId =>
                       (set donorId
                          (fst (fold_left
                                  (fun (inner : Dict Q * unit) causeId =>
                                     (set causeId
                                        (cell m donorId causeId * adjust causeId)
                                        (fst inner), tt))
                                  (keys (rowOf m donorId)) ([], snd a0)))
                          (fst a0),
                        snd (fold_left
                               (fun (inner : Dict Q * unit) causeId =>
                                  (set causeId
                                     (cell m donorId causeId * adjust causeId)
                                     (fst inner), tt))
                               (keys (rowOf m donorId)) ([], snd a0))))
                    ks (acc, u))
             = fold_left
                 (fun recommendations donorId =>
                    set donorId
                      (fold_left
                         (fun r causeId =>
                            set causeId (cell m donorId causeId * adjust causeId) r)
                         (keys (rowOf m donorId)) [])
                      recommendations)
                 ks acc).
  { induction ks as [|k ks IH]; intros acc u; cbn [fold_left]; [reflexivity|].
    cbn [fst snd]. rewrite Hinner. cbn [fst snd]. apply IH. }
  rewrite <- (Houter (keys m) [] tt). reflexivity.
Qed.

Lemma fold_left_ext (A B : Type) (f g : A -> B -> A) (l : list B) (a : A) :
  (forall x y, f x y = g x y) -> fold_left f l a = fold_left g l a.
Proof.
  intro H. revert a. induction l as [|y l IH]; intro a; cbn [fold_left];
    [reflexivity|].
  rewrite H. apply IH.
Qed.

Lemma ethics_recommends (m : Matrix) (d c : string) (row : Dict Q) (a : Q) :
  wellFormedMatrix m -> In (d, row) m -> In (c, a) row ->
  spec_recommended d c (Demo.generateEthicsInsight m)
  = Some (a * (if includes "climate" c || includes "education" c
               then 1.1 else 0.95)).
Proof.
  intros Hwf Hrow Hcell.
  exact (@advised_cell_plain
           (fun causeId =>
              if includes "climate" causeId || includes "education" causeId
              then 1.1 else 0.95)
           m d c row a Hwf Hrow Hcell).
Qed.

Lemma impact_recommends (m : Matrix) (d c : string) (row : Dict Q) (a : Q) :
  wellFormedMatrix m -> In (d, row) m -> In (c, a) row ->
  spec_recommended d c (Demo.generateImpactInsight m)
  = Some (a * (if includes "journalism" c then 1.15
               else if includes "education" c then 1.05 else 1.0)).
Proof.
  intros Hwf Hrow Hcell.
  exact (@advised_cell_plain
           (fun causeId =>
              if includes "journalism" causeId then 1.15
              else if includes "education" causeId then 1.05 else 1.0)
           m d c row a Hwf Hrow Hcell).
Qed.

Lemma community_recommends (random : nat -> Q) (m : Matrix) (d c : string)
    (row : Dict Q) (a : Q) :
  wellFormedMatrix m -> In (d, row) m -> In (c, a) row ->
  exists n,
    spec_recommended d c (Demo.generateCommunityInsight random m)
    = Some (a * (0.98 + random n * 0.04)).
Proof.
  intros Hwf Hrow Hcell.
  destruct (@advised_cell nat (fun n _ => (0.98 + random n * 0.04, S n)) 0%nat
              m d c row a Hwf Hrow Hcell) as [n H].
  exists n. cbn [fst snd] in H. rewrite <- H. clear H.
  unfold spec_recommended, Demo.generateCommunityInsight. cbn [recommendations].
  match goal with
  | |- match get d (fst (fold_left ?F1 _ _)) with _ => _ end
       = match get d (fst (fold_left ?F2 _ _)) with _ => _ end =>
      rewrite (@fold_left_ext _ _ F1 F2); [reflexivity|]
  end.
  intros acc donorId. cbv beta.
  match goal with
  | |- context [fold_left ?F ?l ?s] => destruct (fold_left F l s) as [filled next]
  end.
  reflexivity.
Qed.

(** X11. The council of the three built-in specialists stays close to
    the proposal.  Whatever [Math.random] returns in [0, 1) and whatever
    the causes are called, blending the insights [triggerSpecialistAgents]
    schedules into a proposal of [calculateAllocations] moves no cell by
    more than 7% up or 2% down; in particular no cell is dropped or
    zeroed. *)
Theorem builtin_council_stays_close
    (random : nat -> Q) (donors : Dict DonorProfile) (causes : Dict CauseProfile) :
  (forall n, 0 <= random n /\ random n < 1) ->
  let proposed := calculateAllocations donors causes in
  let insights := map snd (Demo.triggerSpecialistAgents random proposed) in
  forall d row c a,
    In (d, row) proposed -> In (c, a) row ->
    a * 0.98 <= cell (synthesizeCouncilDecision proposed insights) d c
    /\ cell (synthesizeCouncilDecision proposed insights) d c <= a * 1.07.
Proof.
  intros Hrandom proposed insights d row c a Hrow Hcell.
  pose proof (calculateAllocations_wellFormed donors causes) as Hwf.
  fold proposed in Hwf.
  assert (Hpos : 0 < a).
  { apply (@calculateAllocations_cells_positive donors causes a).
    unfold cells. apply in_flat_map. exists (d, row). split; [exact Hrow|].
    unfold values. change a with (snd (c, a)). apply in_map. exact Hcell. }
  rewrite (@synthesized_cell proposed insights d c row a Hwf Hrow Hcell).
  pose proof (@ethics_recommends proposed d c row a Hwf Hrow Hcell) as He.
  pose proof (@impact_recommends proposed d c row a Hwf Hrow Hcell) as Hi.
  destruct (@community_recommends random proposed d c row a Hwf Hrow Hcell)
    as [n Hc].
  destruct (Hrandom n) as [Hr0 Hr1].
  set (e := if includes "climate" c || includes "education" c then 1.1 else 0.95)
    in He.
  set (i := if includes "journalism" c then 1.15
            else if includes "education" c then 1.05 else 1.0) in Hi.
  set (x := 0.98 + random n * 0.04) in Hc.
  assert (Hebounds : 0.95 <= e /\ e <= 1.1).
  { unfold e. destruct (includes "climate" c || includes "education" c); split; lra. }
  assert (Hibounds : 1 <= i /\ i <= 1.15).
  { unfold i. destruct (includes "journalism" c); [split; lra|].
    destruct (includes "education" c); split; lra. }
  assert (Hxbounds : 0.98 <= x /\ x <= 1.02) by (unfold x; split; lra).
  assert (Hblend : synthesizeCell insights d c a == spec_synthesizeCell insights d c a).
  { apply synthesizeCell_blend. intros ins r Hin Hrec.
    unfold insights, Demo.triggerSpecialistAgents in Hin. cbn [map snd] in Hin.
    destruct Hin as [E|[E|[E|[]]]]; subst ins.
    - rewrite He in Hrec. inversion Hrec. nra.
    - rewrite Hi in Hrec. inversion Hrec. nra.
    - rewrite Hc in Hrec. inversion Hrec. nra. }
  rewrite Hblend. unfold spec_synthesizeCell, insights, Demo.triggerSpecialistAgents.
  cbn [map snd spec_collect]. rewrite He, Hi, Hc.
  cbn [sumOver List.length]. change (inject_Z (Z.of_nat 3)) with 3.
  assert (Hmean : (a * e + (a * i + (a * x + 0))) / 3 == a * ((e + i + x) / 3))
    by (field).
  rewrite Hmean.
  assert (Hlow : 293 # 300 <= (e + i + x) / 3) by (apply Qle_shift_div_l; lra).
  assert (Hhigh : (e + i + x) / 3 <= 327 # 300) by (apply Qle_shift_div_r; lra).
  assert (Hal : a * (293 # 300) <= a * ((e + i + x) / 3))
    by (apply Qmult_le_l; assumption).
  assert (Hah : a * ((e + i + x) / 3) <= a * (327 # 300))
    by (apply Qmult_le_l; assumption).
  split; lra.
Qed.

Lemma builtin_council_stays_close_witness :
  (400 # 20) * 0.98
    <= cell
         (synthesizeCouncilDecision (calculateAllocations soloDonors soloCauses)
            (map snd
               (Demo.triggerSpecialistAgents (fun _ => 0.5)
                  (calculateAllocations soloDonors soloCauses))))
         "ann" "food"
  /\ cell
       (synthesizeCouncilDecision (calculateAllocations soloDonors soloCauses)
          (map snd
             (Demo.triggerSpecialistAgents (fun _ => 0.5)
                (calculateAllocations soloDonors soloCauses))))
       "ann" "food"
     <= (400 # 20) * 1.07.
Proof.
  apply (@builtin_council_stays_close (fun _ => 0.5) soloDonors soloCauses
           ltac:(intro; split; lra) "ann"%string
           [("food"%string, 400 # 20)] "food"%string (400 # 20)).
  - vm_compute. left. reflexivity.
  - left. reflexivity.
Defined.

(** ** The bundled messaging bus *)

Section BusFacts.
Variable H : Type.

Lemma listeners_on (event event' : string) (l : MockSDK.Listener H)
    (bus : MockSDK.EventBus H) :
  match get event' (MockSDK.on event l bus) with Some ls => ls | None => [] end
  = if String.eqb event event'
    then match get event bus with Some ls => ls | None => [] end ++ [l]
    else match get event' bus with Some ls => ls | None => [] end.
Proof.
  unfold MockSDK.on. rewrite get_modify.
  destruct (String.eqb event event') eqn:E.
  - apply String.eqb_eq in E. subst event'.
    destruct (get event bus) as [ls|] eqn:G.
    + rewrite G. reflexivity.
    + rewrite get_set_eq. reflexivity.
  - apply String.eqb_neq in E.
    destruct (get event bus) as [ls|] eqn:G; [reflexivity|].
    rewrite get_set_neq by exact E. reflexivity.
Qed.

Lemma emit_on (event event' topic : string) (l : MockSDK.Listener H)
    (bus : MockSDK.EventBus H) :
  MockSDK.emit event' topic (MockSDK.on event l bus)
  = MockSDK.emit event' topic bus
    ++ (if String.eqb event event' then MockSDK.deliver topic l else []).
Proof.
  unfold MockSDK.emit. rewrite listeners_on.
  destruct (String.eqb event event') eqn:E.
  - apply String.eqb_eq in E. subst event'. rewrite flat_map_app. simpl. rewrite app_nil_r. reflexivity.
  - symmetry. apply app_nil_r.
Qed.
End BusFacts.

Lemma prefix_refl (s : string) : prefix s s = true.
Proof.
  induction s as [|ch s IH]; simpl; [reflexivity|].
  destruct (Ascii.ascii_dec ch ch) as [_|N]; [exact IH|contradiction].
Qed.

Lemma includes_refl (s : string) : includes s s = true.
Proof.
  destruct s as [|ch s]; [reflexivity|].
  cbn [includes]. rewrite prefix_refl. reflexivity.
Qed.

Lemma topic_event_eqb (pattern topic : string) :
  String.eqb ("message_" ++ pattern) ("message_" ++ topic)
  = String.eqb pattern topic.
Proof.
  destruct (String.eqb pattern topic) eqn:E.
  - apply String.eqb_eq in E. subst. apply String.eqb_refl.
  - apply String.eqb_neq. apply String.eqb_neq in E. intro Heq. apply E.
    simpl in Heq. inversion Heq. reflexivity.
Qed.

(** X12. What a subscription adds to a broadcast on the bundled bus: the
    handler is called once through the catch-all event when its pattern
    is "*" or occurs in the topic, and once more through the topic's own
    event when the topic is exactly the pattern.  A handler subscribed to
    a topic therefore receives every broadcast on that very topic
    twice. *)
Theorem subscriber_hears_own_topic_twice
    (H : Type) (pattern topic : string) (handler : H) (bus : MockSDK.EventBus H) :
  MockSDK.broadcast topic (MockSDK.subscribe pattern handler bus)
  = (MockSDK.emit "agent_message" topic bus
     ++ (if String.eqb pattern "*" || includes pattern topic then [handler] else []))
    ++ (MockSDK.emit ("message_" ++ topic) topic bus
        ++ (if String.eqb pattern topic then [handler] else []))
  /\ MockSDK.broadcast pattern (MockSDK.subscribe pattern handler [])
     = [handler; handler].
Proof.
  assert (Hgen : forall t b,
             MockSDK.broadcast t (MockSDK.subscribe pattern handler b)
             = (MockSDK.emit "agent_message" t b
                ++ (if String.eqb pattern "*" || includes pattern t
                    then [handler] else []))
               ++ (MockSDK.emit ("message_" ++ t) t b
                   ++ (if String.eqb pattern t then [handler] else []))).
  { intros t b. unfold MockSDK.broadcast, MockSDK.subscribe.
    rewrite !emit_on. rewrite String.eqb_refl.
    replace (String.eqb ("message_" ++ pattern) "agent_message") with false
      by reflexivity.
    replace (String.eqb "agent_message" ("message_" ++ t)) with false
      by reflexivity.
    rewrite topic_event_eqb. rewrite !app_nil_r. reflexivity. }
  split; [apply Hgen|].
  rewrite Hgen. rewrite includes_refl, orb_true_r, String.eqb_refl. reflexivity.
Qed.

(** ** The audit checksum *)

Lemma toInt32_wraps (x : Z) : exists k : Z, Rda.toInt32 x = (x + 2 ^ 32 * k)%Z.
Proof.
  unfold Rda.toInt32. exists (- ((x + 2 ^ 31) / 2 ^ 32))%Z.
  pose proof (Z.div_mod (x + 2 ^ 31) (2 ^ 32) ltac:(lia)). lia.
Qed.

Lemma toInt32_range (x : Z) : (- 2 ^ 31 <= Rda.toInt32 x < 2 ^ 31)%Z.
Proof.
  unfold Rda.toInt32.
  pose proof (Z.mod_pos_bound (x + 2 ^ 31) (2 ^ 32) ltac:(lia)). lia.
Qed.

Lemma toInt32_periodic (x k : Z) : Rda.toInt32 (x + 2 ^ 32 * k) = Rda.toInt32 x.
Proof.
  unfold Rda.toInt32.
  replace (x + 2 ^ 32 * k + 2 ^ 31)%Z with (x + 2 ^ 31 + k * 2 ^ 32)%Z by ring.
  rewrite Z_mod_plus_full. reflexivity.
Qed.

Lemma toInt32_eq_mod (x y : Z) :
  Rda.toInt32 x = Rda.toInt32 y <-> (x mod 2 ^ 32 = y mod 2 ^ 32)%Z.
Proof.
  split; intro E.
  - destruct (toInt32_wraps x) as [k Hk]. destruct (toInt32_wraps y) as [l Hl].
    assert (Hx : x = (y + (l - k) * 2 ^ 32)%Z) by lia.
    rewrite Hx. apply Z_mod_plus_full.
  - pose proof (Z.div_mod x (2 ^ 32) ltac:(lia)) as Hx.
    pose proof (Z.div_mod y (2 ^ 32) ltac:(lia)) as Hy.
    rewrite Hx, Hy, E.
    rewrite !(Z.add_comm (2 ^ 32 * _)). rewrite !toInt32_periodic. reflexivity.
Qed.

Lemma hashStep_multiplies_by_31 (hash charCode : Z) :
  Rda.hashStep hash charCode = Rda.toInt32 (31 * hash + charCode).
Proof.
  unfold Rda.hashStep. rewrite Z.shiftl_mul_pow2 by lia.
  destruct (toInt32_wraps hash) as [k Hk]. rewrite Hk.
  destruct (toInt32_wraps ((hash + 2 ^ 32 * k) * 2 ^ 5)) as [l Hl]. rewrite Hl.
  replace ((hash + 2 ^ 32 * k) * 2 ^ 5 + 2 ^ 32 * l - hash + charCode)%Z
    with (31 * hash + charCode + 2 ^ 32 * (32 * k + l))%Z by ring.
  apply toInt32_periodic.
Qed.

Lemma hash_fold_polynomial (data : list Z) :
  fold_left Rda.hashStep data 0%Z = Rda.toInt32 (polynomialHash data).
Proof.
  unfold polynomialHash.
  induction data as [|c data IH] using rev_ind; [reflexivity|].
  rewrite !fold_left_app. cbn [fold_left]. rewrite IH.
  rewrite hashStep_multiplies_by_31.
  destruct (toInt32_wraps
              (fold_left (fun hash charCode => 31 * hash + charCode)%Z data 0%Z))
    as [k Hk].
  rewrite Hk.
  match goal with
  | |- Rda.toInt32 (31 * (?x + 2 ^ 32 * k) + c) = _ =>
      replace (31 * (x + 2 ^ 32 * k) + c)%Z
        with (31 * x + c + 2 ^ 32 * (31 * k))%Z by ring
  end.
  apply toInt32_periodic.
Qed.

Lemma to_hex_int_proper (z : Z) :
  Z.to_hex_int z <> Hexadecimal.Pos Hexadecimal.Nil
  /\ Z.to_hex_int z <> Hexadecimal.Neg Hexadecimal.Nil.
Proof.
  destruct z as [|p|p]; simpl; split; try discriminate;
    intro E; inversion E as [E'];
    exact (HexadecimalPos.Unsigned.to_uint_nonnil p E').
Qed.

Lemma toString16_injective (x y : Z) :
  Rda.toString16 x = Rda.toString16 y -> x = y.
Proof.
  unfold Rda.toString16. intro E.
  apply HexadecimalZ.to_int_inj.
  destruct (to_hex_int_proper x) as [Px Nx].
  destruct (to_hex_int_proper y) as [Py Ny].
  pose proof (HexadecimalString.NilZero.isi (Z.to_hex_int x) Px Nx) as Hx.
  pose proof (HexadecimalString.NilZero.isi (Z.to_hex_int y) Py Ny) as Hy.
  rewrite E in Hx. rewrite Hx in Hy. inversion Hy. reflexivity.
Qed.

(** X13. The audit checksum is the 31-multiplier polynomial hash of the
    code units, wrapped into the signed 32-bit range and printed in base
    16: the number printed lies in [-2^31, 2^31) and is congruent to the
    polynomial modulo 2^32, and two inputs get the same checksum exactly
    when their polynomials agree modulo 2^32. *)
Theorem checksum_is_polynomial_hash_mod_2_32 (data other : list Z) :
  (exists h : Z,
      Rda.generateHash data = Rda.toString16 h
      /\ (- 2 ^ 31 <= h < 2 ^ 31)%Z
      /\ (h mod 2 ^ 32 = polynomialHash data mod 2 ^ 32)%Z)
  /\ (Rda.generateHash data = Rda.generateHash other
      <-> (polynomialHash data mod 2 ^ 32 = polynomialHash other mod 2 ^ 32)%Z).
Proof.
  split.
  - exists (Rda.toInt32 (polynomialHash data)). split; [|split].
    + unfold Rda.generateHash. rewrite hash_fold_polynomial. reflexivity.
    + apply toInt32_range.
    + destruct (toInt32_wraps (polynomialHash data)) as [k Hk]. rewrite Hk.
      rewrite (Z.mul_comm (2 ^ 32) k). apply Z_mod_plus_full.
  - unfold Rda.generateHash. rewrite !hash_fold_polynomial.
    rewrite <- toInt32_eq_mod. split; intro E.
    + apply toString16_injective. exact E.
    + rewrite E. reflexivity.
Qed.

(** ** Periodic maintenance *)

Lemma days_below (elapsed days : Z) :
  Qltb (inject_Z elapsed / inject_Z (24 * 60 * 60 * 1000)) (inject_Z days)
  = (elapsed <? days * 86400000)%Z.
Proof.
  destruct (elapsed <? days * 86400000)%Z eqn:E.
  - apply Qltb_true. apply Z.ltb_lt in E.
    apply Qlt_shift_div_r; [reflexivity|].
    rewrite <- inject_Z_mult. rewrite <- Zlt_Qlt. exact E.
  - apply Qltb_false. apply Z.ltb_ge in E.
    apply Qle_shift_div_l; [reflexivity|].
    rewrite <- inject_Z_mult. rewrite <- Zle_Qle. exact E.
Qed.

Lemma days_above (elapsed days : Z) :
  Qltb (inject_Z days) (inject_Z elapsed / inject_Z (24 * 60 * 60 * 1000))
  = (days * 86400000 <? elapsed)%Z.
Proof.
  destruct (days * 86400000 <? elapsed)%Z eqn:E.
  - apply Qltb_true. apply Z.ltb_lt in E.
    apply Qlt_shift_div_l; [reflexivity|].
    rewrite <- inject_Z_mult. rewrite <- Zlt_Qlt. exact E.
  - apply Qltb_false. apply Z.ltb_ge in E.
    apply Qle_shift_div_r; [reflexivity|].
    rewrite <- inject_Z_mult. rewrite <- Zle_Qle. exact E.
Qed.

Lemma updateTrust_by_elapsed_time (now : Z) (d : DonorProfile) :
  Rda.updateTrust now d
  = mkDonor (donor_id d) (wallet d) (preferences d) (allocationBudget d)
      (lastActivity d)
      (if (now - lastActivity d <? 604800000)%Z
       then Z.min 100 (trustLevel d + 1)
       else if (2592000000 <? now - lastActivity d)%Z
            then Z.max 0 (trustLevel d - 1)
            else trustLevel d).
Proof.
  unfold Rda.updateTrust.
  change 7 with (inject_Z 7). change 30 with (inject_Z 30).
  rewrite days_below, days_above.
  change (7 * 86400000)%Z with 604800000%Z.
  change (30 * 86400000)%Z with 2592000000%Z.
  destruct (now - lastActivity d <? 604800000)%Z; [reflexivity|].
  destruct (2592000000 <? now - lastActivity d)%Z; [reflexivity|].
  destruct d; reflexivity.
Qed.

(** X14. The trust update of the maintenance loop: a donor seen less than
    seven days (604800000 ms) ago gains one point up to 100, one not seen
    for more than thirty days (2592000000 ms) loses one point down to 0,
    any other keeps its level.  A level inside [0, 100] stays inside and
    moves by at most one point, and the update touches neither
    the wallet, the budget, the preferences nor the activity stamp of any
    donor, nor the causes, nor the history. *)
Theorem trust_follows_activity_within_bounds (now : Z) (st : Rda.Agent)
    (k : string) (d : DonorProfile) :
  get k (Rda.donors st) = Some d ->
  Rda.causes (Rda.updateTrustLevels now st) = Rda.causes st
  /\ Rda.allocationHistory (Rda.updateTrustLevels now st) = Rda.allocationHistory st
  /\ keys (Rda.donors (Rda.updateTrustLevels now st)) = keys (Rda.donors st)
  /\ exists d',
      get k (Rda.donors (Rda.updateTrustLevels now st)) = Some d'
      /\ donor_id d' = donor_id d
      /\ wallet d' = wallet d
      /\ allocationBudget d' = allocationBudget d
      /\ preferences d' = preferences d
      /\ lastActivity d' = lastActivity d
      /\ trustLevel d'
         = (if (now - lastActivity d <? 604800000)%Z
            then Z.min 100 (trustLevel d + 1)
            else if (2592000000 <? now - lastActivity d)%Z
                 then Z.max 0 (trustLevel d - 1)
                 else trustLevel d)
      /\ ((0 <= trustLevel d <= 100)%Z ->
          (0 <= trustLevel d' <= 100)%Z
          /\ (Z.abs (trustLevel d' - trustLevel d) <= 1)%Z).
Proof.
  intro G. split; [reflexivity|]. split; [reflexivity|]. split.
  - unfold Rda.updateTrustLevels. simpl. unfold keys. rewrite map_map.
    reflexivity.
  - exists (Rda.updateTrust now d). split.
    + unfold Rda.updateTrustLevels. simpl.
      rewrite (@get_map_values _ k (Rda.updateTrust now) (Rda.donors st)).
      rewrite G. reflexivity.
    + rewrite updateTrust_by_elapsed_time. cbn [donor_id wallet allocationBudget
        preferences lastActivity trustLevel].
      destruct (now - lastActivity d <? 604800000)%Z;
        destruct (2592000000 <? now - lastActivity d)%Z;
        (split; [reflexivity|]); (split; [reflexivity|]);
        (split; [reflexivity|]); (split; [reflexivity|]);
        (split; [reflexivity|]); (split; [reflexivity|]);
        intro; lia.
Qed.

Lemma trust_follows_activity_within_bounds_witness :
  exists d',
    get "ann" (Rda.donors (Rda.updateTrustLevels 8640000000 agedAgent)) = Some d'
    /\ trustLevel d' = 99%Z /\ wallet d' = 1000
    /\ (0 <= trustLevel d' <= 100)%Z.
Proof.
  destruct (@trust_follows_activity_within_bounds 8640000000 agedAgent "ann"
              (mkDonor "ann" 1000 [] 100 0 100) eq_refl)
    as [_ [_ [_ [d' [G [_ [W [_ [_ [_ [T B]]]]]]]]]]].
  exists d'. split; [exact G|]. split; [exact T|]. split; [exact W|].
  apply B. simpl. lia.
Defined.

Lemma filter_absorbs (A : Type) (p q : A -> bool) (l : list A) :
  (forall x, q x = true -> p x = true) ->
  filter q (filter p l) = filter q l.
Proof.
  intro Himp. induction l as [|x l IH]; [reflexivity|].
  simpl. destruct (p x) eqn:P.
  - simpl. rewrite IH. reflexivity.
  - destruct (q x) eqn:Q'; [|exact IH].
    apply Himp in Q'. congruence.
Qed.

(** X15. The history cleanup keeps, in their order, exactly the events
    stamped after the cutoff (the retention period before now), and leaves
    donors and causes alone.  Cleaning again at a later time gives the
    history a single cleanup at that later time gives, so the interval at
    which the loop runs does not change what is retained. *)
Theorem cleanup_keeps_retention_window (now later : Z) (st : Rda.Agent) :
  (now <= later)%Z ->
  Rda.cleanupOldData later (Rda.cleanupOldData now st) = Rda.cleanupOldData later st
  /\ Rda.ledger (Rda.cleanupOldData now st) = Rda.ledger st
  /\ (exists dropped,
         Permutation (Rda.allocationHistory st)
           (Rda.allocationHistory (Rda.cleanupOldData now st) ++ dropped)
         /\ Forall
              (fun e =>
                 (Rda.timestamp e
                  <= now - Rda.auditRetentionDays (Rda.config st) * 86400000)%Z)
              dropped)
  /\ forall e,
      In e (Rda.allocationHistory (Rda.cleanupOldData now st))
      <-> In e (Rda.allocationHistory st)
          /\ (now - Rda.auditRetentionDays (Rda.config st) * 86400000
              < Rda.timestamp e)%Z.
Proof.
  intro Hle. split; [|split; [reflexivity|split]].
  - unfold Rda.cleanupOldData, Rda.with_history. simpl.
    rewrite filter_absorbs; [reflexivity|].
    intros e He. apply Z.ltb_lt in He. apply Z.ltb_lt. lia.
  - exists (filter
              (fun event =>
                 negb (now - Rda.auditRetentionDays (Rda.config st) * 24 * 60 * 60 * 1000
                       <? Rda.timestamp event)%Z)
              (Rda.allocationHistory st)).
    split.
    + unfold Rda.cleanupOldData. simpl.
      induction (Rda.allocationHistory st) as [|e l IH]; [constructor|].
      simpl. destruct (_ <? Rda.timestamp e)%Z; simpl.
      * constructor. exact IH.
      * apply Permutation_cons_app. exact IH.
    + apply Forall_forall. intros e He. apply filter_In in He.
      destruct He as [_ He]. apply negb_true_iff in He.
      apply Z.ltb_ge in He. lia.
  - intro e. unfold Rda.cleanupOldData. simpl. rewrite filter_In.
    rewrite Z.ltb_lt.
    replace (Rda.auditRetentionDays (Rda.config st) * 24 * 60 * 60 * 1000)%Z
      with (Rda.auditRetentionDays (Rda.config st) * 86400000)%Z by lia.
    reflexivity.
Qed.

Lemma cleanup_keeps_retention_window_witness :
  Rda.cleanupOldData 8640000000 (Rda.cleanupOldData 7776000000 agedAgent)
  = Rda.cleanupOldData 8640000000 agedAgent.
Proof.
  apply (proj1 (@cleanup_keeps_retention_window 7776000000 8640000000 agedAgent
                  ltac:(lia))).
Defined.

(** ** Ranking of the causes *)

Section Ranking.
Variable A : Type.
Variable score : A -> Q.

Lemma insertBy_permutation (compare : A -> A -> Q) (x : A) (l : list A) :
  Permutation (Rda.insertBy compare x l) (x :: l).
Proof.
  induction l as [|y l IH]; simpl; [apply Permutation_refl|].
  destruct (Qltb (compare x y) 0); [apply Permutation_refl|].
  apply Permutation_trans with (y :: x :: l).
  - constructor. exact IH.
  - apply perm_swap.
Qed.

Lemma sortBy_fold_permutation (compare : A -> A -> Q) (l acc : list A) :
  Permutation
    (fold_left (fun sorted x => Rda.insertBy compare x sorted) l acc) (l ++ acc).
Proof.
  revert acc. induction l as [|x l IH]; intro acc; simpl;
    [apply Permutation_refl|].
  eapply Permutation_trans; [apply IH|].
  apply Permutation_trans with (l ++ x :: acc).
  - apply Permutation_app_head. apply insertBy_permutation.
  - apply Permutation_sym. apply Permutation_middle.
Qed.

Lemma sortBy_permutation (compare : A -> A -> Q) (l : list A) :
  Permutation (Rda.sortBy compare l) l.
Proof.
  unfold Rda.sortBy. eapply Permutation_trans; [apply sortBy_fold_permutation|].
  rewrite app_nil_r. apply Permutation_refl.
Qed.

Lemma insertBy_ranked (x : A) (l : list A) :
  StronglySorted (fun a b : A => score b <= score a) l -> StronglySorted (fun a b : A => score b <= score a) (Rda.insertBy (fun a b : A => score b - score a) x l).
Proof.
  induction l as [|y l IH]; intro Hs; simpl.
  - constructor; constructor.
  - inversion Hs as [|? ? Hl Hy]; subst.
    destruct (Qltb ((fun a b : A => score b - score a) x y) 0) eqn:E.
    + apply Qltb_true in E. cbv beta in E.
      constructor; [exact Hs|].
      constructor; [cbv beta; lra|].
      eapply Forall_impl; [|exact Hy].
      intros z Hz. cbv beta in *. lra.
    + apply Qltb_false in E. cbv beta in E.
      constructor; [apply IH; exact Hl|].
      apply Forall_forall. intros z Hz.
      apply (Permutation_in _ (insertBy_permutation (fun a b : A => score b - score a) x l)) in Hz.
      destruct Hz as [Hz|Hz].
      * subst z. cbv beta. lra.
      * rewrite Forall_forall in Hy. apply Hy. exact Hz.
Qed.

Lemma sortBy_ranked (l : list A) :
  StronglySorted (fun a b : A => score b <= score a) (Rda.sortBy (fun a b : A => score b - score a) l).
Proof.
  unfold Rda.sortBy.
  assert (Hgen : forall acc, StronglySorted (fun a b : A => score b <= score a) acc ->
            StronglySorted (fun a b : A => score b <= score a)
              (fold_left (fun sorted x => Rda.insertBy (fun a b : A => score b - score a) x sorted) l acc)).
  { induction l as [|x l IH]; intros acc Hacc; simpl; [exact Hacc|].
    apply IH. apply insertBy_ranked. exact Hacc. }
  apply Hgen. constructor.
Qed.

Lemma ranked_split (l1 l2 : list A) :
  StronglySorted (fun a b : A => score b <= score a) (l1 ++ l2) ->
  StronglySorted (fun a b : A => score b <= score a) l1
  /\ forall a b, In a l1 -> In b l2 -> score b <= score a.
Proof.
  induction l1 as [|x l1 IH]; simpl; intro Hs.
  - split; [constructor|]. intros a b [].
  - inversion Hs as [|? ? Hl Hx]; subst.
    destruct (IH Hl) as [Hs1 Hcross].
    rewrite Forall_forall in Hx. split.
    + constructor; [exact Hs1|].
      apply Forall_forall. intros z Hz. apply Hx. apply in_or_app. left. exact Hz.
    + intros a b [Ha|Ha] Hb.
      * subst a. apply (Hx b). apply in_or_app. right. exact Hb.
      * apply Hcross; assumption.
Qed.

Lemma top_of_ranking (n : nat) (l : list A) :
  exists rest,
    Permutation l (firstn n (Rda.sortBy (fun a b : A => score b - score a) l) ++ rest)
    /\ List.length (firstn n (Rda.sortBy (fun a b : A => score b - score a) l)) = Nat.min n (List.length l)
    /\ StronglySorted (fun a b : A => score b <= score a) (firstn n (Rda.sortBy (fun a b : A => score b - score a) l))
    /\ forall a b,
        In a (firstn n (Rda.sortBy (fun a b : A => score b - score a) l)) -> In b rest -> score b <= score a.
Proof.
  exists (skipn n (Rda.sortBy (fun a b : A => score b - score a) l)).
  pose proof (sortBy_ranked l) as Hs.
  rewrite <- (firstn_skipn n (Rda.sortBy (fun a b : A => score b - score a) l)) in Hs.
  destruct (ranked_split _ _ Hs) as [Hs1 Hcross].
  split; [|split; [|split]].
  - rewrite firstn_skipn. apply Permutation_sym. apply sortBy_permutation.
  - rewrite length_firstn.
    rewrite (Permutation_length (sortBy_permutation (fun a b : A => score b - score a) l)). reflexivity.
  - exact Hs1.
  - exact Hcross.
Qed.
End Ranking.

(** X16. The ranking behind the dashboard and the pattern analysis: the
    top causes are at most ten causes of the map (all of them when there
    are fewer), listed by decreasing total received, and no cause left
    out has received more in total than a listed one. *)
Theorem top_causes_are_the_best_funded (st : Rda.Agent) :
  exists rest,
    Permutation (values (Rda.causes st)) (Rda.getTopCauses st ++ rest)
    /\ List.length (Rda.getTopCauses st)
       = Nat.min 10 (List.length (Rda.causes st))
    /\ StronglySorted (fun a b => totalReceived b <= totalReceived a)
         (Rda.getTopCauses st)
    /\ forall a b,
        In a (Rda.getTopCauses st) -> In b rest ->
        totalReceived b <= totalReceived a.
Proof.
  destruct (top_of_ranking totalReceived 10 (values (Rda.causes st)))
    as [rest [Hp [Hl [Hs Hc]]]].
  exists rest. unfold Rda.getTopCauses.
  split; [exact Hp|]. split; [|split; [exact Hs|exact Hc]].
  rewrite Hl. unfold values. rewrite length_map. reflexivity.
Qed.

(** ** The direction of the transfers *)










(** ** Need registration in the full engine *)


(** ** Registration in the demo agent *)

Lemma set_set (V : Type) (k : string) (v v0 : V) (m : Dict V) :
  set k v (set k v0 m) = set k v m.
Proof.
  induction m as [|[k1 v1] m IH]; simpl.
  - rewrite String.eqb_refl. reflexivity.
  - destruct (String.eqb k1 k) eqn:E; simpl; rewrite E; [reflexivity|].
    rewrite IH. reflexivity.
Qed.

(** X20. The handlers of the demo agent replace the whole record.  What a
    need registration or a capacity offer leaves behind does not depend on
    the record the map held for that id before (two states that differ
    in that record only end up equal): a cause registered again starts
    over with a lifetime total of zero, a donor offering again with trust
    level 75, whatever they had reached. *)
Theorem demo_registration_replaces_record (now : Z) (st : Demo.Agent) :
  (forall msg previous other,
      Demo.handleNeedRegistration now msg
        (Demo.with_causes (set (Demo.reg_causeId msg) previous (Demo.causes st)) st)
      = Demo.handleNeedRegistration now msg
          (Demo.with_causes (set (Demo.reg_causeId msg) other (Demo.causes st)) st))
  /\ (forall msg previous other,
        Demo.handleCapacityOffer now msg
          (Demo.with_donors (set (offer_donorId msg) previous (Demo.donors st)) st)
        = Demo.handleCapacityOffer now msg
            (Demo.with_donors (set (offer_donorId msg) other (Demo.donors st)) st)).
Proof.
  split; intros msg previous other.
  - unfold Demo.handleNeedRegistration.
    cbn [Demo.with_causes Demo.causes Demo.donors Demo.allocationHistory
         Demo.isProcessing Demo.councilActive Demo.councilInsights Demo.sent].
    rewrite !set_set. reflexivity.
  - unfold Demo.handleCapacityOffer.
    cbn [Demo.with_donors Demo.causes Demo.donors Demo.allocationHistory
         Demo.isProcessing Demo.councilActive Demo.councilInsights Demo.sent].
    rewrite !set_set. reflexivity.
Qed.

(** ** The dashboard of the demo agent *)

Lemma slice_last_suffix (A : Type) (n : nat) (l : list A) :
  l = firstn (List.length l - n) l ++ slice_last n l
  /\ List.length (slice_last n l) = Nat.min n (List.length l).
Proof.
  unfold slice_last. split.
  - symmetry. apply firstn_skipn.
  - rewrite length_skipn. lia.
Qed.

Lemma keys_length (V : Type) (m m' : Dict V) :
  keys m' = keys m -> List.length m' = List.length m.
Proof.
  intro E. apply (f_equal (@List.length string)) in E.
  unfold keys in E. rewrite !length_map in E. exact E.
Qed.

(** ** Activity and trust *)

Lemma Rda_evaluate_donor toFixed2 now (st : Rda.Agent) (k : string)
    (d : DonorProfile) :
  get k (Rda.donors st) = Some d ->
  exists d',
    get k (Rda.donors (Rda.evaluateAllocations toFixed2 now st)) = Some d'
    /\ donorFrame d d'.
Proof.
  intro G. destruct (Rda_evaluate_frame toFixed2 now st) as [[_ Fd] _].
  apply (Fd k d G).
Qed.

Lemma trust_after_recent_activity (later : Z) (st : Rda.Agent) (k : string)
    (d : DonorProfile) :
  get k (Rda.donors st) = Some d ->
  (later - lastActivity d < 604800000)%Z ->
  exists d',
    get k (Rda.donors (Rda.updateTrustLevels later st)) = Some d'
    /\ lastActivity d' = lastActivity d
    /\ preferences d' = preferences d
    /\ trustLevel d' = Z.min 100 (trustLevel d + 1).
Proof.
  intros G Hrecent. exists (Rda.updateTrust later d). split.
  - unfold Rda.updateTrustLevels. simpl.
    rewrite (@get_map_values _ k (Rda.updateTrust later) (Rda.donors st)).
    rewrite G. reflexivity.
  - rewrite updateTrust_by_elapsed_time.
    apply Z.ltb_lt in Hrecent. rewrite Hrecent.
    repeat split; reflexivity.
Qed.

(** X22. Activity earns trust.  A capacity offer and a preference update
    stamp the donor with the time of the message, and the evaluation they
    trigger keeps the stamp; so a trust update that runs less than seven
    days later raises that donor's trust level by one point, up to 100,
    from the level it had before the message (50 for a donor the offer
    has just created).  The preference update also leaves the merged
    preferences in place. *)
Theorem activity_earns_trust (toFixed2 : Q -> string) (now later : Z)
    (st : Rda.Agent) :
  (later - now < 604800000)%Z ->
  (forall msg,
      exists d',
        get (offer_donorId msg)
          (Rda.donors
             (Rda.updateTrustLevels later
                (Rda.handleCapacityOffer toFixed2 now msg st)))
        = Some d'
        /\ lastActivity d' = now
        /\ trustLevel d'
           = Z.min 100
               (match get (offer_donorId msg) (Rda.donors st) with
                | Some d => trustLevel d
                | None => 50
                end + 1))
  /\ (forall msg d,
        get (Rda.upd_donorId msg) (Rda.donors st) = Some d ->
        exists d',
          get (Rda.upd_donorId msg)
            (Rda.donors
               (Rda.updateTrustLevels later
                  (fst (Rda.handlePreferenceUpdate toFixed2 now msg st))))
          = Some d'
          /\ lastActivity d' = now
          /\ preferences d' = spread (preferences d) (Rda.upd_preferences msg)
          /\ trustLevel d' = Z.min 100 (trustLevel d + 1)).
Proof.
  intro Hrecent. split.
  - intro msg. unfold Rda.handleCapacityOffer.
    match goal with
    | |- context [Rda.evaluateAllocations toFixed2 now
                    (Rda.with_donors (set _ ?donor _) st)] =>
        set (d1 := donor)
    end.
    set (st1 := Rda.with_donors (set (offer_donorId msg) d1 (Rda.donors st)) st).
    assert (G1 : get (offer_donorId msg) (Rda.donors st1) = Some d1)
      by apply get_set_eq.
    destruct (Rda_evaluate_donor toFixed2 now st1 _ G1)
      as [d2 [G2 [_ [_ [Htrust [Hlast _]]]]]].
    match goal with
    | |- context [Rda.updateTrustLevels later (Rda.send ?c ?s)] =>
        assert (G3 : get (offer_donorId msg) (Rda.donors (Rda.send c s)) = Some d2)
          by exact G2;
        destruct (@trust_after_recent_activity later (Rda.send c s)
                    (offer_donorId msg) d2 G3) as [d' [G' [L' [_ T']]]]
    end.
    + rewrite Hlast. unfold d1. cbn [lastActivity]. exact Hrecent.
    + exists d'. split; [exact G'|]. split.
      * rewrite L', Hlast. reflexivity.
      * rewrite T', Htrust. unfold d1. cbn [trustLevel].
        destruct (get (offer_donorId msg) (Rda.donors st)); reflexivity.
  - intros msg d G. unfold Rda.handlePreferenceUpdate. rewrite G. cbn [fst].
    set (st1 :=
           Rda.with_donors
             (modify (Rda.upd_donorId msg)
                (Rda.touchPreferences now (Rda.upd_preferences msg))
                (Rda.donors st)) st).
    assert (G1 : get (Rda.upd_donorId msg) (Rda.donors st1)
                 = Some (Rda.touchPreferences now (Rda.upd_preferences msg) d)).
    { unfold st1. cbn [Rda.donors Rda.with_donors].
      rewrite get_modify, String.eqb_refl, G. reflexivity. }
    destruct (Rda_evaluate_donor toFixed2 now st1 _ G1)
      as [d2 [G2 [_ [Hprefs [Htrust [Hlast _]]]]]].
    destruct (@trust_after_recent_activity later
                (Rda.evaluateAllocations toFixed2 now st1)
                (Rda.upd_donorId msg) d2 G2) as [d' [G' [L' [P' T']]]].
    + rewrite Hlast. cbn [Rda.touchPreferences lastActivity]. exact Hrecent.
    + exists d'. split; [exact G'|]. split; [|split].
      * rewrite L', Hlast. reflexivity.
      * rewrite P', Hprefs. reflexivity.
      * rewrite T', Htrust. reflexivity.
Qed.

Lemma activity_earns_trust_witness :
  exists d',
    get "ann"
      (Rda.donors
         (Rda.updateTrustLevels 86400000
            (Rda.handleCapacityOffer (fun _ => EmptyString) 1000
               (mkOffer "ann" 1000 None None) Rda.init)))
    = Some d'
    /\ lastActivity d' = 1000%Z
    /\ trustLevel d' = 51%Z.
Proof.
  destruct (@activity_earns_trust (fun _ => EmptyString) 1000 86400000 Rda.init
              ltac:(lia)) as [Hoffer _].
  exact (Hoffer (mkOffer "ann" 1000 None None)).
Defined.

(** ** Donor clusters *)

Lemma ranked_head (A : Type) (score : A -> Q) (l : list A) (x : A)
    (rest : list A) :
  Rda.sortBy (fun a b : A => score b - score a) l = x :: rest ->
  In x l /\ forall y, In y l -> score y <= score x.
Proof.
  intro E.
  pose proof (sortBy_permutation (fun a b : A => score b - score a) l) as Hp.
  pose proof (sortBy_ranked score l) as Hs.
  rewrite E in Hp, Hs. split.
  - apply (Permutation_in _ Hp). left. reflexivity.
  - intros y Hy. apply (Permutation_in _ (Permutation_sym Hp)) in Hy.
    inversion Hs as [|? ? _ Hx]; subst. destruct Hy as [Hy|Hy].
    + subst y. lra.
    + rewrite Forall_forall in Hx. apply Hx. exact Hy.
Qed.

Lemma clusters_fold (l : list (string * DonorProfile)) (c : string) :
  get c (fold_left Rda.addToCluster l [])
  = if String.eqb c "" then None
    else match filter
                 (fun d =>
                    match Rda.primaryCause d with
                    | Some k => String.eqb k c
                    | None => false
                    end)
                 (values l) with
         | [] => None
         | d :: members => Some (d :: members)
         end.
Proof.
  induction l as [|[k d] l IH] using rev_ind.
  - simpl. destruct (String.eqb c ""); reflexivity.
  - rewrite fold_left_app. cbn [fold_left]. unfold values in *.
    rewrite map_app, filter_app. cbn [map filter snd].
    unfold Rda.addToCluster at 1. cbn [snd].
    destruct (Rda.primaryCause d) as [primary|]; [|rewrite app_nil_r; exact IH].
    destruct (String.eqb primary "") eqn:Eempty.
    { apply String.eqb_eq in Eempty. subst primary. rewrite IH.
      destruct (String.eqb c "") eqn:Ec; [reflexivity|].
      rewrite String.eqb_sym, Ec. rewrite app_nil_r. reflexivity. }
    rewrite get_modify.
    destruct (String.eqb primary c) eqn:Epc.
    + apply String.eqb_eq in Epc. subst c. rewrite Eempty.
      rewrite Eempty in IH.
      destruct (get primary (fold_left Rda.addToCluster l [])) as [members|] eqn:G.
      * rewrite G. cbn [option_map].
        destruct (filter _ (map snd l)) as [|d0 ms]; [discriminate|].
        inversion IH. subst members. reflexivity.
      * rewrite get_set_eq. cbn [option_map].
        destruct (filter _ (map snd l)) as [|d0 ms]; [reflexivity|discriminate].
    + rewrite app_nil_r. rewrite <- IH.
      destruct (get primary (fold_left Rda.addToCluster l [])); [reflexivity|].
      apply get_set_neq. apply String.eqb_neq. exact Epc.
Qed.

(** X23. Donor clusters.  The cluster of a cause holds, in the order of
    the donor map, exactly the donors whose primary cause it is, and a
    cause that is nobody's primary cause, like the empty key, has no
    cluster; so every donor is in at most one cluster.  The primary cause
    of a donor is one of its preferences, and none of its preferences
    weighs more. *)
Theorem clusters_group_by_heaviest_preference (st : Rda.Agent) :
  (forall c,
      get c (Rda.getDonorClusters st)
      = if String.eqb c "" then None
        else match filter
                     (fun d =>
                        match Rda.primaryCause d with
                        | Some k => String.eqb k c
                        | None => false
                        end)
                     (values (Rda.donors st)) with
             | [] => None
             | d :: members => Some (d :: members)
             end)
  /\ (forall d c,
        Rda.primaryCause d = Some c ->
        exists w,
          In (c, w) (preferences d)
          /\ forall k' w', In (k', w') (preferences d) -> w' <= w).
Proof.
  split.
  - intro c. apply clusters_fold.
  - intros d c Hp. unfold Rda.primaryCause in Hp.
    destruct (Rda.sortBy (fun a b : string * Q => snd b - snd a) (preferences d))
      as [|[k w] rest] eqn:E; [discriminate|].
    inversion Hp. subst c. clear Hp.
    destruct (@ranked_head _ (@snd string Q) _ _ _ E) as [Hin Hmax].
    exists w. split; [exact Hin|].
    intros k' w' Hin'. apply (Hmax (k', w') Hin').
Qed.

(** ** The thermal justice reducer *)

Lemma js_max_lower (x y : Q) : x <= js_max x y /\ y <= js_max x y.
Proof.
  unfold js_max. destruct (Qle_bool x y) eqn:E.
  - apply Qle_bool_iff in E. split; lra.
  - apply Qle_bool_false in E. split; lra.
Qed.

Lemma js_max_cases (x y : Q) :
  (js_max x y = y /\ x <= y) \/ (js_max x y = x /\ y < x).
Proof.
  unfold js_max. destruct (Qle_bool x y) eqn:E.
  - apply Qle_bool_iff in E. left. split; [reflexivity|exact E].
  - apply Qle_bool_false in E. right. split; [reflexivity|exact E].
Qed.

Lemma applyCooling_accounted (step : Q) (d : Thermal.District) :
  coolingAccounted (Thermal.applyCooling step d).
Proof.
  unfold coolingAccounted, Thermal.applyCooling. simpl.
  destruct (js_max_lower 25 (Thermal.originalTemp d - Thermal.delta step d)).
  split; lra.
Qed.

Lemma collaborate_accounted (data : Thermal.Collaboration) (d : Thermal.District) :
  coolingAccounted d -> coolingAccounted (Thermal.collaborate data d).
Proof.
  unfold coolingAccounted, Thermal.collaborate. intros [Hsum Hfloor].
  destruct (Thermal.enhancement data) as [e|]; [|split; assumption].
  destruct (Thermal.districtId data =? Thermal.district_id d)%Z;
    [|split; assumption].
  simpl.
  match goal with
  | |- context [js_max 25 ?y] => destruct (js_max_lower 25 y)
  end.
  split; lra.
Qed.

(** X24. The books of the districts stay in order under every action of
    the reducer: in the initial state and, from then on, after cooling
    steps, collaborations and resets, each district's cooling is the gap
    between its original and its present temperature, and no district is
    colder than 25 degrees.  A cooling step and a collaboration keep the
    districts, their order and their original temperatures. *)
Theorem district_books_stay_in_order :
  Forall coolingAccounted Thermal.initialDistricts
  /\ (forall state action,
        Forall coolingAccounted state ->
        Forall coolingAccounted (Thermal.districtReducer state action))
  /\ (forall state action,
        action <> Thermal.RESET ->
        map Thermal.district_id (Thermal.districtReducer state action)
        = map Thermal.district_id state
        /\ map Thermal.originalTemp (Thermal.districtReducer state action)
           = map Thermal.originalTemp state
        /\ map Thermal.vulnerability (Thermal.districtReducer state action)
           = map Thermal.vulnerability state).
Proof.
  split; [|split].
  - unfold Thermal.initialDistricts, coolingAccounted.
    repeat constructor; simpl; lra.
  - intros state action Hinv. destruct action as [step| |data]; simpl.
    + apply Forall_forall. intros d Hd. apply in_map_iff in Hd.
      destruct Hd as [d0 [E _]]. subst d. apply applyCooling_accounted.
    + unfold coolingAccounted. repeat constructor; simpl; lra.
    + apply Forall_forall. intros d Hd. apply in_map_iff in Hd.
      destruct Hd as [d0 [E Hd0]]. subst d. apply collaborate_accounted.
      rewrite Forall_forall in Hinv. apply Hinv. exact Hd0.
  - intros state action Hreset.
    destruct action as [step| |data]; [|contradiction|]; simpl;
      rewrite !map_map; repeat split; apply map_ext; intro d;
      try reflexivity;
      unfold Thermal.collaborate;
      destruct (Thermal.enhancement data); try reflexivity;
      destruct (Thermal.districtId data =? Thermal.district_id d)%Z;
      reflexivity.
Qed.

Lemma district_books_stay_in_order_witness :
  Forall coolingAccounted
    (Thermal.districtReducer
       (Thermal.districtReducer Thermal.initialDistricts (Thermal.APPLY_COOLING 4))
       (Thermal.AGENT_COLLABORATION
          (Thermal.mkCollaboration 4 (Some (Thermal.mkEnhancement (Some 3)))))).
Proof.
  destruct district_books_stay_in_order as [H0 [Hstep _]].
  apply Hstep. apply Hstep. exact H0.
Defined.

Lemma delta_by_class (step : Q) (d : Thermal.District) :
  Thermal.delta step d
  == (if Qle_bool 3 step
      then match Thermal.vulnerability d with
           | Thermal.Critical => 8
           | Thermal.High => 6
           | Thermal.Medium => 4
           | Thermal.Low => 2
           end
      else 0)
     + (if Qle_bool 4 step && Thermal.vulnerable d then 4 else 0).
Proof.
  unfold Thermal.delta.
  destruct (Qle_bool 3 step); destruct (Qle_bool 4 step && Thermal.vulnerable d);
    lra.
Qed.

Lemma delta_monotone_in_class (step : Q) (d d' : Thermal.District) :
  (vulnerabilityRank (Thermal.vulnerability d)
   <= vulnerabilityRank (Thermal.vulnerability d'))%nat ->
  Thermal.delta step d <= Thermal.delta step d'.
Proof.
  intro Hrank. rewrite !delta_by_class. unfold Thermal.vulnerable.
  destruct (Qle_bool 3 step); destruct (Qle_bool 4 step);
    destruct (Thermal.vulnerability d); destruct (Thermal.vulnerability d');
    simpl in *; try lra; lia.
Qed.

Lemma delta_monotone_in_step (step step' : Q) (d : Thermal.District) :
  step <= step' -> Thermal.delta step d <= Thermal.delta step' d.
Proof.
  intro Hstep. rewrite !delta_by_class.
  destruct (Qle_bool 3 step) eqn:E3; destruct (Qle_bool 3 step') eqn:E3';
    destruct (Qle_bool 4 step) eqn:E4; destruct (Qle_bool 4 step') eqn:E4';
    try apply Qle_bool_iff in E3; try apply Qle_bool_iff in E4;
    try apply Qle_bool_false in E3'; try apply Qle_bool_false in E4';
    try apply Qle_bool_false in E3; try apply Qle_bool_false in E4;
    try apply Qle_bool_iff in E3'; try apply Qle_bool_iff in E4';
    destruct (Thermal.vulnerable d); destruct (Thermal.vulnerability d);
    simpl; lra.
Qed.

Lemma cooled_monotone (t x y : Q) : x <= y -> js_max 25 (t - y) <= js_max 25 (t - x).
Proof.
  intro H.
  destruct (js_max_cases 25 (t - y)) as [[E1 H1]|[E1 H1]];
    destruct (js_max_cases 25 (t - x)) as [[E2 H2]|[E2 H2]];
    rewrite E1, E2; lra.
Qed.

(** X25. Cooling is justice-first and starts from the original
    temperature.  Of two districts that were equally hot, the one in the
    more vulnerable class is never left hotter by a cooling step; a later
    step never leaves a district hotter than an earlier one did; and a
    cooling step computes everything from the original temperature, so
    its result is the same whatever cooling steps and collaborations came
    before: a collaboration bonus is gone after the next cooling step. *)
Theorem cooling_is_justice_first (step : Q) :
  (forall d d',
      Thermal.originalTemp d == Thermal.originalTemp d' ->
      (vulnerabilityRank (Thermal.vulnerability d)
       <= vulnerabilityRank (Thermal.vulnerability d'))%nat ->
      Thermal.temp (Thermal.applyCooling step d')
      <= Thermal.temp (Thermal.applyCooling step d))
  /\ (forall later d,
        step <= later ->
        Thermal.temp (Thermal.applyCooling later d)
        <= Thermal.temp (Thermal.applyCooling step d))
  /\ (forall state action,
        action <> Thermal.RESET ->
        Thermal.districtReducer (Thermal.districtReducer state action)
          (Thermal.APPLY_COOLING step)
        = Thermal.districtReducer state (Thermal.APPLY_COOLING step)).
Proof.
  split; [|split].
  - intros d d' Htemp Hrank. unfold Thermal.applyCooling. simpl.
    pose proof (delta_monotone_in_class step d d' Hrank) as Hd.
    destruct (js_max_cases 25 (Thermal.originalTemp d' - Thermal.delta step d'))
      as [[E1 H1]|[E1 H1]];
      destruct (js_max_cases 25 (Thermal.originalTemp d - Thermal.delta step d))
        as [[E2 H2]|[E2 H2]];
      rewrite E1, E2; lra.
  - intros later d Hlater. unfold Thermal.applyCooling. simpl.
    apply cooled_monotone. apply delta_monotone_in_step. exact Hlater.
  - intros state action Hreset.
    destruct action as [earlier| |data]; [|contradiction|]; simpl;
      rewrite map_map; apply map_ext; intro d.
    + reflexivity.
    + unfold Thermal.collaborate.
      destruct (Thermal.enhancement data); [|reflexivity].
      destruct (Thermal.districtId data =? Thermal.district_id d)%Z; reflexivity.
Qed.

Lemma sumOver_filter_le (A : Type) (f : A -> Q) (p : A -> bool) (l : list A) :
  Forall (fun x => 0 <= f x) l ->
  0 <= sumOver f (filter p l) /\ sumOver f (filter p l) <= sumOver f l.
Proof.
  induction 1 as [|x l Hx Hl IH]; simpl; [lra|].
  destruct (p x); simpl; lra.
Qed.

(** X26. The equity score is a percentage: as long as no district has a
    negative cooling on its books, the score lies between 0 and 100, and
    it is 0 when nothing has been cooled at all. *)
Theorem equity_score_is_a_percentage (districts : list Thermal.District) :
  Forall (fun d => 0 <= Thermal.cooling d) districts ->
  (0 <= Thermal.equityScore districts <= 100)%Z
  /\ (Thermal.totalCooling districts == 0 -> Thermal.equityScore districts = 0%Z).
Proof.
  intro Hpos. unfold Thermal.equityScore.
  pose proof (fold_sum Thermal.cooling districts 0) as Htotal.
  pose proof (fold_sum Thermal.cooling (filter Thermal.vulnerable districts) 0)
    as Hvuln.
  fold (Thermal.totalCooling districts) in Htotal.
  destruct (sumOver_filter_le Thermal.cooling Thermal.vulnerable Hpos)
    as [Hv0 Hvle].
  destruct (truthy (Thermal.totalCooling districts)) eqn:Et; cbn [negb].
  - apply truthy_true in Et.
    set (total := Thermal.totalCooling districts) in *.
    set (vuln :=
           fold_left (fun s d => s + Thermal.cooling d)
             (filter Thermal.vulnerable districts) 0) in *.
    assert (Htpos : 0 < total) by lra.
    assert (Hlo : 0 <= vuln / total * 100).
    { apply Qmult_le_0_compat; [|lra].
      apply Qle_shift_div_l; [exact Htpos|]. lra. }
    assert (Hhi : vuln / total * 100 <= 100).
    { assert (Hq : vuln / total <= 1).
      { apply Qle_shift_div_r; [exact Htpos|]. lra. }
      lra. }
    split.
    + unfold Thermal.round.
      assert (H0 : (0 + (1 # 2)) <= vuln / total * 100 + (1 # 2)) by lra.
      assert (H100 : vuln / total * 100 + (1 # 2) <= 100 + (1 # 2)) by lra.
      apply Qround.Qfloor_resp_le in H0. apply Qround.Qfloor_resp_le in H100.
      split; [exact H0|exact H100].
    + intro Hzero. exfalso. apply Et. exact Hzero.
  - split; [lia|]. intros _. reflexivity.
Qed.

Lemma equity_score_is_a_percentage_witness :
  (0 <= Thermal.equityScore
          (Thermal.districtReducer Thermal.initialDistricts
             (Thermal.APPLY_COOLING 4)) <= 100)%Z.
Proof.
  apply (@equity_score_is_a_percentage
           (Thermal.districtReducer Thermal.initialDistricts
              (Thermal.APPLY_COOLING 4))).
  repeat constructor; vm_compute; discriminate.
Defined.

(** ** The council session *)









(** ** The budget of a donor *)

Lemma cell_le_rowTotal (row : Dict Q) (k : string) (a : Q) :
  nonnegRow row -> In (k, a) row -> a <= rowTotal row.
Proof.
  unfold nonnegRow, rowTotal. induction row as [|[k0 a0] row IH];
    intros Hpos Hin; [destruct Hin|].
  cbn [sumOver snd].
  assert (H0 : 0 <= a0) by (apply (Hpos (k0, a0)); left; reflexivity).
  assert (Hrest : 0 <= sumOver snd row).
  { apply sumOver_nonneg. intros kv Hkv. apply Hpos. right. exact Hkv. }
  destruct Hin as [Hin|Hin].
  - inversion Hin. subst. lra.
  - assert (Ha : a <= sumOver snd row).
    { apply IH; [|exact Hin]. intros kv Hkv. apply Hpos. right. exact Hkv. }
    lra.
Qed.

(** C4. In a ledger whose needs, priorities and budgets are non-negative,
    every amount [calculateAllocations] proposes for a donor is positive
    and at most that donor's [allocationBudget]; and with exact
    arithmetic the amounts of the donor's row, summed over all causes,
    are at most the budget as well.  (In binary64 the second part fails
    by rounding; the section on rounding below has a row that does.) *)
Theorem calculateAllocations_cells_within_budget
    (donors : Dict DonorProfile) (causes : Dict CauseProfile)
    (donorId : string) (donor : DonorProfile) :
  NoDup (keys donors) ->
  (forall c, In c (values causes) -> 0 <= need c /\ 0 <= priority c) ->
  (forall d, In d (values donors) -> 0 <= allocationBudget d) ->
  get donorId donors = Some donor ->
  (forall causeId a,
      In (causeId, a) (rowOf (calculateAllocations donors causes) donorId) ->
      0 < a /\ a <= allocationBudget donor)
  /\ rowTotal (rowOf (calculateAllocations donors causes) donorId)
     <= allocationBudget donor.
Proof.
  intros Hnd Hc Hd Hget.
  pose proof (@calculateAllocations_within_budget donors causes donorId donor
                Hnd Hc Hd Hget) as Htotal.
  split; [|exact Htotal].
  intros causeId a Hin.
  assert (Hpos : forall k x,
             In (k, x) (rowOf (calculateAllocations donors causes) donorId) ->
             0 < x).
  { intros k x Hkx.
    rewrite (@calculateAllocations_row donors causes donorId donor Hnd Hget)
      in Hkx.
    destruct (Qle_bool (allocationBudget donor) 0); [destruct Hkx|].
    apply donorAllocations_entries in Hkx.
    destruct Hkx as [cause [_ [_ [Hx _]]]]. exact Hx. }
  split; [apply (Hpos causeId a Hin)|].
  apply Qle_trans
    with (rowTotal (rowOf (calculateAllocations donors causes) donorId));
    [|exact Htotal].
  apply (@cell_le_rowTotal _ causeId a); [|exact Hin].
  intros [k x] Hkx. cbn [snd]. apply Qlt_le_weak. apply (Hpos k x Hkx).
Qed.

Lemma calculateAllocations_cells_within_budget_witness :
  (forall causeId a,
      In (causeId, a) (rowOf (calculateAllocations twoDonors twoCauses) "ann") ->
      0 < a /\ a <= 20)
  /\ rowTotal (rowOf (calculateAllocations twoDonors twoCauses) "ann") <= 20.
Proof.
  apply (@calculateAllocations_cells_within_budget twoDonors twoCauses "ann"
           (mkDonor "ann" 100 evenPreferences 20 3 75)).
  - simpl. repeat constructor; simpl; intuition discriminate.
  - simpl. intros c [H|[H|[]]]; subst; simpl; split; lra.
  - simpl. intros d [H|[H|[]]]; subst; simpl; lra.
  - reflexivity.
Defined.

(** ** Rounding *)

(** In binary64 the amounts proposed for one donor can add up to more
    than the budget: alice's budget is 30, her row is
    10.714285714285715 and 19.28571428571429, and the two add up to
    30.000000000000004, both as the program adds them and exactly. *)
Lemma row_exceeds_budget_in_binary64 :
  Binary64.exact (Binary64.allocationBudget Binary64.alice) == 30
  /\ PrimFloat.ltb
       (Binary64.allocationBudget Binary64.alice)
       (Binary64.rowSum
          (Binary64.rowOf
             (Binary64.calculateAllocations (fst Binary64.aliceLedger)
                (snd Binary64.aliceLedger)) "alice"))
     = true
  /\ 30 < sumOver (fun cell => Binary64.exact (snd cell))
            (Binary64.rowOf
               (Binary64.calculateAllocations (fst Binary64.aliceLedger)
                  (snd Binary64.aliceLedger)) "alice").
Proof.
  split; [vm_compute; reflexivity|]. split; vm_compute; reflexivity.
Qed.


(** ** The audit trail as a record of the ledger *)














(** X21. What the dashboard of the demo agent shows around a commit: the
    total allocated after it is the total before it with the amounts of
    the executed events added on, in order; the numbers of donors and
    causes do not change; and the recent allocations are the last five
    events of the history (all of them when there are fewer), in order. *)
Theorem dashboard_follows_commit (now : Z) (m : Matrix) (st : Demo.Agent) :
  Demo.totalAllocated (Demo.getDashboardData (Demo.executeAllocations now m st))
  = fold_left (fun sum e => sum + Demo.amount e)
      (snd (Demo.executeTransfers now m st))
      (Demo.totalAllocated (Demo.getDashboardData st))
  /\ Demo.activeDonors (Demo.getDashboardData (Demo.executeAllocations now m st))
     = Demo.activeDonors (Demo.getDashboardData st)
  /\ Demo.activeCauses (Demo.getDashboardData (Demo.executeAllocations now m st))
     = Demo.activeCauses (Demo.getDashboardData st)
  /\ exists older,
      Demo.allocationHistory (Demo.executeAllocations now m st)
      = older
        ++ Demo.recentAllocations
             (Demo.getDashboardData (Demo.executeAllocations now m st))
      /\ List.length
           (Demo.recentAllocations
              (Demo.getDashboardData (Demo.executeAllocations now m st)))
         = Nat.min 5
             (List.length (Demo.allocationHistory (Demo.executeAllocations now m st))).
Proof.
  unfold Demo.getDashboardData.
  cbn [Demo.totalAllocated Demo.activeDonors Demo.activeCauses
       Demo.recentAllocations].
  destruct (Demo_execute_trail now m st) as [Kd [Kc _]].
  split; [|split; [|split]].
  - destruct (Demo_transfers_audit now m st) as [_ [_ [new [Hnew [Hhist _]]]]].
    unfold Demo.executeAllocations.
    destruct (Demo.executeTransfers now m st) as [st' ex].
    cbn [fst snd Demo.send Demo.with_causes Demo.donors Demo.allocationHistory
         app] in *.
    rewrite Hhist, fold_left_app. subst ex. reflexivity.
  - apply keys_length. exact Kd.
  - apply keys_length. exact Kc.
  - exists (firstn
              (List.length (Demo.allocationHistory (Demo.executeAllocations now m st))
               - 5)
              (Demo.allocationHistory (Demo.executeAllocations now m st))).
    apply slice_last_suffix.
Qed.

(** ** A proposal committed on its own ledger *)

(** A loop whose iterations act on the ledger like [transferPair] and
    record a live pair with a positive amount as one transfer records the
    cells of a batch without stale pairs one by one. *)
Section CommitTrace.
Variable S : Type.
Variable led : S -> Ledger.
Variable trace : S -> list Transfer.
Variable pair : string -> S -> string * Q -> S.
Variable row : S -> string * Dict Q -> S.

Hypothesis pair_ledger :
  forall d s e, led (pair d s e) = transferPair d (led s) e.
Hypothesis pair_trace :
  forall d s c a,
    has (keys (fst (led s))) d = true ->
    has (keys (snd (led s))) c = true ->
    0 < a ->
    trace (pair d s (c, a)) = trace s ++ [(d, c, a)].
Hypothesis row_unfold :
  forall s d r,
    row s (d, r) =
    match get d (fst (led s)) with
    | None => s
    | Some _ => fold_left (pair d) r s
    end.

Lemma pairs_full d r s :
  has (keys (fst (led s))) d = true ->
  (forall c a, In (c, a) r -> has (keys (snd (led s))) c = true /\ 0 < a) ->
  trace (fold_left (pair d) r s)
  = trace s ++ map (fun cell => (d, fst cell, snd cell)) r
  /\ keys (fst (led (fold_left (pair d) r s))) = keys (fst (led s))
  /\ keys (snd (led (fold_left (pair d) r s))) = keys (snd (led s)).
Proof.
  revert s. induction r as [|[c a] r IH]; intros s Hd Hr; cbn [fold_left map].
  - rewrite app_nil_r. repeat split.
  - destruct (Hr c a (or_introl eq_refl)) as [Hc Ha].
    destruct (transferPair_keys d (led s) (c, a)) as [K1 K2].
    rewrite <- pair_ledger in K1, K2.
    destruct (IH (pair d s (c, a))) as [T [L1 L2]].
    + rewrite K1. exact Hd.
    + intros c' a' Hin. rewrite K2. apply Hr. right. exact Hin.
    + rewrite T, L1, L2, K1, K2, (@pair_trace d s c a Hd Hc Ha), <- app_assoc.
      repeat split.
Qed.

Lemma rows_full m s :
  (forall d r, In (d, r) m ->
     has (keys (fst (led s))) d = true
     /\ forall c a, In (c, a) r -> has (keys (snd (led s))) c = true /\ 0 < a) ->
  trace (fold_left row m s) = trace s ++ cellsOf m.
Proof.
  revert s. induction m as [|[d r] m IH]; intros s Hm;
    cbn [fold_left cellsOf flat_map fst snd].
  - rewrite app_nil_r. reflexivity.
  - destruct (Hm d r (or_introl eq_refl)) as [Hd Hr].
    assert (E : row s (d, r) = fold_left (pair d) r s).
    { rewrite row_unfold. apply has_get_Some in Hd. destruct Hd as [v Hv].
      rewrite Hv. reflexivity. }
    destruct (@pairs_full d r s Hd Hr) as [T [L1 L2]].
    rewrite IH.
    + rewrite E, T, <- app_assoc. reflexivity.
    + intros d' r' Hin. rewrite E, L1, L2. apply Hm. right. exact Hin.
Qed.
End CommitTrace.

Lemma Demo_pair_trace now m d (loop : Demo.Loop) c a :
  has (keys (fst (Demo.ledger (fst loop)))) d = true ->
  has (keys (snd (Demo.ledger (fst loop)))) c = true ->
  0 < a ->
  map demoTransfer (snd (Demo.executePair now m d loop (c, a)))
  = map demoTransfer (snd loop) ++ [(d, c, a)].
Proof.
  destruct loop as [st ex]. cbn [fst snd Demo.ledger]. intros Hd Hc Ha.
  apply has_get_Some in Hd. destruct Hd as [dv Hd].
  apply has_get_Some in Hc. destruct Hc as [cv Hc].
  unfold Demo.executePair. rewrite Hd, Hc.
  assert (E : Qle_bool a 0 = false) by (apply Qle_bool_false; exact Ha).
  rewrite E. cbn [snd]. rewrite map_app. reflexivity.
Qed.

Lemma Rda_pair_trace toFixed2 now m d (loop : Rda.Loop) c a :
  has (keys (fst (Rda.ledger (fst loop)))) d = true ->
  has (keys (snd (Rda.ledger (fst loop)))) c = true ->
  0 < a ->
  map rdaTransfer (snd (Rda.executePair toFixed2 now m d loop (c, a)))
  = map rdaTransfer (snd loop) ++ [(d, c, a)].
Proof.
  destruct loop as [st ex]. cbn [fst snd Rda.ledger]. intros Hd Hc Ha.
  apply has_get_Some in Hd. destruct Hd as [dv Hd].
  apply has_get_Some in Hc. destruct Hc as [cv Hc].
  unfold Rda.executePair. rewrite Hd, Hc.
  assert (E : Qle_bool a 0 = false) by (apply Qle_bool_false; exact Ha).
  rewrite E. cbn [snd]. rewrite map_app. reflexivity.
Qed.

Lemma proposal_is_live (led : Ledger) (d : string) (r : Dict Q) :
  wellKeyed led ->
  In (d, r) (calculateAllocations (fst led) (snd led)) ->
  has (keys (fst led)) d = true
  /\ forall c a, In (c, a) r -> has (keys (snd led)) c = true /\ 0 < a.
Proof.
  intros Hwf Hin. split.
  - pose proof Hin as Hin'. unfold calculateAllocations in Hin'.
    apply calculateAllocations_entries in Hin'.
    destruct Hin' as [[]|[donor [Hd _]]].
    apply has_get_Some. apply get_Some_keys.
    unfold keys. apply in_map_iff. exists (d, donor). split; [reflexivity|exact Hd].
  - intros c a Hc.
    destruct (@calculateAllocations_cell_cap led d c r a Hwf Hin Hc)
      as [cause [Hget [Hpos _]]].
    split; [|exact Hpos]. apply has_get_Some. exists cause. exact Hget.
Qed.

(** X8. The proposal computed from a well-keyed ledger is executed in full
    when it is committed on that ledger: the events of the commit are the
    cells of the proposal, one event per cell, row by row and cell by cell
    in the order of iteration, each with the donor, the cause and the
    amount of its cell; no cell is skipped and none is cut.  Both agents. *)
Theorem own_proposal_executed_in_full
    (toFixed2 : Q -> string) (now : Z) (led : Ledger) :
  wellKeyed led ->
  let batch := calculateAllocations (fst led) (snd led) in
  (forall st : Demo.Agent, Demo.ledger st = led ->
      map demoTransfer (snd (Demo.executeTransfers now batch st)) = cellsOf batch)
  /\ (forall st : Rda.Agent, Rda.ledger st = led ->
      map rdaTransfer (snd (Rda.executeTransfers toFixed2 now batch st))
      = cellsOf batch).
Proof.
  intros Hwf batch. split; intros st Hled.
  - unfold Demo.executeTransfers.
    rewrite (@rows_full Demo.Loop (fun l => Demo.ledger (fst l))
               (fun l => map demoTransfer (snd l))
               (Demo.executePair now batch) (Demo.executeRow now batch)).
    + reflexivity.
    + intros. apply Demo_pair_ledger.
    + intros. apply Demo_pair_trace; assumption.
    + intros. apply Demo_row_unfold.
    + intros d r Hin. cbn [fst]. rewrite Hled.
      apply proposal_is_live; assumption.
  - unfold Rda.executeTransfers.
    rewrite (@rows_full Rda.Loop (fun l => Rda.ledger (fst l))
               (fun l => map rdaTransfer (snd l))
               (Rda.executePair toFixed2 now batch)
               (Rda.executeRow toFixed2 now batch)).
    + reflexivity.
    + intros. apply Rda_pair_ledger.
    + intros. apply Rda_pair_trace; assumption.
    + intros. apply Rda_row_unfold.
    + intros d r Hin. cbn [fst]. rewrite Hled.
      apply proposal_is_live; assumption.
Qed.

Lemma own_proposal_executed_in_full_witness :
  map demoTransfer
    (snd (Demo.executeTransfers 4 (calculateAllocations twoDonors twoCauses)
            twoByTwo))
  = cellsOf (calculateAllocations twoDonors twoCauses)
  /\ List.length (cellsOf (calculateAllocations twoDonors twoCauses)) = 4%nat.
Proof.
  split; [|reflexivity].
  destruct (@own_proposal_executed_in_full (fun _ => EmptyString) 4
              (twoDonors, twoCauses)) as [H _].
  - unfold wellKeyed. simpl. repeat split.
    + repeat constructor; simpl; intuition discriminate.
    + repeat constructor; simpl; intuition discriminate.
    + intros k d [E|[E|[]]]; inversion E; reflexivity.
    + intros k c [E|[E|[]]]; inversion E; reflexivity.
  - exact (H twoByTwo eq_refl).
Defined.

(** ** The books of the full engine *)









